(** * Cryptocurrency ingestion job: a shallow embedding

    The development follows the three Python modules of the repository:

    - [utils/coin_market.py]   the HTTP client ([CoinMarketCapAPI]);
    - [utils/posgres_pool.py]  the connection-pool manager ([PostgresManager]);
    - [script.py]              the ingestion pipeline and the job.

    Python values, exceptions and the statement-by-statement control flow
    (try / except / finally, [with] blocks, early [return]) are modelled
    explicitly: every routine is a function from a state to an outcome
    (a returned value or a raised exception) and a new state. *)

From Stdlib Require Import String Ascii List ZArith Lia Bool Arith PeanoNat.
Import ListNotations.

Set Warnings "-register-all".
Local Open Scope string_scope.
Local Open Scope list_scope.

(* ===================================================================== *)
(** ** Python values                                                      *)
(* ===================================================================== *)

(** The values that [json.loads] can produce.  A float is kept as the
    rational number it denotes; only its being zero or not is observed. *)
Inductive pyval : Type :=
| PyNone
| PyBool (b : bool)
| PyInt (z : Z)
| PyFloat (num : Z) (den : positive)
| PyStr (s : string)
| PyList (l : list pyval)
| PyDict (d : list (string * pyval)).

(** [bool(v)]: the truth value Python gives to [v]. *)
Definition truthy (v : pyval) : bool :=
  match v with
  | PyNone => false
  | PyBool b => b
  | PyInt z => negb (Z.eqb z 0)
  | PyFloat n _ => negb (Z.eqb n 0)
  | PyStr s => negb (String.eqb s "")
  | PyList l => match l with [] => false | _ => true end
  | PyDict d => match d with [] => false | _ => true end
  end.

(** [bool(x)] for [x] a string or [None]. *)
Definition present (x : option string) : bool :=
  match x with
  | Some s => negb (String.eqb s "")
  | None => false
  end.

(** [all(iterable)] *)
Definition py_all (vs : list pyval) : bool := forallb truthy vs.

(** [type(v).__name__] *)
Definition type_name (v : pyval) : string :=
  match v with
  | PyNone => "NoneType"
  | PyBool _ => "bool"
  | PyInt _ => "int"
  | PyFloat _ _ => "float"
  | PyStr _ => "str"
  | PyList _ => "list"
  | PyDict _ => "dict"
  end.

(** Lookup in a dict, kept as an association list in insertion order. *)
Fixpoint assoc (k : string) (d : list (string * pyval)) : option pyval :=
  match d with
  | [] => None
  | (k', v) :: rest => if String.eqb k k' then Some v else assoc k rest
  end.

(* ===================================================================== *)
(** ** Exceptions and outcomes                                            *)
(* ===================================================================== *)

(** The exception classes the program raises, catches or lets through.
    [Psycopg2Error] stands for [psycopg2.Error] and all its subclasses
    (IntegrityError, OperationalError, PoolError, ...).  [Timeout],
    [RequestsConnectionError] and [HTTPError] are the subclasses of
    [requests.exceptions.RequestException] named by the client's contract;
    [RequestException] stands for the base class and the remaining
    subclasses.  [ConnectionError] is Python's builtin of that name.
    [SystemExit] is the one class here that does not derive from
    [Exception]. *)
Inductive exn_class : Type :=
| Psycopg2Error
| Timeout
| RequestsConnectionError
| HTTPError
| RequestException
| ConnectionError
| DatabaseError
| ValueError
| AttributeError
| TypeError
| ImportError
| SystemExit
| OtherException.

Record exn : Type := mkExn { exn_cls : exn_class; exn_msg : string }.

Definition is_psycopg2_error (e : exn) : bool :=
  match exn_cls e with Psycopg2Error => true | _ => false end.

Definition is_request_exception (e : exn) : bool :=
  match exn_cls e with
  | Timeout | RequestsConnectionError | HTTPError | RequestException => true
  | _ => false
  end.

Definition is_database_error (e : exn) : bool :=
  match exn_cls e with DatabaseError => true | _ => false end.

Definition is_import_error (e : exn) : bool :=
  match exn_cls e with ImportError => true | _ => false end.

(** [isinstance(e, Exception)] *)
Definition is_Exception (e : exn) : bool :=
  match exn_cls e with SystemExit => false | _ => true end.

Inductive outcome (A : Type) : Type :=
| Return (a : A)
| Raise (e : exn).
Arguments Return {A} a.
Arguments Raise {A} e.

Definition returned {A} (o : outcome A) : bool :=
  match o with Return _ => true | Raise _ => false end.

(** [v.get(k)] / [v.get(k, default)]: only a dict has the method. *)
Definition attr_error (v : pyval) (attr : string) : exn :=
  mkExn AttributeError
        ("'" ++ type_name v ++ "' object has no attribute '" ++ attr ++ "'")%string.

Definition py_get (v : pyval) (k : string) (default : pyval) : outcome pyval :=
  match v with
  | PyDict d => Return (match assoc k d with Some x => x | None => default end)
  | _ => Raise (attr_error v "get")
  end.

(* ===================================================================== *)
(** ** String methods                                                     *)
(* ===================================================================== *)

(** [s.replace(old, new)] for a one-character [old]: every occurrence is
    replaced, left to right. *)
Fixpoint str_replace (old : ascii) (new : string) (s : string) : string :=
  match s with
  | EmptyString => EmptyString
  | String c rest =>
      if Ascii.eqb c old then (new ++ str_replace old new rest)%string
      else String c (str_replace old new rest)
  end.

(** [v.replace(old, new)]: only a [str] has the method. *)
Definition py_replace (v : pyval) (old : ascii) (new : string) : outcome string :=
  match v with
  | PyStr s => Return (str_replace old new s)
  | _ => Raise (attr_error v "replace")
  end.

(** Characters [str.strip()] removes, among the 7-bit ones: tab, line
    feed, vertical tab, form feed, carriage return, the four separators
    0x1c-0x1f and the space. *)
Definition is_space (c : ascii) : bool :=
  let n := nat_of_ascii c in
  ((9 <=? n)%nat && (n <=? 13)%nat) || ((28 <=? n)%nat && (n <=? 32)%nat).

Fixpoint lstrip (s : string) : string :=
  match s with
  | EmptyString => EmptyString
  | String c rest => if is_space c then lstrip rest else s
  end.

Fixpoint rstrip (s : string) : string :=
  match s with
  | EmptyString => EmptyString
  | String c rest =>
      match rstrip rest with
      | EmptyString => if is_space c then EmptyString else String c EmptyString
      | r => String c r
      end
  end.

Definition strip (s : string) : string := rstrip (lstrip s).

Definition upper_char (c : ascii) : ascii :=
  let n := nat_of_ascii c in
  if ((97 <=? n)%nat && (n <=? 122)%nat) then ascii_of_nat (n - 32) else c.

Fixpoint upper (s : string) : string :=
  match s with
  | EmptyString => EmptyString
  | String c rest => String (upper_char c) (upper rest)
  end.

Definition startswith (s p : string) : bool := String.prefix p s.

(** Does [needle] occur in [s]? ([needle in s] on two strings.) *)
Fixpoint str_contains (needle s : string) : bool :=
  String.prefix needle s ||
  match s with
  | EmptyString => false
  | String _ rest => str_contains needle rest
  end.

(* ===================================================================== *)
(** ** Statements in sequence: a state-and-exception monad                *)
(* ===================================================================== *)

(** A routine reads and writes a state [S] and ends by returning a value
    or by raising; the state changes made before a [raise] are kept. *)
Definition M (S A : Type) : Type := S -> outcome A * S.

Definition ret {S A} (a : A) : M S A := fun s => (Return a, s).

Definition raise {S A} (e : exn) : M S A := fun s => (Raise e, s).

Definition bind {S A B} (m : M S A) (k : A -> M S B) : M S B :=
  fun s =>
    match m s with
    | (Return a, s') => k a s'
    | (Raise e, s') => (Raise e, s')
    end.

Notation "x <- m ;; k" := (bind m (fun x => k))
  (at level 61, m at next level, right associativity).
Notation "m ;; k" := (bind m (fun _ => k))
  (at level 61, right associativity).

(** [try: body except <classes> as e: handler(e)] *)
Definition try_except {S A} (body : M S A) (catches : exn -> bool)
           (handler : exn -> M S A) : M S A :=
  fun s =>
    match body s with
    | (Return a, s') => (Return a, s')
    | (Raise e, s') => if catches e then handler e s' else (Raise e, s')
    end.

(** [try: body except A: h1 except B as e: h2(e)]: the first clause whose
    class matches handles the exception; what a handler raises is not
    handled by the clauses next to it. *)
Definition try_except2 {S A} (body : M S A)
           (catches1 : exn -> bool) (handler1 : exn -> M S A)
           (catches2 : exn -> bool) (handler2 : exn -> M S A) : M S A :=
  fun s =>
    match body s with
    | (Return a, s') => (Return a, s')
    | (Raise e, s') =>
        if catches1 e then handler1 e s'
        else if catches2 e then handler2 e s'
        else (Raise e, s')
    end.

(** [try: body finally: cleanup]: the cleanup runs on every exit of the
    body; when it raises itself, its exception replaces the outcome. *)
Definition try_finally {S A} (body : M S A) (cleanup : M S unit) : M S A :=
  fun s =>
    match body s with
    | (o, s') =>
        match cleanup s' with
        | (Return _, s'') => (o, s'')
        | (Raise e, s'') => (Raise e, s'')
        end
    end.

(** [if c: body] with no [else]. *)
Definition when {S} (c : bool) (body : M S unit) : M S unit :=
  if c then body else ret tt.

(** Run a routine written for a state [T] inside one for a state [S]
    that contains a [T]. *)
Definition zoom {S T A} (get : S -> T) (set : T -> S -> S) (m : M T A) : M S A :=
  fun s => match m (get s) with (o, t') => (o, set t' s) end.

(** Local variables [L] of a routine, next to the state [S] it works on. *)
Definition with_locals {L S A} (init : L) (body : M (L * S) A) : M S A :=
  fun s => match body (init, s) with (o, (_, s')) => (o, s') end.

Definition outer {L S A} (m : M S A) : M (L * S) A :=
  zoom snd (fun t (s : L * S) => (fst s, t)) m.

Definition get_local {L S} : M (L * S) L := fun s => (Return (fst s), s).

Definition set_local {L S} (l : L) : M (L * S) unit :=
  fun s => (Return tt, (l, snd s)).

Definition lift {S A} (o : outcome A) : M S A := fun s => (o, s).

(** [for x in xs: body(x)] *)
Fixpoint for_each {S A} (xs : list A) (body : A -> M S unit) : M S unit :=
  match xs with
  | [] => ret tt
  | x :: rest => body x ;; for_each rest body
  end.

(* ===================================================================== *)
(** ** The world outside the program                                      *)
(* ===================================================================== *)

(** A parameter tuple, and a stored row, is a list of Python values. *)
Definition row : Type := list pyval.
Definition table : Type := list row.

(** The server's data: tables by name. *)
Definition dbstate : Type := list (string * table).

Inductive level : Type := DEBUG | INFO | WARNING | ERROR | CRITICAL.

(** A formatted message is kept as the pieces of its f-string. *)
Inductive frag : Type :=
| Lit (s : string)
| Val (v : pyval)
| Count (n : nat).

Definition text : Type := list frag.

(** What an observer of one run can see, in the order it happens.
    [QueryCall] and [BatchCall] mark the entry into the two executing
    methods of the manager; the other events are calls that leave the
    program: to the logger, to the HTTP library, to the pool and to the
    connections it hands out.  [Executed] and [Commit] carry the
    exception the call raised, if any. *)
Inductive event : Type :=
| Log (lvl : level) (msg : text)
| Print (msg : text)
| HttpGet (url : string) (params : list (string * pyval))
| PoolCreated (minconn maxconn : nat)
| PoolClosed
| Getconn (c : nat)
| Putconn (c : nat)
| CursorOpened (c : nat)
| Executed (c : nat) (query : string) (params : option row) (err : option exn)
| Commit (c : nat) (err : option exn)
| Rollback (c : nat)
| QueryCall (query : string) (params : option row)
| BatchCall (query : string) (params_list : list row).

Record world : Type := mkWorld {
  w_db : dbstate;                (* what is committed on the server *)
  w_txn : list (nat * dbstate);  (* open transactions: connection, working copy *)
  w_next : nat;                   (* the next fresh connection *)
  w_clock : nat;                  (* driver calls made so far *)
  w_log : list event              (* events so far, newest first *)
}.

(** The events of a run in the order they happened. *)
Definition trace (w : world) : list event := rev (w_log w).

(** What a statement does on the server: a new working copy and a result
    set ([None] when the statement produces none), or an exception. *)
Inductive stmt_result : Type :=
| StmtOk (db' : dbstate) (rows : option (list row))
| StmtError (e : exn).

(** What [requests.get] gives back. *)
Record response : Type := mkResponse {
  status_code : Z;
  reason : string;            (* the text of the HTTPError for this response *)
  json_body : outcome pyval   (* what [response.json()] returns or raises *)
}.

Inductive net_outcome : Type :=
| NetResponse (r : response)
| NetRaises (e : exn).

(** Everything the program does not decide itself. *)
Record platform : Type := mkPlatform {
  environ : string -> option string;
  http : string -> list (string * string) -> list (string * pyval) -> net_outcome;
  sql : string -> option row -> dbstate -> stmt_result;
  fault : nat -> option exn   (* the failure of the n-th driver call, if it fails *)
}.

Fixpoint lookup_txn (c : nat) (t : list (nat * dbstate)) : option dbstate :=
  match t with
  | [] => None
  | (c', d) :: rest => if Nat.eqb c c' then Some d else lookup_txn c rest
  end.

Fixpoint drop_txn (c : nat) (t : list (nat * dbstate)) : list (nat * dbstate) :=
  match t with
  | [] => []
  | (c', d) :: rest =>
      if Nat.eqb c c' then drop_txn c rest else (c', d) :: drop_txn c rest
  end.

Definition set_log (l : list event) (w : world) : world :=
  mkWorld (w_db w) (w_txn w) (w_next w) (w_clock w) l.

Definition set_txn (t : list (nat * dbstate)) (w : world) : world :=
  mkWorld (w_db w) t (w_next w) (w_clock w) (w_log w).

Definition set_db (d : dbstate) (w : world) : world :=
  mkWorld d (w_txn w) (w_next w) (w_clock w) (w_log w).

Definition set_next (n : nat) (w : world) : world :=
  mkWorld (w_db w) (w_txn w) n (w_clock w) (w_log w).

Definition set_clock (n : nat) (w : world) : world :=
  mkWorld (w_db w) (w_txn w) (w_next w) n (w_log w).

(** The data a connection sees: its own working copy inside a
    transaction, the committed data otherwise. *)
Definition view (c : nat) (w : world) : dbstate :=
  match lookup_txn c (w_txn w) with
  | Some d => d
  | None => w_db w
  end.

Definition emit (ev : event) : M world unit :=
  fun w => (Return tt, set_log (ev :: w_log w) w).

(** [logger.<level>(msg)] *)
Definition logger (lvl : level) (msg : text) : M world unit := emit (Log lvl msg).

(* ===================================================================== *)
(** ** psycopg2 as the program uses it                                    *)
(* ===================================================================== *)

(** The library is not part of the repository; this is the behaviour of
    [psycopg2.pool.ThreadedConnectionPool], of a connection and of a
    cursor that the manager relies on.  A call that talks to the server
    takes one tick of the clock and fails when the platform says so.
    One connection is at work at a time (the job is sequential), so a
    commit installs the connection's working copy as the committed data. *)
Module Psycopg2.

Record pool : Type := mkPool {
  minconn : nat;
  maxconn : nat;
  idle : list nat;   (* connections waiting in the pool *)
  used : list nat    (* connections handed out and not yet put back *)
}.

(** A cursor remembers its connection and the result set of its last
    statement. *)
Record cursor : Type := mkCursor {
  cur_conn : nat;
  cur_rows : option (list row)
}.

Section Driver.
Variable P : platform.

Definition tick : M world (option exn) :=
  fun w => (Return (fault P (w_clock w)), set_clock (S (w_clock w)) w).

Definition fresh_conn : M world nat :=
  fun w => (Return (w_next w), set_next (S (w_next w)) w).

Fixpoint connect_many (n : nat) : M world (list nat) :=
  match n with
  | O => ret []
  | S k => c <- fresh_conn ;; cs <- connect_many k ;; ret (c :: cs)
  end.

(** [ThreadedConnectionPool(minconn, maxconn, ...)]: opens [minconn]
    connections. *)
Definition new_pool (minc maxc : nat) : M world pool :=
  f <- tick ;;
  match f with
  | Some e => raise e
  | None =>
      cs <- connect_many minc ;;
      emit (PoolCreated minc maxc) ;;
      ret (mkPool minc maxc cs [])
  end.

(** [pool.getconn()] *)
Definition getconn (p : pool) : M world (nat * pool) :=
  match idle p with
  | c :: rest =>
      emit (Getconn c) ;;
      ret (c, mkPool (minconn p) (maxconn p) rest (c :: used p))
  | [] =>
      if Nat.leb (maxconn p) (length (used p)) then
        raise (mkExn Psycopg2Error "connection pool exhausted")
      else
        f <- tick ;;
        match f with
        | Some e => raise e
        | None =>
            c <- fresh_conn ;;
            emit (Getconn c) ;;
            ret (c, mkPool (minconn p) (maxconn p) [] (c :: used p))
        end
  end.

(** [connection.rollback()]: like every call that talks to the server it
    can fail (on a lost connection it raises a [psycopg2.Error]); then
    nothing is rolled back by the call itself. *)
Definition rollback (c : nat) : M world unit :=
  f <- tick ;;
  match f with
  | Some e => raise e
  | None => fun w => emit (Rollback c) (set_txn (drop_txn c (w_txn w)) w)
  end.

(** [pool.putconn(conn)]: a connection that is still inside a
    transaction is rolled back before it is kept or closed. *)
Definition putconn (p : pool) (c : nat) : M world pool :=
  (fun w => (Return tt, set_txn (drop_txn c (w_txn w)) w)) ;;
  emit (Putconn c) ;;
  let used' := filter (fun x => negb (Nat.eqb x c)) (used p) in
  if Nat.ltb (length (idle p)) (minconn p)
  then ret (mkPool (minconn p) (maxconn p) (c :: idle p) used')
  else ret (mkPool (minconn p) (maxconn p) (idle p) used').

(** [pool.closeall()]: closing a connection abandons its transaction. *)
Definition closeall (p : pool) : M world unit :=
  (fun w =>
     (Return tt,
      set_txn (fold_right drop_txn (w_txn w) (idle p ++ used p)) w)) ;;
  emit PoolClosed.

(** [connection.cursor()] *)
Definition open_cursor (c : nat) : M world cursor :=
  f <- tick ;;
  match f with
  | Some e => raise e
  | None => emit (CursorOpened c) ;; ret (mkCursor c None)
  end.

(** [cursor.execute(query, params)] *)
Definition execute (cur : cursor) (query : string) (params : option row)
  : M world cursor :=
  let c := cur_conn cur in
  f <- tick ;;
  match f with
  | Some e => emit (Executed c query params (Some e)) ;; raise e
  | None =>
      fun w =>
        match sql P query params (view c w) with
        | StmtError e => (emit (Executed c query params (Some e)) ;; raise e) w
        | StmtOk d rows =>
            (emit (Executed c query params None) ;; ret (mkCursor c rows))
              (set_txn ((c, d) :: drop_txn c (w_txn w)) w)
        end
  end.

Definition no_results : exn := mkExn Psycopg2Error "no results to fetch".

(** [cursor.fetchone()]: the next row, or [None] at the end. *)
Definition fetchone (cur : cursor) : M world (option row) :=
  f <- tick ;;
  match f with
  | Some e => raise e
  | None =>
      match cur_rows cur with
      | None => raise no_results
      | Some rows => ret (hd_error rows)
      end
  end.

(** [cursor.fetchall()] *)
Definition fetchall (cur : cursor) : M world (list row) :=
  f <- tick ;;
  match f with
  | Some e => raise e
  | None =>
      match cur_rows cur with
      | None => raise no_results
      | Some rows => ret rows
      end
  end.

(** [connection.commit()] *)
Definition commit (c : nat) : M world unit :=
  f <- tick ;;
  match f with
  | Some e => emit (Commit c (Some e)) ;; raise e
  | None =>
      fun w =>
        emit (Commit c None)
             (set_txn (drop_txn c (w_txn w)) (set_db (view c w) w))
  end.

End Driver.
End Psycopg2.

(* ===================================================================== *)
(** ** utils/posgres_pool.py                                              *)
(* ===================================================================== *)

Module PostgresManager.

(** The attributes of a manager object.  [None] is Python's [None]. *)
Record t : Type := mk {
  host : option string;
  port : option string;
  database : option string;
  user : option string;
  password : option string;
  connection_pool : option Psycopg2.pool;
  min_connections : nat;
  max_connections : nat
}.

Definition set_connection_pool (p : option Psycopg2.pool) (m : t) : t :=
  mk (host m) (port m) (database m) (user m) (password m) p
     (min_connections m) (max_connections m).

(** A method runs on the object and on the world. *)
Record mstate : Type := mkState { self : t; wd : world }.

(** [x or y] *)
Definition or_else (x y : option string) : option string :=
  if present x then x else y.

(** [os.environ.get(k, default)] *)
Definition getenv_default (P : platform) (k default : string) : option string :=
  match environ P k with
  | Some v => Some v
  | None => Some default
  end.

Definition the_world {A} (m : M world A) : M mstate A :=
  zoom wd (fun w s => mkState (self s) w) m.

Definition get_self : M mstate t := fun s => (Return (self s), s).

Definition put_self (m : t) : M mstate unit :=
  fun s => (Return tt, mkState m (wd s)).

(** The local variable [connection] of [execute_query] and
    [execute_batch], next to the method's state. *)
Definition frame : Type := (option nat * mstate)%type.

(** What [execute_query] returns: [None], one row, or a list of rows. *)
Inductive qresult : Type :=
| QNone
| QRow (r : row)
| QRows (rs : list row).

Section Methods.
Variable P : platform.

(** [PostgresManager(host, port, database, user, password,
                     min_connections, max_connections)] *)
Definition __init__ (host port database user password : option string)
           (min_connections max_connections : nat) : outcome t :=
  let host := or_else host (getenv_default P "DB_HOST" "localhost") in
  let port := or_else port (getenv_default P "DB_PORT" "5432") in
  let database := or_else database (environ P "DB_NAME") in
  let user := or_else user (environ P "DB_USER") in
  let password := or_else password (environ P "DB_PASSWORD") in
  if negb (present database && present user && present password) then
    Raise (mkExn ValueError "Database name, user, and password must be provided.")
  else
    Return (mk host port database user password None
               min_connections max_connections).

Definition initialize_pool : M mstate unit :=
  m <- get_self ;;
  match connection_pool m with
  | None =>
      try_except
        (p <- the_world (Psycopg2.new_pool P (min_connections m) (max_connections m)) ;;
         put_self (set_connection_pool (Some p) m) ;;
         the_world (emit (Print [Lit "Connection pool initialized with ";
                                 Count (min_connections m); Lit "-";
                                 Count (max_connections m); Lit " connections"])))
        is_psycopg2_error
        (fun e => raise (mkExn ConnectionError
                    ("Failed to initialize connection pool: " ++ exn_msg e)%string))
  | Some _ => ret tt
  end.

Definition get_connection : M mstate (nat * Psycopg2.cursor) :=
  m <- get_self ;;
  when (match connection_pool m with None => true | Some _ => false end)
       initialize_pool ;;
  try_except
    (m <- get_self ;;
     match connection_pool m with
     | None => raise (attr_error PyNone "getconn")
     | Some p =>
         cp <- the_world (Psycopg2.getconn P p) ;;
         put_self (set_connection_pool (Some (snd cp)) m) ;;
         cursor <- the_world (Psycopg2.open_cursor P (fst cp)) ;;
         ret (fst cp, cursor)
     end)
    is_psycopg2_error
    (fun e => raise (mkExn ConnectionError
                ("Failed to get connection from pool: " ++ exn_msg e)%string)).

Definition release_connection (connection : nat) : M mstate unit :=
  m <- get_self ;;
  match connection_pool m with
  | Some p =>
      p' <- the_world (Psycopg2.putconn p connection) ;;
      put_self (set_connection_pool (Some p') m)
  | None => ret tt
  end.

(** [if connection: ...] in the handlers: a connection object is true. *)
Definition if_connection (body : nat -> M frame unit) : M frame unit :=
  conn <- get_local ;;
  match conn with
  | Some c => body c
  | None => ret tt
  end.

Definition is_select (query : string) : bool :=
  startswith (upper (strip query)) "SELECT".

Definition execute_query (query : string) (params : option row)
           (fetchone fetchall : bool) : M mstate qresult :=
  the_world (emit (QueryCall query params)) ;;
  with_locals (None : option nat)
    (try_finally
       (try_except
          (cc <- outer get_connection ;;
           set_local (Some (fst cc)) ;;
           cursor <- outer (the_world (Psycopg2.execute P (snd cc) query params)) ;;
           if is_select query then
             result <-
               (if fetchone then
                  r <- outer (the_world (Psycopg2.fetchone P cursor)) ;;
                  ret (match r with Some x => QRow x | None => QNone end)
                else if fetchall then
                  rs <- outer (the_world (Psycopg2.fetchall P cursor)) ;;
                  ret (QRows rs)
                else ret QNone) ;;
             outer (the_world (Psycopg2.commit P (fst cc))) ;;
             ret result
           else
             outer (the_world (Psycopg2.commit P (fst cc))) ;;
             ret QNone)
          is_psycopg2_error
          (fun e =>
             if_connection (fun c => outer (the_world (Psycopg2.rollback P c))) ;;
             raise (mkExn DatabaseError
                          ("Query execution failed: " ++ exn_msg e)%string)))
       (if_connection (fun c => outer (release_connection c)))).

(** The loop of [execute_batch]; the cursor object is the same throughout. *)
Fixpoint execute_each (cursor : Psycopg2.cursor) (query : string)
         (params_list : list row) : M world Psycopg2.cursor :=
  match params_list with
  | [] => ret cursor
  | params :: rest =>
      cursor' <- Psycopg2.execute P cursor query (Some params) ;;
      execute_each cursor' query rest
  end.

Definition execute_batch (query : string) (params_list : list row)
  : M mstate unit :=
  the_world (emit (BatchCall query params_list)) ;;
  with_locals (None : option nat)
    (try_finally
       (try_except
          (cc <- outer get_connection ;;
           set_local (Some (fst cc)) ;;
           outer (the_world (execute_each (snd cc) query params_list)) ;;
           outer (the_world (Psycopg2.commit P (fst cc))))
          is_psycopg2_error
          (fun e =>
             if_connection (fun c => outer (the_world (Psycopg2.rollback P c))) ;;
             raise (mkExn DatabaseError
                          ("Batch execution failed: " ++ exn_msg e)%string)))
       (if_connection (fun c => outer (release_connection c)))).

Definition close_pool : M mstate unit :=
  m <- get_self ;;
  match connection_pool m with
  | Some p =>
      the_world (Psycopg2.closeall p) ;;
      put_self (set_connection_pool None m) ;;
      the_world (emit (Print [Lit "Connection pool closed"]))
  | None => ret tt
  end.

Definition __enter__ : M mstate unit := initialize_pool.

Definition __exit__ : M mstate unit := close_pool.

(** [with PostgresManager() as db_manager: body], inside a routine with
    local variables [L]: the object is built from the environment,
    entered, and left again however the body ends.  [__exit__] returns
    [None], so an exception of the body goes on. *)
Definition with_manager {L A} (body : M (L * mstate) A) : M (L * world) A :=
  fun s =>
    match __init__ None None None None None 1 10 with
    | Raise e => (Raise e, s)
    | Return m =>
        match (outer __enter__ ;; try_finally body (outer __exit__))
                (fst s, mkState m (snd s)) with
        | (o, (l, st)) => (o, (l, wd st))
        end
    end.

End Methods.
End PostgresManager.

(* ===================================================================== *)
(** ** utils/coin_market.py                                               *)
(* ===================================================================== *)

Module CoinMarketCapAPI.

Record t : Type := mk {
  api_key : string;
  headers : list (string * string)
}.

Definition BASE_URL : string := "https://pro-api.coinmarketcap.com/v1".

Definition __init__ (api_key : string) : t :=
  mk api_key [("X-CMC_PRO_API_KEY", api_key); ("Accept", "application/json")].

(** [response.raise_for_status()]: statuses 400 to 599 raise. *)
Definition raise_for_status {S} (r : response) : M S unit :=
  if (400 <=? status_code r)%Z && (status_code r <? 600)%Z
  then raise (mkExn HTTPError (reason r))
  else ret tt.

Section Methods.
Variable P : platform.

Definition _make_request (self : t) (endpoint : string)
           (params : list (string * pyval)) : M world pyval :=
  try_except
    (emit (HttpGet endpoint params) ;;
     match http P endpoint (headers self) params with
     | NetRaises e => raise e
     | NetResponse r =>
         raise_for_status r ;;
         (fun w => (json_body r, w))
     end)
    is_request_exception
    (fun e => ret (PyDict [("error", PyStr (exn_msg e))])).

Definition get_latest_listings (self : t) (start limit : Z) (convert : string)
  : M world pyval :=
  let endpoint := (BASE_URL ++ "/cryptocurrency/listings/latest")%string in
  let params := [("start", PyInt start); ("limit", PyInt limit);
                 ("convert", PyStr convert)] in
  _make_request self endpoint params.

End Methods.
End CoinMarketCapAPI.


(* ===================================================================== *)
(** ** script.py                                                          *)
(* ===================================================================== *)

Definition not_iterable (v : pyval) : exn :=
  mkExn TypeError ("'" ++ type_name v ++ "' object is not iterable")%string.

Fixpoint chars (s : string) : list pyval :=
  match s with
  | EmptyString => []
  | String c rest => PyStr (String c EmptyString) :: chars rest
  end.

(** What [for item in v] goes through. *)
Definition py_iter (v : pyval) : outcome (list pyval) :=
  match v with
  | PyList l => Return l
  | PyDict d => Return (map (fun kv => PyStr (fst kv)) d)
  | PyStr s => Return (chars s)
  | _ => Raise (not_iterable v)
  end.

Definition is_str (k : string) (v : pyval) : bool :=
  match v with
  | PyStr s => String.eqb s k
  | _ => false
  end.

(** [k in v] for a string [k]. *)
Definition py_in (k : string) (v : pyval) : outcome bool :=
  match v with
  | PyDict d => Return (match assoc k d with Some _ => true | None => false end)
  | PyList l => Return (existsb (is_str k) l)
  | PyStr s => Return (str_contains k s)
  | _ => Raise (mkExn TypeError
                  ("argument of type '" ++ type_name v ++ "' is not iterable")%string)
  end.

(** [v[k]] for a string [k]. *)
Definition py_item (v : pyval) (k : string) : outcome pyval :=
  match v with
  | PyDict d =>
      match assoc k d with
      | Some x => Return x
      | None => Raise (mkExn OtherException ("'" ++ k ++ "'")%string)
      end
  | PyList _ => Raise (mkExn TypeError "list indices must be integers or slices, not str")
  | PyStr _ => Raise (mkExn TypeError "string indices must be integers, not 'str'")
  | _ => Raise (mkExn TypeError
                  ("'" ++ type_name v ++ "' object is not subscriptable")%string)
  end.

Definition insert_query : string := "
            INSERT INTO cryptocurrency_data (name, symbol, rank, price_usd, volume_24h_usd, market_cap_usd, last_updated)
            VALUES (%s, %s, %s, %s, %s, %s, %s)
            ON CONFLICT (name, symbol, last_updated) DO NOTHING;
        ".

Definition create_table_query : string := "
                CREATE TABLE IF NOT EXISTS cryptocurrency_data (
                    id SERIAL PRIMARY KEY,
                    name VARCHAR(255) NOT NULL,
                    symbol VARCHAR(10) NOT NULL,
                    rank INT,
                    price_usd DECIMAL(20, 10),
                    volume_24h_usd DECIMAL(20, 10),
                    market_cap_usd DECIMAL(20, 10),
                    last_updated TIMESTAMP,
                    created_at TIMESTAMP DEFAULT CURRENT_TIMESTAMP,
                    UNIQUE (name, symbol, last_updated)
                );
            ".

(** [insert_crypto_data] runs on its local list [data_to_insert] and on
    the world. *)
Definition collecting : Type := (list row * world)%type.

(** [data_to_insert.append(r)] *)
Definition append_row (r : row) : M collecting unit :=
  fun s => (Return tt, (fst s ++ [r], snd s)).

(** [last_updated_str.replace('T', ' ').replace('Z', '')] *)
Definition normalize_timestamp (last_updated_str : pyval) : outcome string :=
  match py_replace last_updated_str "T" " " with
  | Return s => py_replace (PyStr s) "Z" ""
  | Raise e => Raise e
  end.

(** One turn of the loop: the body of the [try] and its handler. *)
Definition process_item (item : pyval) : M collecting unit :=
  try_except
    (name <- lift (py_get item "name" PyNone) ;;
     symbol <- lift (py_get item "symbol" PyNone) ;;
     cmc_rank <- lift (py_get item "cmc_rank" PyNone) ;;
     quote <- lift (py_get item "quote" (PyDict [])) ;;
     quote_usd <- lift (py_get quote "USD" (PyDict [])) ;;
     price <- lift (py_get quote_usd "price" PyNone) ;;
     volume_24h <- lift (py_get quote_usd "volume_24h" PyNone) ;;
     market_cap <- lift (py_get quote_usd "market_cap" PyNone) ;;
     last_updated_str <- lift (py_get quote_usd "last_updated" PyNone) ;;
     if py_all [name; symbol; price; last_updated_str] then
       last_updated <- lift (normalize_timestamp last_updated_str) ;;
       append_row [name; symbol; cmc_rank; price; volume_24h; market_cap;
                   PyStr last_updated]
     else
       shown <- lift (py_get item "name" (PyStr "N/A")) ;;
       outer (logger WARNING [Lit "Skipping incomplete record: "; Val shown]))
    is_Exception
    (fun e =>
       shown <- lift (py_get item "name" (PyStr "N/A")) ;;
       outer (logger ERROR [Lit "Error processing item: "; Val shown;
                            Lit " - "; Lit (exn_msg e)])).

Inductive job_status : Type := SUCCESS | FAILED.

Definition job_status_name (j : job_status) : string :=
  match j with SUCCESS => "SUCCESS" | FAILED => "FAILED" end.

(** What the job hands to the HTTP layer: the body and the status code. *)
Record job_result : Type := mkResult {
  status : string;
  message : pyval;
  code : Z
}.

(** The four lines logged by the [finally] of the job; colours, box
    characters and the clock reading are left out of the text. *)
Definition closing_summary : M (job_status * world) unit :=
  job_status <- get_local ;;
  outer (logger INFO [Lit "end banner"]) ;;
  outer (logger INFO [Lit "CRYPTOCURRENCY DATA COLLECTION JOB ";
                      Lit (job_status_name job_status)]) ;;
  outer (logger INFO [Lit "Finished at: "]) ;;
  outer (logger INFO [Lit "bottom banner"]).

Section Script.
Variable P : platform.

Definition insert_crypto_data (api_response : pyval) : M world nat :=
  with_locals ([] : list row)
    (outer (logger INFO [Lit "Processing cryptocurrency data for database insertion"]) ;;
     data <- lift (py_get api_response "data" (PyList [])) ;;
     items <- lift (py_iter data) ;;
     for_each items process_item ;;
     data_to_insert <- get_local ;;
     match data_to_insert with
     | _ :: _ =>
         try_except
           (PostgresManager.with_manager P
              (outer (PostgresManager.execute_batch P insert_query data_to_insert)) ;;
            let records_inserted := length data_to_insert in
            outer (logger INFO [Lit "Successfully inserted/updated ";
                                Count records_inserted;
                                Lit " records into the database."]) ;;
            ret records_inserted)
           is_database_error
           (fun e =>
              outer (logger ERROR [Lit "Database insertion failed: "; Lit (exn_msg e)]) ;;
              raise e)
     | [] =>
         outer (logger INFO [Lit "No valid data to insert."]) ;;
         ret 0
     end).

(** A statement of the job's [with] block that does not touch the manager. *)
Definition from_block {L A} (m : M world A) : M (L * PostgresManager.mstate) A :=
  outer (PostgresManager.the_world m).

(** The block under [with PostgresManager() as db_manager:] in the job;
    [Some r] is the early [return r], [None] is falling off the end.
    The check mark that opens the last log line is left out of its text. *)
Definition job_block (client : CoinMarketCapAPI.t)
  : M (job_status * PostgresManager.mstate) (option job_result) :=
  outer (PostgresManager.initialize_pool P) ;;
  from_block (logger INFO [Lit "Successfully connected to PostgreSQL"]) ;;
  outer (PostgresManager.execute_query P create_table_query None false true) ;;
  from_block (logger INFO [Lit "Database table 'cryptocurrency_data' ensured."]) ;;
  from_block (logger INFO [Lit "Fetching data from CoinMarketCap API"]) ;;
  api_response <- from_block (CoinMarketCapAPI.get_latest_listings P client 1 200 "USD") ;;
  has_error <- lift (py_in "error" api_response) ;;
  if has_error then
    err <- lift (py_item api_response "error") ;;
    from_block (logger ERROR [Lit "API Error: "; Val err]) ;;
    set_local FAILED ;;
    err' <- lift (py_item api_response "error") ;;
    ret (Some (mkResult "error" err' 500))
  else
    from_block (insert_crypto_data api_response) ;;
    from_block (logger INFO [Lit "Job completed successfully"]) ;;
    set_local SUCCESS ;;
    ret None.

(** The job.  The three opening lines of the log stand for the box drawn
    around the title; [sys.exit(1)] raises [SystemExit], which neither
    [except] clause catches. *)
Definition run_data_collection_job : M world job_result :=
  with_locals SUCCESS
    (outer (logger INFO [Lit "top banner"]) ;;
     outer (logger INFO [Lit "Starting Cryptocurrency Data Collection Job"]) ;;
     outer (logger INFO [Lit "bottom banner"]) ;;
     early <-
       try_finally
         (try_except2
            (let api_key := environ P "COINMARKETCAP_API_KEY" in
             (if negb (present api_key) then
                outer (logger CRITICAL
                         [Lit "COINMARKETCAP_API_KEY environment variable not set. Exiting."]) ;;
                raise (mkExn SystemExit "1")
              else ret tt) ;;
             let client := CoinMarketCapAPI.__init__
                             (match api_key with Some k => k | None => "" end) in
             outer (logger INFO [Lit "Connecting to PostgreSQL database..."]) ;;
             PostgresManager.with_manager P (job_block client))
            is_import_error
            (fun _ =>
               outer (logger ERROR
                        [Lit "Failed to import required modules. Check that all dependencies are installed"]) ;;
               set_local FAILED ;;
               ret (Some (mkResult "error" (PyStr "Failed to import required modules") 500)))
            is_Exception
            (fun e =>
               outer (logger ERROR [Lit "Job failed: "; Lit (exn_msg e)]) ;;
               set_local FAILED ;;
               ret (Some (mkResult "error" (PyStr (exn_msg e)) 500))))
         closing_summary ;;
     match early with
     | Some r => ret r
     | None =>
         ret (mkResult "success"
                       (PyStr "Data collection job completed successfully") 200)
     end).

End Script.

(* ===================================================================== *)
(** ** PostgreSQL on the two statements of the program                    *)
(* ===================================================================== *)

Definition TABLE : string := "cryptocurrency_data".

Fixpoint lookup_table (name : string) (db : dbstate) : option table :=
  match db with
  | [] => None
  | (n, t) :: rest => if String.eqb name n then Some t else lookup_table name rest
  end.

Fixpoint update_table (name : string) (t : table) (db : dbstate) : dbstate :=
  match db with
  | [] => []
  | (n, t0) :: rest =>
      if String.eqb name n then (n, t) :: rest
      else (n, t0) :: update_table name t rest
  end.

(** Equality of two values as the server compares two stored fields. *)
Fixpoint pyval_eqb (a b : pyval) : bool :=
  match a, b with
  | PyNone, PyNone => true
  | PyBool x, PyBool y => Bool.eqb x y
  | PyInt x, PyInt y => Z.eqb x y
  | PyFloat n d, PyFloat n' d' => Z.eqb n n' && Pos.eqb d d'
  | PyStr x, PyStr y => String.eqb x y
  | PyList l, PyList l' =>
      (fix all2 (l l' : list pyval) : bool :=
         match l, l' with
         | [], [] => true
         | x :: xs, y :: ys => pyval_eqb x y && all2 xs ys
         | _, _ => false
         end) l l'
  | PyDict d, PyDict d' =>
      (fix all2 (d d' : list (string * pyval)) : bool :=
         match d, d' with
         | [], [] => true
         | (k, x) :: xs, (k', y) :: ys =>
             String.eqb k k' && pyval_eqb x y && all2 xs ys
         | _, _ => false
         end) d d'
  | _, _ => false
  end.

Definition is_null (v : pyval) : bool :=
  match v with PyNone => true | _ => false end.

(** The columns of a parameter tuple of [insert_query], by position. *)
Definition col (i : nat) (r : row) : pyval := nth i r PyNone.

(** Two rows collide on UNIQUE (name, symbol, last_updated) when the
    three fields are equal and none of them is NULL. *)
Definition same_key (r s : row) : bool :=
  let eq i := negb (is_null (col i r)) && pyval_eqb (col i r) (col i s) in
  eq 0 && eq 1 && eq 6.

Definition conflicts (r : row) (t : table) : bool := existsb (same_key r) t.

(** The server on [create_table_query] and [insert_query].  [accepts]
    stands for the checks of the table that do not involve the unique
    key (NOT NULL, the length of a VARCHAR, the range of a DECIMAL, the
    syntax of a TIMESTAMP): a tuple that fails one of them raises.  Any
    other statement is refused. *)
Definition pg_sql (accepts : row -> bool) (query : string) (params : option row)
           (db : dbstate) : stmt_result :=
  if String.eqb query create_table_query then
    match lookup_table TABLE db with
    | Some _ => StmtOk db None
    | None => StmtOk (db ++ [(TABLE, [])]) None
    end
  else if String.eqb query insert_query then
    match params, lookup_table TABLE db with
    | Some r, Some t =>
        if negb (accepts r) then
          StmtError (mkExn Psycopg2Error "new row violates a constraint of the table")
        else if conflicts r t then StmtOk db None
        else StmtOk (update_table TABLE (t ++ [r]) db) None
    | None, Some _ =>
        StmtError (mkExn Psycopg2Error "syntax error at or near '%'")
    | _, None =>
        StmtError (mkExn Psycopg2Error "relation 'cryptocurrency_data' does not exist")
    end
  else StmtError (mkExn Psycopg2Error "statement not supported").

(** A platform whose server is [pg_sql]. *)
Definition pg_platform (env : string -> option string)
           (net : string -> list (string * string) -> list (string * pyval) -> net_outcome)
           (accepts : row -> bool) (flt : nat -> option exn) : platform :=
  mkPlatform env net (pg_sql accepts) flt.

(** An environment with every variable the job reads. *)
Definition full_env (k : string) : option string :=
  if String.eqb k "COINMARKETCAP_API_KEY" then Some "key"
  else if String.eqb k "DB_NAME" then Some "crypto"
  else if String.eqb k "DB_USER" then Some "job"
  else if String.eqb k "DB_PASSWORD" then Some "secret"
  else None.

Definition no_fault (n : nat) : option exn := None.

Definition empty_world : world := mkWorld [] [] 0 0 [].

(** A world in which the table has been created and is empty. *)
Definition ready_world : world := mkWorld [(TABLE, [])] [] 0 0 [].

(* ===================================================================== *)
(** ** Reading a listing entry, in the words of the specification         *)
(* ===================================================================== *)

(** The value found in [item] under a path of keys, when every step of
    the path is an object that has the key. *)
Fixpoint field (item : pyval) (path : list string) : option pyval :=
  match path with
  | [] => Some item
  | k :: rest =>
      match item with
      | PyDict d =>
          match assoc k d with
          | Some v => field v rest
          | None => None
          end
      | _ => None
      end
  end.

Definition NAME : list string := ["name"].
Definition SYMBOL : list string := ["symbol"].
Definition CMC_RANK : list string := ["cmc_rank"].
Definition PRICE : list string := ["quote"; "USD"; "price"].
Definition VOLUME_24H : list string := ["quote"; "USD"; "volume_24h"].
Definition MARKET_CAP : list string := ["quote"; "USD"; "market_cap"].
Definition LAST_UPDATED : list string := ["quote"; "USD"; "last_updated"].

(** A field is missing when the entry has no value under its path. *)
Definition missing (item : pyval) (path : list string) : Prop :=
  field item path = None.

(** The value of a field as Python code sees it after [.get]: [None]
    when the entry has nothing under the path. *)
Definition value_of (item : pyval) (path : list string) : pyval :=
  match field item path with
  | Some v => v
  | None => PyNone
  end.

Definition is_dict (v : pyval) : bool :=
  match v with PyDict _ => true | _ => false end.

(** An entry is nested as the API documents it when [quote], where
    present, is an object and so is [quote.USD]. *)
Definition well_nested (item : pyval) : bool :=
  match field item ["quote"] with
  | None => true
  | Some q =>
      is_dict q &&
      match field q ["USD"] with
      | None => true
      | Some u => is_dict u
      end
  end.

(** The name put into the log line of a skipped entry. *)
Definition shown_name (item : pyval) : pyval :=
  match field item NAME with
  | Some v => v
  | None => PyStr "N/A"
  end.

(** The parameter tuple of a listing entry, when the entry yields one. *)
Definition row_of (item : pyval) : option row :=
  if is_dict item && well_nested item &&
     py_all [value_of item NAME; value_of item SYMBOL;
             value_of item PRICE; value_of item LAST_UPDATED]
  then
    match normalize_timestamp (value_of item LAST_UPDATED) with
    | Return ts =>
        Some [value_of item NAME; value_of item SYMBOL; value_of item CMC_RANK;
              value_of item PRICE; value_of item VOLUME_24H;
              value_of item MARKET_CAP; PyStr ts]
    | Raise _ => None
    end
  else None.

(** The rows of the entries that yield one, in the order of the payload. *)
Fixpoint valid_rows (items : list pyval) : list row :=
  match items with
  | [] => []
  | item :: rest =>
      match row_of item with
      | Some r => r :: valid_rows rest
      | None => valid_rows rest
      end
  end.

(** The events a call added to the log, oldest first. *)
Definition events_since (before after : world) : list event :=
  rev (firstn (length (w_log after) - length (w_log before)) (w_log after)).

(** A string in which [c] does not occur. *)
Fixpoint free_of (c : ascii) (s : string) : bool :=
  match s with
  | EmptyString => true
  | String x rest => negb (Ascii.eqb x c) && free_of c rest
  end.

(** The part of a badly nested entry on which [.get] fails. *)
Definition bad_part (item : pyval) : pyval :=
  match field item ["quote"] with
  | Some q => if is_dict q then value_of q ["USD"] else q
  | None => PyNone
  end.

(** The log line of an entry (an object) that yields no row. *)
Definition skip_event (item : pyval) : event :=
  if well_nested item then
    if py_all [value_of item NAME; value_of item SYMBOL;
               value_of item PRICE; value_of item LAST_UPDATED]
    then Log ERROR [Lit "Error processing item: "; Val (shown_name item); Lit " - ";
                    Lit (exn_msg (attr_error (value_of item LAST_UPDATED) "replace"))]
    else Log WARNING [Lit "Skipping incomplete record: "; Val (shown_name item)]
  else Log ERROR [Lit "Error processing item: "; Val (shown_name item); Lit " - ";
                  Lit (exn_msg (attr_error (bad_part item) "get"))].

(** The log lines of the entries that yield no row, oldest first. *)
Fixpoint skip_log (items : list pyval) : list event :=
  match items with
  | [] => []
  | item :: rest =>
      match row_of item with
      | Some _ => skip_log rest
      | None => skip_event item :: skip_log rest
      end
  end.

Definition is_Log (ev : event) : bool :=
  match ev with Log _ _ => true | _ => false end.

(** [wp m s Q]: running [m] from [s] ends in an outcome and a state
    that satisfy [Q]. *)
Definition wp {S A} (m : M S A) (s : S) (Q : outcome A -> S -> Prop) : Prop :=
  Q (fst (m s)) (snd (m s)).

(** From [w] to [w'] the data on the server and the open transactions
    stay as they are and the log grows by [evs] (newest first). *)
Definition evolves (w w' : world) (evs : list event) : Prop :=
  w_db w' = w_db w /\ w_txn w' = w_txn w /\ w_log w' = evs ++ w_log w.

(** Events of opening a pool. *)
Definition is_setup (ev : event) : bool :=
  match ev with PoolCreated _ _ | Print _ => true | _ => false end.

Definition has_pool (m : PostgresManager.t) : bool :=
  match PostgresManager.connection_pool m with Some _ => true | None => false end.

(** The data after running a statement once per parameter tuple, when
    every run succeeds. *)
Fixpoint apply_all (f : option row -> dbstate -> stmt_result) (ps : list row)
         (d : dbstate) : option dbstate :=
  match ps with
  | [] => Some d
  | p :: rest =>
      match f (Some p) d with
      | StmtOk d' _ => apply_all f rest d'
      | StmtError _ => None
      end
  end.

(** The event of a statement that ran without error. *)
Definition ran (c : nat) (q : string) (p : row) : event :=
  Executed c q (Some p) None.

(** How the two executing methods pass on an exception [e] of the
    driver: a [psycopg2.Error] becomes a [DatabaseError]. *)
Definition raised_as (label : string) (e : exn) : exn :=
  if is_psycopg2_error e then mkExn DatabaseError (label ++ exn_msg e)%string else e.

(** The rollback the handler of the two methods performs, newest first. *)
Definition rollback_events (c : nat) (e : exn) : list event :=
  if is_psycopg2_error e then [Rollback c] else [].

(** The events a call has added to the log of [w], oldest first. *)
Definition added (w w' : world) (evs : list event) : Prop :=
  w_log w' = rev evs ++ w_log w.

(** What [get_connection] leaves in the log when it raises: nothing, or
    the [Getconn] of a connection that was handed out. *)
Inductive leak : list event -> Prop :=
| no_leak : leak []
| leaked (c : nat) : leak [Getconn c].

(** The ways a call [execute_batch(q, ps)] can go, from the world [w]
    before it to the world [w'] after it. *)
Inductive batch_run (P : platform) (q : string) (ps : list row) (w w' : world)
  : outcome unit -> Prop :=
| BatchUnconnected e pre lk :
    is_psycopg2_error e = false ->
    forallb is_setup pre = true -> leak lk ->
    w_db w' = w_db w -> w_txn w' = w_txn w ->
    added w w' (BatchCall q ps :: pre ++ lk) ->
    batch_run P q ps w w' (Raise e)
| BatchAborted c pre done failing e :
    forallb is_setup pre = true ->
    ((exists p rest, ps = done ++ p :: rest /\
                     failing = Executed c q (Some p) (Some e)) \/
     (done = ps /\ failing = Commit c (Some e))) ->
    w_db w' = w_db w -> w_txn w' = drop_txn c (w_txn w) ->
    added w w' (BatchCall q ps :: pre ++ [Getconn c; CursorOpened c]
                  ++ map (ran c q) done ++ [failing]
                  ++ rollback_events c e ++ [Putconn c]) ->
    batch_run P q ps w w' (Raise (raised_as "Batch execution failed: " e))
| BatchCommitted c pre :
    forallb is_setup pre = true ->
    apply_all (sql P q) ps (view c w) = Some (w_db w') ->
    w_txn w' = drop_txn c (w_txn w) ->
    added w w' (BatchCall q ps :: pre ++ [Getconn c; CursorOpened c]
                  ++ map (ran c q) ps ++ [Commit c None; Putconn c]) ->
    batch_run P q ps w w' (Return tt)
| BatchRollbackFailed c pre done failing e n e' :
    (* the handler's [connection.rollback()] raised [e'] *)
    forallb is_setup pre = true ->
    is_psycopg2_error e = true -> fault P n = Some e' ->
    ((exists p rest, ps = done ++ p :: rest /\
                     failing = Executed c q (Some p) (Some e)) \/
     (done = ps /\ failing = Commit c (Some e))) ->
    w_db w' = w_db w -> w_txn w' = drop_txn c (w_txn w) ->
    added w w' (BatchCall q ps :: pre ++ [Getconn c; CursorOpened c]
                  ++ map (ran c q) done ++ [failing] ++ [Putconn c]) ->
    batch_run P q ps w w' (Raise e').

(** What the fetch flags make of the result set of a SELECT; [None]
    when the statement left no result set to fetch from. *)
Definition fetched (fetchone fetchall : bool) (rows : option (list row))
  : option PostgresManager.qresult :=
  if fetchone then
    match rows with
    | Some rs => Some (match hd_error rs with
                       | Some x => PostgresManager.QRow x
                       | None => PostgresManager.QNone
                       end)
    | None => None
    end
  else if fetchall then
    match rows with
    | Some rs => Some (PostgresManager.QRows rs)
    | None => None
    end
  else Some PostgresManager.QNone.

(** The calls on the connection up to the one that raised [e] in
    [execute_query]: the statement, a fetch after it, or the commit. *)
Inductive query_steps (c : nat) (q : string) (params : option row) (e : exn)
  : bool -> list event -> Prop :=
| failed_execute b : query_steps c q params e b [Executed c q params (Some e)]
| failed_fetch : query_steps c q params e true [Executed c q params None]
| failed_commit b :
    query_steps c q params e b [Executed c q params None; Commit c (Some e)].

(** The ways a call [execute_query(q, params, fetchone, fetchall)] can go. *)
Inductive query_run (P : platform) (q : string) (params : option row)
          (fetchone fetchall : bool) (w w' : world)
  : outcome PostgresManager.qresult -> Prop :=
| QueryUnconnected e pre lk :
    is_psycopg2_error e = false ->
    forallb is_setup pre = true -> leak lk ->
    w_db w' = w_db w -> w_txn w' = w_txn w ->
    added w w' (QueryCall q params :: pre ++ lk) ->
    query_run P q params fetchone fetchall w w' (Raise e)
| QueryAborted c pre steps e :
    forallb is_setup pre = true ->
    query_steps c q params e (PostgresManager.is_select q) steps ->
    w_db w' = w_db w -> w_txn w' = drop_txn c (w_txn w) ->
    added w w' (QueryCall q params :: pre ++ [Getconn c; CursorOpened c]
                  ++ steps ++ rollback_events c e ++ [Putconn c]) ->
    query_run P q params fetchone fetchall w w'
              (Raise (raised_as "Query execution failed: " e))
| QueryCommitted c pre d rows r :
    forallb is_setup pre = true ->
    sql P q params (view c w) = StmtOk d rows ->
    w_db w' = d -> w_txn w' = drop_txn c (w_txn w) ->
    (if PostgresManager.is_select q
     then fetched fetchone fetchall rows = Some r
     else r = PostgresManager.QNone) ->
    added w w' (QueryCall q params :: pre
                  ++ [Getconn c; CursorOpened c; Executed c q params None;
                      Commit c None; Putconn c]) ->
    query_run P q params fetchone fetchall w w' (Return r)
| QueryRollbackFailed c pre steps e n e' :
    (* the handler's [connection.rollback()] raised [e'] *)
    forallb is_setup pre = true ->
    is_psycopg2_error e = true -> fault P n = Some e' ->
    query_steps c q params e (PostgresManager.is_select q) steps ->
    w_db w' = w_db w -> w_txn w' = drop_txn c (w_txn w) ->
    added w w' (QueryCall q params :: pre ++ [Getconn c; CursorOpened c]
                  ++ steps ++ [Putconn c]) ->
    query_run P q params fetchone fetchall w w' (Raise e').

Definition is_Getconn (c : nat) (ev : event) : bool :=
  match ev with Getconn c' => Nat.eqb c c' | _ => false end.

Definition is_Putconn (c : nat) (ev : event) : bool :=
  match ev with Putconn c' => Nat.eqb c c' | _ => false end.

Definition is_CursorOpened (c : nat) (ev : event) : bool :=
  match ev with CursorOpened c' => Nat.eqb c c' | _ => false end.

(** How often connection [c] is taken out of a pool, how often a cursor
    is opened on it, how often it is put back. *)
Definition count (f : event -> bool) (evs : list event) : nat :=
  length (filter f evs).

Definition taken (c : nat) (evs : list event) : nat := count (is_Getconn c) evs.

Definition opened (c : nat) (evs : list event) : nat := count (is_CursorOpened c) evs.

Definition released (c : nat) (evs : list event) : nat := count (is_Putconn c) evs.

Definition is_Commit (ev : event) : bool :=
  match ev with Commit _ _ => true | _ => false end.

(** What [close_pool] leaves in the log: nothing when the manager has
    no pool, the two lines of closing it otherwise. *)
Inductive closing : list event -> Prop :=
| not_open : closing []
| closed : closing [PoolClosed; Print [Lit "Connection pool closed"]].

(** [api_response.get("data", [])], ready to be iterated. *)
Definition payload_items (api_response : pyval) : outcome (list pyval) :=
  match py_get api_response "data" (PyList []) with
  | Return data => py_iter data
  | Raise e => Raise e
  end.

(** The ways a call [insert_crypto_data(api_response)] can go. *)
Inductive ingest_run (P : platform) (api_response : pyval) (w w' : world)
  : outcome nat -> Prop :=
| IngestRejected e logs :
    (* the payload cannot be read, or one of its entries is not an object *)
    forallb is_Log logs = true ->
    w_db w' = w_db w -> w_txn w' = w_txn w ->
    added w w' logs ->
    ingest_run P api_response w w' (Raise e)
| IngestEmpty items logs :
    payload_items api_response = Return items ->
    valid_rows items = [] ->
    forallb is_Log logs = true ->
    w_db w' = w_db w -> w_txn w' = w_txn w ->
    added w w' logs ->
    ingest_run P api_response w w' (Return 0)
| IngestUnopened items e logs :
    (* the manager cannot be built or entered *)
    payload_items api_response = Return items ->
    valid_rows items <> [] ->
    forallb is_Log logs = true ->
    w_db w' = w_db w -> w_txn w' = w_txn w ->
    added w w' logs ->
    ingest_run P api_response w w' (Raise e)
| IngestBatch items w1 w2 ob logs pre cl tail cs o :
    payload_items api_response = Return items ->
    valid_rows items <> [] ->
    forallb is_Log logs = true -> forallb is_setup pre = true ->
    w_db w1 = w_db w -> w_txn w1 = w_txn w ->
    added w w1 (logs ++ pre) ->
    batch_run P insert_query (valid_rows items) w1 w2 ob ->
    closing cl -> forallb is_Log tail = true ->
    w_db w' = w_db w2 -> w_txn w' = fold_right drop_txn (w_txn w2) cs ->
    added w2 w' (cl ++ tail) ->
    o = match ob with
        | Return _ => Return (length (valid_rows items))
        | Raise e => Raise e
        end ->
    ingest_run P api_response w w' o.

(** What skipping an entry means: the turn of the loop returns, the
    batch is as it was, one line is logged, and the loop goes on with
    the entries that follow. *)
Definition skipped (item : pyval) (rows : list row) (w : world) : Prop :=
  exists lvl msg,
    lvl = (if well_nested item then WARNING else ERROR) /\
    process_item item (rows, w)
    = (Return tt, (rows, set_log (Log lvl msg :: w_log w) w)) /\
    forall rest,
      for_each (item :: rest) process_item (rows, w)
      = for_each rest process_item (rows, set_log (Log lvl msg :: w_log w) w).

Definition bitcoin_null_quote : pyval :=
  PyDict [("name", PyStr "Bitcoin"); ("symbol", PyStr "BTC"); ("quote", PyNone)].

(** Two sample entries: one whose price is the integer 0, one that has
    only the four required fields. *)
Definition zero_price_fields : list (string * pyval) :=
  [("name", PyStr "Bitcoin"); ("symbol", PyStr "BTC");
   ("quote", PyDict [("USD", PyDict [("price", PyInt 0);
                                     ("last_updated", PyStr "2024-01-15T10:30:00.000Z")])])].

Definition zero_price_entry : pyval := PyDict zero_price_fields.

Definition bare_fields : list (string * pyval) :=
  [("name", PyStr "Bitcoin"); ("symbol", PyStr "BTC");
   ("quote", PyDict [("USD", PyDict [("price", PyFloat 42000 1);
                                     ("last_updated", PyStr "2024-01-15T10:30:00.000Z")])])].

Definition bare_entry : pyval := PyDict bare_fields.

(** A failure of the HTTP request at the level of transport, with the
    text of its exception: the request timed out, the host could not be
    resolved or reached, another [RequestException] was raised, or the
    response came back with a status on which [raise_for_status] raises. *)
Inductive transport_failure : net_outcome -> string -> Prop :=
| timed_out msg : transport_failure (NetRaises (mkExn Timeout msg)) msg
| unreachable msg :
    transport_failure (NetRaises (mkExn RequestsConnectionError msg)) msg
| request_failed msg :
    transport_failure (NetRaises (mkExn RequestException msg)) msg
| status_raised r :
    (400 <= status_code r < 600)%Z -> transport_failure (NetResponse r) (reason r).

Definition listings_url : string :=
  "https://pro-api.coinmarketcap.com/v1/cryptocurrency/listings/latest".

Definition listings_params (start limit : Z) (convert : string)
  : list (string * pyval) :=
  [("start", PyInt start); ("limit", PyInt limit); ("convert", PyStr convert)].

(** A network on which every request times out. *)
Definition dead_net : string -> list (string * string) -> list (string * pyval)
                      -> net_outcome :=
  fun _ _ _ => NetRaises (mkExn Timeout "Read timed out.").

(** A manager as [PostgresManager()] builds it under [full_env], before
    its pool is opened, and the state of a method called on it in a
    world where the table exists. *)
Definition fresh_manager : PostgresManager.t :=
  PostgresManager.mk (Some "localhost") (Some "5432") (Some "crypto") (Some "job")
                     (Some "secret") None 1 10.

Definition fresh_state : PostgresManager.mstate :=
  PostgresManager.mkState fresh_manager ready_world.

(** A server that answers every statement with the one row [(1,)]. *)
Definition one_row_sql (q : string) (p : option row) (db : dbstate) : stmt_result :=
  StmtOk db (Some [[PyInt 1]]).

Definition one_row_platform : platform :=
  mkPlatform full_env dead_net one_row_sql no_fault.

Definition returning_query : string :=
  "INSERT INTO cryptocurrency_data (name) VALUES (%s) RETURNING id".

Definition cte_query : string :=
  "WITH recent AS (SELECT 1) SELECT * FROM recent".

(** Ten parameter tuples, and a table that refuses the fifth of them
    for a reason that has nothing to do with the unique key. *)
Definition sample_row (name : string) : row :=
  [PyStr name; PyStr "SYM"; PyInt 1; PyFloat 1 1; PyNone; PyNone;
   PyStr "2024-01-15 10:30:00.000"].

Definition ten_rows : list row :=
  map sample_row ["coin1"; "coin2"; "coin3"; "coin4"; "coin5";
                  "coin6"; "coin7"; "coin8"; "coin9"; "coin10"].

Definition refuses_fifth (r : row) : bool :=
  negb (pyval_eqb (col 0 r) (PyStr "coin5")).

Definition strict_platform : platform :=
  pg_platform full_env dead_net refuses_fifth no_fault.

Definition constraint_violation : exn :=
  mkExn Psycopg2Error "new row violates a constraint of the table".

(** A platform on which the second driver call fails: with a manager
    whose pool is not open yet, the first call opens the pool and the
    second one is [connection.cursor()]. *)
Definition closed_connection : exn :=
  mkExn Psycopg2Error "connection already closed".

Definition cursor_fault (n : nat) : option exn :=
  if Nat.eqb n 1 then Some closed_connection else None.

Definition leaky_platform : platform :=
  pg_platform full_env dead_net (fun _ => true) cursor_fault.

(** A parameter tuple that does not fit the statement: the fifth
    [cursor.execute] of a batch raises a TypeError, which is no
    [psycopg2.Error].  On a manager without a pool the first driver call
    opens the pool, the second opens the cursor, and the statements
    follow. *)
Definition bad_params : exn :=
  mkExn TypeError "not all arguments converted during string formatting".

Definition bad_params_fault (n : nat) : option exn :=
  if Nat.eqb n 6 then Some bad_params else None.

Definition bad_params_platform : platform :=
  pg_platform full_env dead_net (fun _ => true) bad_params_fault.

(** A connection that is lost during the fifth statement of a batch:
    the statement raises a [psycopg2.Error], and so does the rollback
    that the handler attempts on the dead connection. *)
Definition connection_lost : exn :=
  mkExn Psycopg2Error "server closed the connection unexpectedly".

Definition lost_fault (n : nat) : option exn :=
  if Nat.eqb n 6 then Some connection_lost
  else if Nat.eqb n 7 then Some closed_connection
  else None.

Definition lost_platform : platform :=
  pg_platform full_env dead_net (fun _ => true) lost_fault.

Definition is_Rollback (ev : event) : bool :=
  match ev with Rollback _ => true | _ => false end.

Definition is_BatchCall (ev : event) : bool :=
  match ev with BatchCall _ _ => true | _ => false end.

(** The calls of [execute_batch] among the events of a run. *)
Definition batch_calls (evs : list event) : list event := filter is_BatchCall evs.

(** A payload with no entry at all. *)
Definition empty_payload : pyval := PyDict [("data", PyList [])].

Definition plain_platform : platform :=
  pg_platform full_env dead_net (fun _ => true) no_fault.

(** A payload with one complete entry. *)
Definition one_entry_payload : pyval := PyDict [("data", PyList [bare_entry])].



(** The three steps of the job, as they show in the log: the
    table-ensure statement, the network fetch, the insert. *)
Definition is_table_ensure (ev : event) : bool :=
  match ev with
  | QueryCall q _ => String.eqb q create_table_query
  | Executed _ q _ _ => String.eqb q create_table_query
  | _ => false
  end.

Definition is_fetch (ev : event) : bool :=
  match ev with HttpGet _ _ => true | _ => false end.

Definition is_insert (ev : event) : bool :=
  match ev with
  | BatchCall _ _ => true
  | Executed _ q _ _ => String.eqb q insert_query
  | _ => false
  end.

(** An event that may come before the fetch: not the fetch, not part of
    the insert.  An event that may come after it: not the fetch, not
    part of the table-ensure. *)
Definition before_fetch (ev : event) : bool :=
  negb (is_fetch ev) && negb (is_insert ev).

Definition after_fetch (ev : event) : bool :=
  negb (is_fetch ev) && negb (is_table_ensure ev).

(** An event of none of the three steps. *)
Definition is_neutral (ev : event) : bool :=
  match ev with
  | Log _ _ | Print _ | PoolCreated _ _ | PoolClosed => true
  | _ => false
  end.

Definition the_fetch : event := HttpGet listings_url (listings_params 1 200 "USD").

(** The order of the steps in the events of one job run: a first part
    without fetch and insert, then the fetch if the run gets to it, then
    a part without table-ensure and fetch.  The fetch comes only after
    the table-ensure statement has run and has been committed, and
    [execute_batch] is called only after the fetch. *)
Definition steps_in_order (evs : list event) : Prop :=
  exists s1 s2 s3,
    evs = s1 ++ s2 ++ s3 /\
    forallb before_fetch s1 = true /\
    (s2 = [] \/ s2 = [the_fetch]) /\
    forallb after_fetch s3 = true /\
    (s2 <> [] -> exists c, In (Executed c create_table_query None None) s1 /\
                           In (Commit c None) s1) /\
    (forall q ps, In (BatchCall q ps) s3 -> s2 <> []).

(** A network that answers with [one_entry_payload]. *)
Definition live_net : string -> list (string * string) -> list (string * pyval)
                      -> net_outcome :=
  fun _ _ _ => NetResponse (mkResponse 200 "OK" (Return one_entry_payload)).

Definition live_platform : platform :=
  pg_platform full_env live_net (fun _ => true) no_fault.

(* ===================================================================== *)
(** ** Further sample data                                                *)
(* ===================================================================== *)

(** A platform on which the first driver call, the opening of the pool,
    fails with a [psycopg2.Error]. *)
Definition server_down : exn := mkExn Psycopg2Error "could not connect to server".

Definition connect_fault (n : nat) : option exn :=
  if Nat.eqb n 0 then Some server_down else None.

Definition down_platform : platform :=
  pg_platform full_env dead_net (fun _ => true) connect_fault.

(** The state of a method called on a fresh manager in a world without
    the table. *)
Definition bare_state : PostgresManager.mstate :=
  PostgresManager.mkState fresh_manager empty_world.

(** A payload of three entries: a complete one, one whose price is 0,
    and one whose timestamp is a number. *)
Definition numeric_timestamp_fields : list (string * pyval) :=
  [("name", PyStr "Ether"); ("symbol", PyStr "ETH");
   ("quote", PyDict [("USD", PyDict [("price", PyFloat 2500 1);
                                     ("last_updated", PyInt 1705314600)])])].

Definition numeric_timestamp_entry : pyval := PyDict numeric_timestamp_fields.

Definition mixed_items : list pyval :=
  [bare_entry; zero_price_entry; numeric_timestamp_entry].

Definition mixed_payload : pyval := PyDict [("data", PyList mixed_items)].


(** The events of opening the pool of a manager that has none yet. *)
Definition pool_opening (m : PostgresManager.t) : list event :=
  if has_pool m then []
  else [PoolCreated (PostgresManager.min_connections m) (PostgresManager.max_connections m);
        Print [Lit "Connection pool initialized with ";
               Count (PostgresManager.min_connections m); Lit "-";
               Count (PostgresManager.max_connections m); Lit " connections"]].

(** A server that answers the listing request with an empty listing. *)
Definition empty_listing : response :=
  mkResponse 200 "OK" (Return (PyDict [("data", PyList [])])).

Definition answering_net (r : response)
  : string -> list (string * string) -> list (string * pyval) -> net_outcome :=
  fun _ _ _ => NetResponse r.

Definition answering_platform (r : response) : platform :=
  pg_platform full_env (answering_net r) (fun _ => true) no_fault.

(** A response whose body is not JSON: [response.json()] raises a
    ValueError. *)
Definition not_json : exn := mkExn ValueError "Expecting value: line 1 column 1 (char 0)".

Definition undecodable : response := mkResponse 200 "OK" (Raise not_json).

(* ===================================================================== *)
(** ** How a job run ends                                                 *)
(* ===================================================================== *)

(** The four lines of the closing summary, in the order they are logged. *)
Definition summary_lines (j : job_status) : list event :=
  [Log INFO [Lit "end banner"];
   Log INFO [Lit "CRYPTOCURRENCY DATA COLLECTION JOB "; Lit (job_status_name j)];
   Log INFO [Lit "Finished at: "];
   Log INFO [Lit "bottom banner"]].

Definition success_result : job_result :=
  mkResult "success" (PyStr "Data collection job completed successfully") 200.

(** The status variable of the job against what its [try] block hands
    on: an early result, falling off the end, or an exception. *)
Definition status_agrees (o : outcome (option job_result)) (j : job_status) : Prop :=
  match o with
  | Return (Some r) => j = FAILED /\ status r = "error" /\ code r = 500%Z
  | Return None => j = SUCCESS
  | Raise _ => j = SUCCESS
  end.

(** The status variable against the outcome of the job. *)
Definition job_ends (o : outcome job_result) (j : job_status) : Prop :=
  match o with
  | Return r => (j = SUCCESS /\ r = success_result) \/
                (j = FAILED /\ status r = "error" /\ code r = 500%Z)
  | Raise e => j = SUCCESS /\ is_Exception e = false
  end.

(** [index()], the handler of GET /: the pair it returns is the job's
    result. *)
Definition index (P : platform) : M world job_result :=
  logger INFO [Lit "Received HTTP request to trigger data collection job."] ;;
  run_data_collection_job P.

(** An environment without the API key. *)
Definition keyless_env (k : string) : option string :=
  if String.eqb k "COINMARKETCAP_API_KEY" then None else full_env k.

Definition keyless_platform : platform :=
  pg_platform keyless_env live_net (fun _ => true) no_fault.

(* ===================================================================== *)
(** ** script.py: the formatter of the log                                *)
(* ===================================================================== *)

Module ColoredFormatter.

(** The escape sequences of colorama that the formatter uses. *)
Definition ESC : string := String (ascii_of_nat 27) EmptyString.
Definition Fore_BLUE : string := (ESC ++ "[34m")%string.
Definition Fore_GREEN : string := (ESC ++ "[32m")%string.
Definition Fore_YELLOW : string := (ESC ++ "[33m")%string.
Definition Fore_RED : string := (ESC ++ "[31m")%string.
Definition Style_BRIGHT : string := (ESC ++ "[1m")%string.
Definition Style_RESET_ALL : string := (ESC ++ "[0m")%string.

Definition COLORS : list (string * string) :=
  [("DEBUG", Fore_BLUE);
   ("INFO", Fore_GREEN);
   ("WARNING", Fore_YELLOW);
   ("ERROR", Fore_RED);
   ("CRITICAL", (Fore_RED ++ Style_BRIGHT)%string)].

(** [COLORS[k]] when [k in COLORS]. *)
Fixpoint color_of (k : string) (colors : list (string * string)) : option string :=
  match colors with
  | [] => None
  | (k', c) :: rest => if String.eqb k k' then Some c else color_of k rest
  end.

(** The two fields of a log record that the formatter reads and
    writes; the message of every record of this program is a string. *)
Record log_record : Type := mkRecord {
  levelname : string;
  msg : string
}.

Section Format.
(** [logging.Formatter.format], the method of the parent class. *)
Variable super_format : log_record -> string.

(** [format(self, record)]: the record is changed in place, so the
    caller's record is the second component. *)
Definition format (record : log_record) : string * log_record :=
  let name := levelname record in
  let record :=
    match color_of name COLORS with
    | Some c =>
        mkRecord (c ++ name ++ Style_RESET_ALL)%string
                 (c ++ msg record ++ Style_RESET_ALL)%string
    | None => record
    end in
  (super_format record, record).

End Format.
End ColoredFormatter.

(** A payload whose second entry is not an object. *)
Definition broken_items : list pyval := [bare_entry; PyInt 7; bare_entry].

Definition broken_payload : pyval := PyDict [("data", PyList broken_items)].

(** A payload whose entries are all incomplete. *)
Definition useless_items : list pyval :=
  [PyDict [("name", PyStr "Bitcoin")]; PyDict []].

Definition useless_payload : pyval := PyDict [("data", PyList useless_items)].

(* ===================================================================== *)
(** ** What a job run keeps                                               *)
(* ===================================================================== *)



(* ===================================================================== *)
(** * Properties                                                          *)
(* ===================================================================== *)

(** ** Strings *)

Lemma append_assoc (a b c : string) :
  ((a ++ b) ++ c = a ++ (b ++ c))%string.
Proof. induction a as [|x a IH]; simpl; [reflexivity|]. now rewrite IH. Qed.

Lemma append_nil_r (a : string) : (a ++ "")%string = a.
Proof. induction a as [|x a IH]; simpl; [reflexivity|]. now rewrite IH. Qed.

Lemma str_replace_app old new a b :
  str_replace old new (a ++ b) = (str_replace old new a ++ str_replace old new b)%string.
Proof.
  induction a as [|c a IH]; simpl; [reflexivity|].
  rewrite IH. destruct (Ascii.eqb c old); simpl; [|reflexivity].
  now rewrite append_assoc.
Qed.

Lemma str_replace_free old new s :
  free_of old s = true -> str_replace old new s = s.
Proof.
  induction s as [|x s IH]; simpl; [reflexivity|].
  intros H. apply andb_prop in H as [Hx Hs].
  destruct (Ascii.eqb x old); [discriminate|]. now rewrite IH.
Qed.

Lemma normalize_iso8601 date time :
  free_of "T" date = true -> free_of "Z" date = true ->
  free_of "T" time = true -> free_of "Z" time = true ->
  normalize_timestamp (PyStr (date ++ "T" ++ time ++ "Z"))
  = Return (date ++ " " ++ time)%string.
Proof.
  intros HTd HZd HTt HZt. unfold normalize_timestamp, py_replace.
  f_equal.
  rewrite (str_replace_app "T" " " date).
  rewrite (str_replace_free "T" " " date HTd).
  change (str_replace "T" " " ("T" ++ time ++ "Z"))
    with (" " ++ str_replace "T" " " (time ++ "Z"))%string.
  rewrite (str_replace_app "T" " " time).
  rewrite (str_replace_free "T" " " time HTt).
  change (str_replace "T" " " "Z") with "Z".
  rewrite (str_replace_app "Z" "" date).
  rewrite (str_replace_free "Z" "" date HZd).
  change (str_replace "Z" "" (" " ++ time ++ "Z"))
    with (" " ++ str_replace "Z" "" (time ++ "Z"))%string.
  rewrite (str_replace_app "Z" "" time).
  rewrite (str_replace_free "Z" "" time HZt).
  simpl. now rewrite append_nil_r.
Qed.

(** ** One entry of the payload *)

Lemma normalize_timestamp_str s :
  normalize_timestamp (PyStr s)
  = Return (str_replace "Z" "" (str_replace "T" " " s)).
Proof. reflexivity. Qed.

Lemma normalize_timestamp_not_str v :
  (forall s, v <> PyStr s) ->
  normalize_timestamp v = Raise (attr_error v "replace").
Proof. intros H. destruct v; try reflexivity. now destruct (H s). Qed.

Lemma attr_error_is_Exception v a : is_Exception (attr_error v a) = true.
Proof. reflexivity. Qed.


Lemma option_eta {A} (o : option A) :
  match o with Some v => Some v | None => None end = o.
Proof. now destruct o. Qed.

Lemma process_item_dict d rows w :
  process_item (PyDict d) (rows, w) =
  match row_of (PyDict d) with
  | Some r => (Return tt, (rows ++ [r], w))
  | None => (Return tt, (rows, set_log (skip_event (PyDict d) :: w_log w) w))
  end.
Proof.
  unfold process_item, row_of, skip_event, well_nested, bad_part, shown_name,
    value_of, try_except, bind, lift, outer, zoom, logger, emit, append_row.
  cbn [field py_get is_dict andb NAME SYMBOL CMC_RANK PRICE VOLUME_24H MARKET_CAP
       LAST_UPDATED fst snd].
  rewrite !option_eta.
  set (name := match assoc "name" d with Some x => x | None => PyNone end).
  set (symbol := match assoc "symbol" d with Some x => x | None => PyNone end).
  set (rank := match assoc "cmc_rank" d with Some x => x | None => PyNone end).
  set (shown := match assoc "name" d with Some x => x | None => PyStr "N/A" end).
  destruct (assoc "quote" d) as [q|]; [destruct q|];
    cbn [py_get is_dict andb assoc field]; rewrite ?option_eta;
      try reflexivity.
  - rename d0 into dq.
    destruct (assoc "USD" dq) as [u|]; [destruct u|];
      cbn [py_get is_dict andb assoc field]; rewrite ?option_eta;
        try reflexivity.
    + rename d0 into du.
      set (price := match assoc "price" du with Some x => x | None => PyNone end).
      set (lu := match assoc "last_updated" du with Some x => x | None => PyNone end).
      destruct (py_all [name; symbol; price; lu]); [|reflexivity].
      destruct lu; reflexivity.
    + replace (py_all [name; symbol; PyNone; PyNone]) with false; [reflexivity|].
      cbn. now rewrite !andb_false_r.
  - replace (py_all [name; symbol; PyNone; PyNone]) with false; [reflexivity|].
    cbn. now rewrite !andb_false_r.
Qed.

Lemma process_item_not_dict item rows w :
  is_dict item = false ->
  process_item item (rows, w) = (Raise (attr_error item "get"), (rows, w)).
Proof. destruct item; try discriminate; reflexivity. Qed.

Lemma set_log_set_log l l' w : set_log l (set_log l' w) = set_log l w.
Proof. reflexivity. Qed.

Lemma set_log_id w : set_log (w_log w) w = w.
Proof. now destruct w. Qed.

(** The loop over a payload whose entries are all objects never raises:
    it collects the rows of the valid entries and logs the others. *)
Lemma for_each_process_item items : forall rows w,
  forallb is_dict items = true ->
  for_each items process_item (rows, w)
  = (Return tt, (rows ++ valid_rows items,
                 set_log (rev (skip_log items) ++ w_log w) w)).
Proof.
  induction items as [|item items IH]; intros rows w Hd.
  - cbn. now rewrite app_nil_r, set_log_id.
  - cbn in Hd. apply andb_prop in Hd as [Hi Hd].
    destruct item; try discriminate.
    cbn [for_each]. unfold bind at 1. rewrite process_item_dict.
    cbn [valid_rows skip_log].
    destruct (row_of (PyDict d)) as [r|].
    + rewrite IH by assumption. now rewrite <- app_assoc.
    + rewrite IH by assumption. cbn [rev w_log set_log].
      now rewrite <- app_assoc.
Qed.

Lemma skip_event_is_Log item : is_Log (skip_event item) = true.
Proof.
  unfold skip_event.
  destruct (well_nested item); [destruct (py_all _)|]; reflexivity.
Qed.

(** Whatever the payload holds, the loop only appends rows and log lines;
    the rows it has when it ends normally are the valid ones. *)
Lemma for_each_process_item_any items : forall rows w o rows' w',
  for_each items process_item (rows, w) = (o, (rows', w')) ->
  exists evs, w' = set_log (evs ++ w_log w) w /\ forallb is_Log evs = true /\
              (o = Return tt -> rows' = rows ++ valid_rows items).
Proof.
  induction items as [|item items IH]; intros rows w o rows' w' H.
  - cbn in H. inversion H; subst. exists []. cbn. rewrite set_log_id, app_nil_r.
    auto.
  - cbn [for_each] in H. unfold bind at 1 in H.
    destruct (is_dict item) eqn:Hi.
    + destruct item; try discriminate. rewrite process_item_dict in H.
      cbn [valid_rows].
      destruct (row_of (PyDict d)) as [r|].
      * apply IH in H as (evs & -> & He & Hr). exists evs. repeat split; auto.
        intros Ho. rewrite (Hr Ho). now rewrite <- app_assoc.
      * apply IH in H as (evs & -> & He & Hr).
        exists (evs ++ [skip_event (PyDict d)]). cbn [w_log set_log].
        rewrite <- app_assoc. repeat split; auto.
        rewrite forallb_app, He. cbn. now rewrite skip_event_is_Log.
    + rewrite process_item_not_dict in H by assumption.
      inversion H; subst. exists []. cbn. rewrite set_log_id.
      repeat split; auto. discriminate.
Qed.

(** ** Stepping through a routine *)

Lemma wp_run {S A} (m : M S A) s Q o s' :
  wp m s Q -> m s = (o, s') -> Q o s'.
Proof. unfold wp. intros H E. now rewrite E in H. Qed.

Lemma wp_intro {S A} (m : M S A) s (Q : outcome A -> S -> Prop) :
  (forall o s', m s = (o, s') -> Q o s') -> wp m s Q.
Proof. unfold wp. intros H. apply H. now destruct (m s). Qed.

Lemma wp_weaken {S A} (m : M S A) s (Q Q' : outcome A -> S -> Prop) :
  wp m s Q -> (forall o s', Q o s' -> Q' o s') -> wp m s Q'.
Proof. unfold wp. auto. Qed.

Lemma wp_ret {S A} (a : A) (s : S) Q : Q (Return a) s -> wp (ret a) s Q.
Proof. auto. Qed.

Lemma wp_raise {S A} e (s : S) (Q : outcome A -> S -> Prop) :
  Q (Raise e) s -> wp (raise e) s Q.
Proof. auto. Qed.

Lemma wp_lift {S A} (o : outcome A) (s : S) Q : Q o s -> wp (lift o) s Q.
Proof. auto. Qed.

Lemma wp_bind {S A B} (m : M S A) (k : A -> M S B) s Q :
  wp m s (fun (o : outcome A) s' => match o with
                      | Return a => wp (k a) s' Q
                      | Raise e => Q (Raise e) s'
                      end) ->
  wp (bind m k) s Q.
Proof. unfold wp, bind. destruct (m s) as [[a|e] s']; auto. Qed.

Lemma wp_try_except {S A} (body : M S A) (catches : exn -> bool)
      (handler : exn -> M S A) s Q :
  wp body s (fun (o : outcome A) s' => match o with
                         | Return a => Q (Return a) s'
                         | Raise e => if catches e then wp (handler e) s' Q
                                      else Q (Raise e) s'
                         end) ->
  wp (try_except body catches handler) s Q.
Proof.
  unfold wp, try_except. destruct (body s) as [[a|e] s']; cbn; auto.
  destruct (catches e); auto.
Qed.

Lemma wp_try_except2 {S A} (body : M S A) (c1 : exn -> bool) (h1 : exn -> M S A)
      (c2 : exn -> bool) (h2 : exn -> M S A) s Q :
  wp body s (fun (o : outcome A) s' => match o with
                         | Return a => Q (Return a) s'
                         | Raise e => if c1 e then wp (h1 e) s' Q
                                      else if c2 e then wp (h2 e) s' Q
                                      else Q (Raise e) s'
                         end) ->
  wp (try_except2 body c1 h1 c2 h2) s Q.
Proof.
  unfold wp, try_except2. destruct (body s) as [[a|e] s']; cbn; auto.
  destruct (c1 e); auto. destruct (c2 e); auto.
Qed.

Lemma wp_try_finally {S A} (body : M S A) (cleanup : M S unit) s Q :
  wp body s (fun o s' =>
    wp cleanup s' (fun (oc : outcome unit) s'' => match oc with
                                 | Return _ => Q o s''
                                 | Raise e => Q (Raise e) s''
                                 end)) ->
  wp (try_finally body cleanup) s Q.
Proof.
  unfold wp, try_finally. destruct (body s) as [o s']. cbn.
  destruct (cleanup s') as [[u|e] s'']; auto.
Qed.

Lemma wp_zoom {S T A} (get : S -> T) set (m : M T A) s Q :
  wp m (get s) (fun o t' => Q o (set t' s)) -> wp (zoom get set m) s Q.
Proof. unfold wp, zoom. destruct (m (get s)); auto. Qed.

Lemma wp_outer {L S A} (m : M S A) (l : L) s Q :
  wp m s (fun o s' => Q o (l, s')) -> wp (outer m) (l, s) Q.
Proof. unfold outer. intros H. apply wp_zoom. exact H. Qed.

Lemma wp_with_locals {L S A} (init : L) (body : M (L * S) A) s Q :
  wp body (init, s) (fun o ls => Q o (snd ls)) -> wp (with_locals init body) s Q.
Proof. unfold wp, with_locals. destruct (body (init, s)) as [o [l s']]. auto. Qed.

Lemma wp_get_local {L S} (l : L) (s : S) Q :
  Q (Return l) (l, s) -> wp get_local (l, s) Q.
Proof. auto. Qed.

Lemma wp_set_local {L S} (l l0 : L) (s : S) Q :
  Q (Return tt) (l, s) -> wp (set_local l) (l0, s) Q.
Proof. auto. Qed.

Lemma wp_when {S} (c : bool) (body : M S unit) s Q :
  (if c then wp body s Q else Q (Return tt) s) -> wp (when c body) s Q.
Proof. destruct c; auto. Qed.

Lemma wp_the_world {A} (m : M world A) s Q :
  wp m (PostgresManager.wd s)
     (fun o w' => Q o (PostgresManager.mkState (PostgresManager.self s) w')) ->
  wp (PostgresManager.the_world m) s Q.
Proof. intros H. apply wp_zoom. exact H. Qed.

Lemma wp_emit ev w Q :
  Q (Return tt) (set_log (ev :: w_log w) w) -> wp (emit ev) w Q.
Proof. auto. Qed.
(** ** The driver, call by call *)

Section DriverFacts.
Variable P : platform.

Ltac prim :=
  unfold wp, Psycopg2.new_pool, Psycopg2.getconn, Psycopg2.open_cursor,
    Psycopg2.execute, Psycopg2.fetchone, Psycopg2.fetchall, Psycopg2.commit,
    Psycopg2.rollback, Psycopg2.putconn, Psycopg2.closeall, Psycopg2.tick,
    Psycopg2.fresh_conn, emit, bind, ret, raise, evolves;
  cbn [fst snd].

Lemma connect_many_spec n : forall w,
  exists cs k, Psycopg2.connect_many n w = (Return cs, set_next k w).
Proof.
  induction n as [|n IH]; intros w; cbn.
  - exists [], (w_next w). now destruct w.
  - unfold bind, Psycopg2.fresh_conn.
    destruct (IH (set_next (S (w_next w)) w)) as (cs & k & ->).
    exists (w_next w :: cs), k. reflexivity.
Qed.

Lemma new_pool_spec minc maxc w :
  wp (Psycopg2.new_pool P minc maxc) w
     (fun o w' => match o with
                  | Return _ => evolves w w' [PoolCreated minc maxc]
                  | Raise e => evolves w w' []
                  end).
Proof.
  prim. destruct (fault P (w_clock w)); cbn; auto.
  destruct (connect_many_spec minc (set_clock (S (w_clock w)) w)) as (cs & k & ->).
  cbn. auto.
Qed.

Lemma getconn_spec p w :
  wp (Psycopg2.getconn P p) w
     (fun o w' => match o with
                  | Return cp => evolves w w' [Getconn (fst cp)]
                  | Raise e => evolves w w' []
                  end).
Proof.
  prim. destruct (Psycopg2.idle p); cbn; auto.
  destruct (Nat.leb _ _); cbn; auto.
  destruct (fault P (w_clock w)); cbn; auto.
Qed.

Lemma open_cursor_spec c w :
  wp (Psycopg2.open_cursor P c) w
     (fun o w' => match o with
                  | Return cur => cur = Psycopg2.mkCursor c None /\
                                  evolves w w' [CursorOpened c]
                  | Raise e => evolves w w' []
                  end).
Proof. prim. destruct (fault P (w_clock w)); cbn; auto. Qed.

Lemma execute_spec cur q p w :
  wp (Psycopg2.execute P cur q p) w
     (fun o w' =>
        let c := Psycopg2.cur_conn cur in
        match o with
        | Return cur' =>
            Psycopg2.cur_conn cur' = c /\ w_db w' = w_db w /\
            w_log w' = Executed c q p None :: w_log w /\
            exists d rows, sql P q p (view c w) = StmtOk d rows /\
                           cur' = Psycopg2.mkCursor c rows /\
                           w_txn w' = (c, d) :: drop_txn c (w_txn w)
        | Raise e => evolves w w' [Executed c q p (Some e)]
        end).
Proof.
  prim. destruct (fault P (w_clock w)); cbn; auto.
  unfold view. cbn.
  destruct (sql P q p _) eqn:E; cbn; eauto 10.
Qed.

Lemma fetchone_spec cur w :
  wp (Psycopg2.fetchone P cur) w
     (fun o w' => evolves w w' [] /\
                  match o with
                  | Return r => exists rs, Psycopg2.cur_rows cur = Some rs /\
                                           r = hd_error rs
                  | Raise _ => True
                  end).
Proof.
  prim. destruct (fault P (w_clock w)); cbn; auto.
  destruct (Psycopg2.cur_rows cur); cbn; eauto 10.
Qed.

Lemma fetchall_spec cur w :
  wp (Psycopg2.fetchall P cur) w
     (fun o w' => evolves w w' [] /\
                  match o with
                  | Return r => Psycopg2.cur_rows cur = Some r
                  | Raise _ => True
                  end).
Proof.
  prim. destruct (fault P (w_clock w)); cbn; auto.
  destruct (Psycopg2.cur_rows cur); cbn; eauto 10.
Qed.

Lemma commit_spec c w :
  wp (Psycopg2.commit P c) w
     (fun o w' => match o with
                  | Return _ => w_db w' = view c w /\
                                w_txn w' = drop_txn c (w_txn w) /\
                                w_log w' = Commit c None :: w_log w
                  | Raise e => evolves w w' [Commit c (Some e)]
                  end).
Proof. prim. destruct (fault P (w_clock w)); cbn; auto. Qed.

Lemma rollback_spec c w :
  wp (Psycopg2.rollback P c) w
     (fun o w' => w_db w' = w_db w /\
                  match o with
                  | Return _ => w_txn w' = drop_txn c (w_txn w) /\
                                w_log w' = Rollback c :: w_log w
                  | Raise e => w_txn w' = w_txn w /\ w_log w' = w_log w /\
                               fault P (w_clock w) = Some e
                  end).
Proof. prim. destruct (fault P (w_clock w)); cbn; auto. Qed.

Lemma putconn_spec p c w :
  wp (Psycopg2.putconn p c) w
     (fun o w' => (exists p', o = Return p') /\ w_db w' = w_db w /\
                  w_txn w' = drop_txn c (w_txn w) /\
                  w_log w' = Putconn c :: w_log w).
Proof. prim. destruct (Nat.ltb _ _); cbn; eauto. Qed.

Lemma closeall_spec p w :
  wp (Psycopg2.closeall p) w
     (fun o w' => o = Return tt /\ w_db w' = w_db w /\
                  w_txn w' = fold_right drop_txn (w_txn w)
                                        (Psycopg2.idle p ++ Psycopg2.used p) /\
                  w_log w' = PoolClosed :: w_log w).
Proof. prim. auto. Qed.

End DriverFacts.
(** ** The manager, method by method *)

#[global] Opaque wp.

Section ManagerFacts.
Import PostgresManager.
Variable P : platform.

Lemma wp_get_self s Q : Q (Return (self s)) s -> wp get_self s Q.
Proof. auto. Qed.

Lemma wp_put_self m s Q : Q (Return tt) (mkState m (wd s)) -> wp (put_self m) s Q.
Proof. auto. Qed.

Lemma evolves_refl w : evolves w w [].
Proof. unfold evolves. auto. Qed.

Lemma evolves_trans w1 w2 w3 e1 e2 :
  evolves w1 w2 e1 -> evolves w2 w3 e2 -> evolves w1 w3 (e2 ++ e1).
Proof.
  unfold evolves. intros (D1 & T1 & L1) (D2 & T2 & L2).
  repeat split; try congruence. rewrite L2, L1. now rewrite app_assoc.
Qed.

Lemma initialize_pool_spec s :
  wp (initialize_pool P) s
     (fun o s' =>
        exists pre, evolves (wd s) (wd s') pre /\ forallb is_setup pre = true /\
          match o with
          | Return _ => has_pool (self s') = true
          | Raise e => is_psycopg2_error e = false /\ self s' = self s /\ pre = []
          end).
Proof.
  unfold initialize_pool. apply wp_bind, wp_get_self.
  destruct (connection_pool (self s)) eqn:Hp.
  - apply wp_ret. exists []. repeat split; auto. unfold has_pool. now rewrite Hp.
  - apply wp_try_except, wp_bind, wp_the_world.
    eapply wp_weaken; [apply new_pool_spec|]. cbv beta.
    intros [p|e] w' H.
    + apply wp_bind, wp_put_self, wp_the_world, wp_emit. cbn.
      eexists [_; _]. repeat split; try apply H.
      destruct H as (_ & _ & ->). reflexivity. reflexivity.
    + destruct (is_psycopg2_error e) eqn:He.
      * apply wp_raise. exists []. cbn. auto.
      * exists []. cbn. auto.
Qed.

Lemma release_connection_spec c s :
  wp (release_connection c) s
     (fun o s' =>
        o = Return tt /\ w_db (wd s') = w_db (wd s) /\
        has_pool (self s') = has_pool (self s) /\
        if has_pool (self s)
        then w_txn (wd s') = drop_txn c (w_txn (wd s)) /\
             w_log (wd s') = Putconn c :: w_log (wd s)
        else wd s' = wd s).
Proof.
  unfold release_connection. apply wp_bind, wp_get_self.
  unfold has_pool. destruct (connection_pool (self s)) eqn:Hp.
  - apply wp_bind, wp_the_world. eapply wp_weaken; [apply putconn_spec|].
    cbv beta. intros o w' ((p' & ->) & D & T & L).
    apply wp_put_self. cbn. auto.
  - apply wp_ret. rewrite Hp. auto.
Qed.

(** [get_connection] hands out a connection with a fresh cursor, or
    raises an exception that is not a [psycopg2.Error]; when it raises
    after the pool has handed out a connection, the log ends with the
    [Getconn] of that connection. *)
Lemma get_connection_spec s :
  wp (get_connection P) s
     (fun o s' =>
        w_db (wd s') = w_db (wd s) /\ w_txn (wd s') = w_txn (wd s) /\
        exists pre, forallb is_setup pre = true /\
          match o with
          | Return cc =>
              snd cc = Psycopg2.mkCursor (fst cc) None /\
              has_pool (self s') = true /\
              w_log (wd s') = CursorOpened (fst cc) :: Getconn (fst cc) :: pre ++ w_log (wd s)
          | Raise e =>
              is_psycopg2_error e = false /\
              (w_log (wd s') = pre ++ w_log (wd s) \/
               exists c, w_log (wd s') = Getconn c :: pre ++ w_log (wd s))
          end).
Proof.
  unfold get_connection. apply wp_bind, wp_get_self, wp_bind, wp_when.
  assert (Hstep : forall s1 pre, evolves (wd s) (wd s1) pre ->
            forallb is_setup pre = true -> has_pool (self s1) = true ->
            wp (try_except
       (m <- get_self;;
        match connection_pool m with
        | Some p =>
            cp <- the_world (Psycopg2.getconn P p);;
            put_self (set_connection_pool (Some (snd cp)) m);;
            cursor <- the_world (Psycopg2.open_cursor P (fst cp));;
            ret (fst cp, cursor)
        | None => raise (attr_error PyNone "getconn")
        end) is_psycopg2_error
       (fun e : exn =>
        raise
          {|
            exn_cls := ConnectionError;
            exn_msg := "Failed to get connection from pool: " ++ exn_msg e
          |})) s1 (fun o s' =>
        w_db (wd s') = w_db (wd s) /\ w_txn (wd s') = w_txn (wd s) /\
        exists pre, forallb is_setup pre = true /\
          match o with
          | Return cc =>
              snd cc = Psycopg2.mkCursor (fst cc) None /\
              has_pool (self s') = true /\
              w_log (wd s') = CursorOpened (fst cc) :: Getconn (fst cc) :: pre ++ w_log (wd s)
          | Raise e =>
              is_psycopg2_error e = false /\
              (w_log (wd s') = pre ++ w_log (wd s) \/
               exists c, w_log (wd s') = Getconn c :: pre ++ w_log (wd s))
          end)).
  { intros s1 pre (D & T & L) F Hs1.
    apply wp_try_except, wp_bind, wp_get_self.
    unfold has_pool in Hs1. destruct (connection_pool (self s1)) as [p|]; [|discriminate].
    apply wp_bind, wp_the_world. eapply wp_weaken; [apply getconn_spec|].
    cbv beta. intros [[c p']|e] w2 (D2 & T2 & L2).
    - apply wp_bind, wp_put_self, wp_bind, wp_the_world.
      eapply wp_weaken; [apply open_cursor_spec|]. cbv beta. cbn [wd self fst snd].
      intros [cur|e] w3 H3.
      + destruct H3 as (-> & D3 & T3 & L3). apply wp_ret. cbn.
        repeat split; try congruence. exists pre. repeat split; auto.
        rewrite L3, L2, L. reflexivity.
      + destruct H3 as (D3 & T3 & L3).
        assert (Hlog : w_log w3 = Getconn c :: pre ++ w_log (wd s)).
        { rewrite L3, L2, L. reflexivity. }
        destruct (is_psycopg2_error e) eqn:He.
        * apply wp_raise. cbn. repeat split; try congruence.
          exists pre. repeat split; eauto.
        * cbn. repeat split; try congruence. exists pre. repeat split; eauto.
    - destruct (is_psycopg2_error e) eqn:He.
      + apply wp_raise. cbn. repeat split; try congruence.
        exists pre. repeat split; auto. left. rewrite L2, L. reflexivity.
      + cbn. repeat split; try congruence.
        exists pre. repeat split; auto. left. rewrite L2, L. reflexivity. }
  destruct (connection_pool (self s)) eqn:Hp; cbv beta iota.
  - apply (Hstep s []); auto using evolves_refl.
    unfold has_pool. now rewrite Hp.
  - eapply wp_weaken; [apply initialize_pool_spec|]. cbv beta.
    intros [u|e] s1 (pre & E & F & H).
    + now apply (Hstep s1 pre).
    + destruct E as (D & T & L). destruct H as [He _].
      repeat split; auto. exists pre. auto.
Qed.

End ManagerFacts.
Section BatchFacts.
Import PostgresManager.
Variable P : platform.

Lemma lookup_drop_txn c t : lookup_txn c (drop_txn c t) = None.
Proof.
  induction t as [|[c' d] t IH]; cbn; [reflexivity|].
  destruct (Nat.eqb c c') eqn:E; [assumption|]. cbn. now rewrite E.
Qed.

Lemma drop_txn_idem c t : drop_txn c (drop_txn c t) = drop_txn c t.
Proof.
  induction t as [|[c' d] t IH]; cbn; [reflexivity|].
  destruct (Nat.eqb c c') eqn:E; [assumption|]. cbn. rewrite E. now f_equal.
Qed.

Lemma view_set c d t w' :
  w_txn w' = (c, d) :: t -> view c w' = d.
Proof. unfold view. intros ->. cbn. now rewrite Nat.eqb_refl. Qed.

(** The loop of the batch: every statement before the first failure has
    run on the same connection, in order; nothing is committed. *)
Lemma execute_each_spec q ps : forall cur w,
  wp (execute_each P cur q ps) w
     (fun o w' =>
        let c := Psycopg2.cur_conn cur in
        w_db w' = w_db w /\
        drop_txn c (w_txn w') = drop_txn c (w_txn w) /\
        match o with
        | Return cur' =>
            Psycopg2.cur_conn cur' = c /\
            w_log w' = rev (map (ran c q) ps) ++ w_log w /\
            apply_all (sql P q) ps (view c w) = Some (view c w')
        | Raise e =>
            exists done p rest,
              ps = done ++ p :: rest /\
              w_log w' = Executed c q (Some p) (Some e)
                           :: rev (map (ran c q) done) ++ w_log w
        end).
Proof.
  induction ps as [|p ps IH]; intros cur w; cbn [execute_each].
  - apply wp_ret. cbn. auto.
  - apply wp_bind. eapply wp_weaken; [apply execute_spec|]. cbv beta zeta.
    intros [cur'|e] w1 H.
    + destruct H as (Hc & D & L & d & rows & Hsql & _ & T).
      eapply wp_weaken; [apply IH|]. cbv beta zeta. rewrite Hc.
      intros o w2 (D2 & T2 & H2).
      split; [congruence|]. split.
      { rewrite T2, T. cbn. rewrite Nat.eqb_refl. apply drop_txn_idem. }
      destruct o as [cur2|e].
      * destruct H2 as (Hc2 & L2 & A2). repeat split; auto.
        -- rewrite L2, L. cbn. now rewrite <- app_assoc.
        -- cbn. rewrite Hsql. now rewrite (view_set _ _ _ _ T) in A2.
      * destruct H2 as (done & p' & rest & -> & L2).
        exists (p :: done), p', rest. split; [reflexivity|].
        rewrite L2, L. cbn. now rewrite <- app_assoc.
    + destruct H as (D & T & L). repeat split; auto; try congruence.
      exists [], p, ps. auto.
Qed.
End BatchFacts.

Lemma forallb_rev {A} (f : A -> bool) l : forallb f (rev l) = forallb f l.
Proof.
  induction l as [|x l IH]; cbn; [reflexivity|].
  rewrite forallb_app, IH. cbn. rewrite andb_true_r. apply andb_comm.
Qed.

Lemma rev_rollback_events c e : rev (rollback_events c e) = rollback_events c e.
Proof. unfold rollback_events. now destruct (is_psycopg2_error e). Qed.

Ltac log_eq :=
  unfold added; cbn [rev app];
  repeat progress (rewrite ?rev_app_distr, ?rev_involutive, ?rev_rollback_events,
                     <- ?app_assoc;
                   cbn [rev app]);
  try reflexivity.

Section BatchRun.
Import PostgresManager.
Variable P : platform.

Lemma wp_if_connection (body : nat -> M frame unit) (conn : option nat) s Q :
  match conn with
  | Some c => wp (body c) (conn, s) Q
  | None => Q (Return tt) (conn, s)
  end ->
  wp (if_connection body) (conn, s) Q.
Proof.
  intros H. unfold if_connection. apply wp_bind, wp_get_local.
  destruct conn; [exact H | apply wp_ret, H].
Qed.

Lemma view_same_txn c w w' :
  w_db w' = w_db w -> w_txn w' = w_txn w -> view c w' = view c w.
Proof. unfold view. now intros -> ->. Qed.

(** The [finally] of the two executing methods, once a connection is
    held: the connection goes back to the pool. *)
Lemma wp_release {A} c s (o : outcome A) (Q : outcome A -> frame -> Prop) :
  has_pool (self s) = true ->
  (forall s', w_db (wd s') = w_db (wd s) ->
              w_txn (wd s') = drop_txn c (w_txn (wd s)) ->
              w_log (wd s') = Putconn c :: w_log (wd s) ->
              Q o (Some c, s')) ->
  wp (if_connection (fun c0 => outer (release_connection c0))) (Some c, s)
     (fun oc s'' => match oc with
                    | Return _ => Q o s''
                    | Raise e => Q (Raise e) s''
                    end).
Proof.
  intros Hp HQ. apply wp_if_connection, wp_outer.
  eapply wp_weaken; [apply release_connection_spec|]. cbv beta.
  rewrite Hp. intros o' s' (-> & D & _ & T & L). auto.
Qed.

(** The handler and the [finally] of the two executing methods, once a
    connection is held and the body has raised [e]: the exception is
    passed on, or the rollback is made and a DatabaseError is raised, or
    the rollback itself raises [e']. *)
Lemma wp_abort {A} label c s e (Q : outcome A -> frame -> Prop) :
  has_pool (self s) = true ->
  (forall s', w_db (wd s') = w_db (wd s) ->
              w_txn (wd s') = drop_txn c (w_txn (wd s)) ->
              w_log (wd s') = Putconn c :: rollback_events c e ++ w_log (wd s) ->
              Q (Raise (raised_as label e)) (Some c, s')) ->
  (forall s' n e', is_psycopg2_error e = true -> fault P n = Some e' ->
              w_db (wd s') = w_db (wd s) ->
              w_txn (wd s') = drop_txn c (w_txn (wd s)) ->
              w_log (wd s') = Putconn c :: w_log (wd s) ->
              Q (Raise e') (Some c, s')) ->
  let Qf := fun (o : outcome A) (s' : frame) =>
    wp (if_connection (fun c0 => outer (release_connection c0))) s'
       (fun oc s'' => match oc with
                      | Return _ => Q o s''
                      | Raise e => Q (Raise e) s''
                      end) in
  if is_psycopg2_error e
  then wp (if_connection (fun c0 => outer (the_world (Psycopg2.rollback P c0))) ;;
           raise (mkExn DatabaseError (label ++ exn_msg e)%string)) (Some c, s) Qf
  else Qf (Raise e) (Some c, s).
Proof.
  intros Hp HQ HR Qf. unfold raised_as, rollback_events in HQ.
  destruct (is_psycopg2_error e).
  - apply wp_bind, wp_if_connection, wp_outer, wp_the_world.
    eapply wp_weaken; [apply rollback_spec|]. cbv beta.
    intros [[]|e'] w' (D & H).
    + destruct H as (T & L). apply wp_raise.
      apply wp_release; [exact Hp|]. cbn [wd self].
      intros s' D' T' L'. apply HQ; try congruence.
      * rewrite T', T. apply drop_txn_idem.
      * rewrite L', L. reflexivity.
    + destruct H as (T & L & Hfault).
      apply wp_release; [exact Hp|]. cbn [wd self].
      intros s' D' T' L'. apply (HR s' _ e' eq_refl Hfault); congruence.
  - apply wp_release; [exact Hp|]. intros s' D' T' L'. apply HQ; auto.
Qed.

Lemma execute_batch_run q ps s :
  wp (execute_batch P q ps) s
     (fun o s' => batch_run P q ps (wd s) (wd s') o).
Proof.
  unfold execute_batch.
  apply wp_bind, wp_the_world, wp_emit.
  apply wp_with_locals, wp_try_finally, wp_try_except, wp_bind, wp_outer.
  eapply wp_weaken; [apply get_connection_spec|]. cbv beta. cbn [wd self w_db w_txn w_log set_log].
  set (Q := fun (o : outcome unit) (s'' : frame) =>
              batch_run P q ps (wd s) (wd (snd s'')) o).
  intros [[c cur]|e] s1 (D1 & T1 & pre & F & H1).
  - cbn [fst snd] in *. destruct H1 as (-> & Hpool & L1).
    apply wp_bind, wp_set_local, wp_bind, wp_outer, wp_the_world.
    eapply wp_weaken; [apply execute_each_spec|]. cbv beta zeta.
    cbn [Psycopg2.cur_conn wd self].
    intros [cur'|e] w2 (D2 & T2 & H2).
    + destruct H2 as (_ & L2 & A2).
      apply wp_outer, wp_the_world.
      eapply wp_weaken; [apply commit_spec|]. cbv beta. cbn [wd self].
      intros [[]|e] w3 H3.
      * destruct H3 as (D3 & T3 & L3).
        apply (wp_release c _ (Return tt) Q); [exact Hpool|]. cbn [wd self snd].
        intros s4 D4 T4 L4. unfold Q. cbn [snd].
        eapply BatchCommitted with (c := c) (pre := rev pre).
        -- now rewrite forallb_rev.
        -- rewrite D4, D3. rewrite <- A2. f_equal. symmetry.
           apply view_same_txn; auto.
        -- rewrite T4, T3, drop_txn_idem, T2, T1. reflexivity.
        -- unfold added. rewrite L4, L3, L2, L1. log_eq.
      * destruct H3 as (D3 & T3 & L3).
        apply (wp_abort "Batch execution failed: " c _ e Q); [exact Hpool| |].
        { cbn [wd self snd]. intros s4 D4 T4 L4. unfold Q. cbn [snd].
          eapply BatchAborted with (c := c) (pre := rev pre) (done := ps)
                                   (failing := Commit c (Some e)).
          - now rewrite forallb_rev.
          - right. auto.
          - congruence.
          - rewrite T4, T3, T2, T1. reflexivity.
          - unfold added. rewrite L4, L3, L2, L1. log_eq. }
        { cbn [wd self snd]. intros s4 n e' He' Hn D4 T4 L4. unfold Q. cbn [snd].
          eapply BatchRollbackFailed with (c := c) (pre := rev pre) (done := ps)
                                          (failing := Commit c (Some e)) (e := e) (n := n).
          - now rewrite forallb_rev.
          - exact He'.
          - exact Hn.
          - right. auto.
          - congruence.
          - rewrite T4, T3, T2, T1. reflexivity.
          - unfold added. rewrite L4, L3, L2, L1. log_eq. }
    + destruct H2 as (done & p & rest & -> & L2).
      apply (wp_abort "Batch execution failed: " c _ e Q); [exact Hpool| |].
      { cbn [wd self snd]. intros s4 D4 T4 L4. unfold Q. cbn [snd].
        eapply BatchAborted with (c := c) (pre := rev pre) (done := done)
                                 (failing := Executed c q (Some p) (Some e)).
        - now rewrite forallb_rev.
        - left. eauto.
        - congruence.
        - rewrite T4, T2, T1. reflexivity.
        - unfold added. rewrite L4, L2, L1. log_eq. }
      { cbn [wd self snd]. intros s4 n e' He' Hn D4 T4 L4. unfold Q. cbn [snd].
        eapply BatchRollbackFailed with (c := c) (pre := rev pre) (done := done)
                                        (failing := Executed c q (Some p) (Some e)) (e := e) (n := n).
        - now rewrite forallb_rev.
        - exact He'.
        - exact Hn.
        - left. eauto.
        - congruence.
        - rewrite T4, T2, T1. reflexivity.
        - unfold added. rewrite L4, L2, L1. log_eq. }
  - destruct H1 as (He & Hlog). rewrite He. cbn [snd].
    apply wp_if_connection. unfold Q. cbn [snd].
    destruct Hlog as [L1 | [c L1]].
    + eapply BatchUnconnected with (pre := rev pre) (lk := []); auto.
      * now rewrite forallb_rev.
      * constructor.
      * unfold added. rewrite L1. log_eq.
    + eapply BatchUnconnected with (pre := rev pre) (lk := [Getconn c]); auto.
      * now rewrite forallb_rev.
      * constructor.
      * unfold added. rewrite L1. log_eq.
Qed.

End BatchRun.
Section QueryRun.
Import PostgresManager.
Variable P : platform.

Lemma execute_query_run q params fetchone fetchall s :
  wp (execute_query P q params fetchone fetchall) s
     (fun o s' => query_run P q params fetchone fetchall (wd s) (wd s') o).
Proof.
  unfold execute_query.
  apply wp_bind, wp_the_world, wp_emit.
  apply wp_with_locals, wp_try_finally, wp_try_except, wp_bind, wp_outer.
  eapply wp_weaken; [apply get_connection_spec|]. cbv beta.
  cbn [wd self w_db w_txn w_log set_log].
  set (Q := fun (o : outcome qresult) (s'' : frame) =>
              query_run P q params fetchone fetchall (wd s) (wd (snd s'')) o).
  intros [[c cur]|e] s1 (D1 & T1 & pre & F & H1).
  - cbn [fst snd] in *. destruct H1 as (-> & Hpool & L1).
    apply wp_bind, wp_set_local, wp_bind, wp_outer, wp_the_world.
    eapply wp_weaken; [apply execute_spec|]. cbv beta zeta.
    cbn [Psycopg2.cur_conn wd self].
    intros [cur'|e] w2 H2.
    + destruct H2 as (_ & D2 & L2 & d & rows & Hsql & -> & T2).
      assert (Hview : view c (wd s1) = view c (wd s)) by (apply view_same_txn; auto).
      rewrite Hview in Hsql.
      assert (Hd : view c w2 = d) by (eapply view_set; eauto).
      (* the commit and what follows it, after the fetch if there is one *)
      assert (Hcommit : forall r w2',
        evolves w2 w2' [] ->
        (if is_select q then fetched fetchone fetchall rows = Some r else r = QNone) ->
        wp (outer (the_world (Psycopg2.commit P c)) ;; ret r)
           (Some c, mkState (self s1) w2')
           (fun o s' =>
              match o with
              | Return a =>
                  wp (if_connection (fun c0 => outer (release_connection c0))) s'
                     (fun oc s'' => match oc with
                                    | Return _ => Q (Return a) s''
                                    | Raise e => Q (Raise e) s''
                                    end)
              | Raise e =>
                  if is_psycopg2_error e
                  then wp (if_connection (fun c0 => outer (the_world (Psycopg2.rollback P c0))) ;;
                           raise (mkExn DatabaseError
                                    ("Query execution failed: " ++ exn_msg e)%string)) s'
                          (fun o s' =>
                             wp (if_connection (fun c0 => outer (release_connection c0))) s'
                                (fun oc s'' => match oc with
                                               | Return _ => Q o s''
                                               | Raise e => Q (Raise e) s''
                                               end))
                  else wp (if_connection (fun c0 => outer (release_connection c0))) s'
                          (fun oc s'' => match oc with
                                         | Return _ => Q (Raise e) s''
                                         | Raise e => Q (Raise e) s''
                                         end)
              end)).
      { intros r w2' (D2' & T2' & L2') Hr.
        apply wp_bind, wp_outer, wp_the_world.
        eapply wp_weaken; [apply commit_spec|]. cbv beta. cbn [wd self].
        intros [[]|e] w3 H3.
        - destruct H3 as (D3 & T3 & L3). apply wp_ret.
          apply (wp_release c _ (Return r) Q); [exact Hpool|]. cbn [wd self].
          intros s4 D4 T4 L4. unfold Q. cbn [snd].
          eapply QueryCommitted with (c := c) (pre := rev pre) (d := d) (rows := rows);
            auto.
          + now rewrite forallb_rev.
          + rewrite D4, D3. rewrite <- Hd. apply view_same_txn; auto.
          + rewrite T4, T3, drop_txn_idem, T2', T2. cbn. rewrite Nat.eqb_refl.
            rewrite drop_txn_idem. now rewrite T1.
          + unfold added. rewrite L4, L3, L2', L2, L1. log_eq.
        - destruct H3 as (D3 & T3 & L3).
          apply (wp_abort P "Query execution failed: " c _ e Q); [exact Hpool| |].
          + cbn [wd self]. intros s4 D4 T4 L4. unfold Q. cbn [snd].
            eapply QueryAborted with (c := c) (pre := rev pre).
            * now rewrite forallb_rev.
            * apply failed_commit.
            * congruence.
            * rewrite T4, T3, T2', T2. cbn. rewrite Nat.eqb_refl.
              rewrite drop_txn_idem. now rewrite T1.
            * unfold added. rewrite L4, L3, L2', L2, L1. log_eq.
          + cbn [wd self]. intros s4 n e' He' Hn D4 T4 L4. unfold Q. cbn [snd].
            eapply QueryRollbackFailed with (c := c) (pre := rev pre) (e := e) (n := n).
            * now rewrite forallb_rev.
            * exact He'.
            * exact Hn.
            * apply failed_commit.
            * congruence.
            * rewrite T4, T3, T2', T2. cbn. rewrite Nat.eqb_refl.
              rewrite drop_txn_idem. now rewrite T1.
            * unfold added. rewrite L4, L3, L2', L2, L1. log_eq. }
      assert (Hfetch : forall e w2', evolves w2 w2' [] -> is_select q = true ->
         if is_psycopg2_error e
         then wp (if_connection (fun c0 => outer (the_world (Psycopg2.rollback P c0))) ;;
                  raise (mkExn DatabaseError
                           ("Query execution failed: " ++ exn_msg e)%string))
                 (Some c, mkState (self s1) w2')
                 (fun o s' =>
                    wp (if_connection (fun c0 => outer (release_connection c0))) s'
                       (fun oc s'' => match oc with
                                      | Return _ => Q o s''
                                      | Raise e => Q (Raise e) s''
                                      end))
         else wp (if_connection (fun c0 => outer (release_connection c0)))
                 (Some c, mkState (self s1) w2')
                 (fun oc s'' => match oc with
                                | Return _ => Q (Raise e) s''
                                | Raise e => Q (Raise e) s''
                                end)).
      { intros e w2' (D2' & T2' & L2') Hsel.
        apply (wp_abort P "Query execution failed: " c _ e Q); [exact Hpool| |].
        + cbn [wd self]. intros s4 D4 T4 L4. unfold Q. cbn [snd].
          eapply QueryAborted with (c := c) (pre := rev pre).
          * now rewrite forallb_rev.
          * rewrite Hsel. apply failed_fetch.
          * congruence.
          * rewrite T4, T2', T2. cbn. rewrite Nat.eqb_refl.
            rewrite drop_txn_idem. now rewrite T1.
          * unfold added. rewrite L4, L2', L2, L1. log_eq.
        + cbn [wd self]. intros s4 n e' He' Hn D4 T4 L4. unfold Q. cbn [snd].
          eapply QueryRollbackFailed with (c := c) (pre := rev pre) (e := e) (n := n).
          * now rewrite forallb_rev.
          * exact He'.
          * exact Hn.
          * rewrite Hsel. apply failed_fetch.
          * congruence.
          * rewrite T4, T2', T2. cbn. rewrite Nat.eqb_refl.
            rewrite drop_txn_idem. now rewrite T1.
          * unfold added. rewrite L4, L2', L2, L1. log_eq. }
      destruct (is_select q) eqn:Hsel.
      * apply wp_bind. unfold fetched in Hcommit.
        destruct fetchone.
        -- apply wp_bind, wp_outer, wp_the_world.
           eapply wp_weaken; [apply fetchone_spec|]. cbv beta. cbn [wd self].
           intros [r|e] w2' (E & Hr).
           ++ apply wp_ret. apply Hcommit; auto.
              destruct Hr as (rs & Hrows & ->). cbn in Hrows. now rewrite Hrows.
           ++ now apply Hfetch.
        -- destruct fetchall.
           ++ apply wp_bind, wp_outer, wp_the_world.
              eapply wp_weaken; [apply fetchall_spec|]. cbv beta. cbn [wd self].
              intros [r|e] w2' (E & Hr).
              ** apply wp_ret. apply Hcommit; auto.
                 cbn in Hr. now rewrite Hr.
              ** now apply Hfetch.
           ++ apply wp_ret. apply Hcommit; auto using evolves_refl.
      * apply Hcommit; auto using evolves_refl.
    + destruct H2 as (D2 & T2 & L2).
      apply (wp_abort P "Query execution failed: " c _ e Q); [exact Hpool| |].
      * cbn [wd self]. intros s4 D4 T4 L4. unfold Q. cbn [snd].
        eapply QueryAborted with (c := c) (pre := rev pre).
        -- now rewrite forallb_rev.
        -- apply failed_execute.
        -- congruence.
        -- rewrite T4, T2, T1. reflexivity.
        -- unfold added. rewrite L4, L2, L1. log_eq.
      * cbn [wd self]. intros s4 n e' He' Hn D4 T4 L4. unfold Q. cbn [snd].
        eapply QueryRollbackFailed with (c := c) (pre := rev pre) (e := e) (n := n).
        -- now rewrite forallb_rev.
        -- exact He'.
        -- exact Hn.
        -- apply failed_execute.
        -- congruence.
        -- rewrite T4, T2, T1. reflexivity.
        -- unfold added. rewrite L4, L2, L1. log_eq.
  - destruct H1 as (He & Hlog). rewrite He. cbn [snd].
    apply wp_if_connection. unfold Q. cbn [snd].
    destruct Hlog as [L1 | [c L1]].
    + eapply QueryUnconnected with (pre := rev pre) (lk := []); auto.
      * now rewrite forallb_rev.
      * constructor.
      * unfold added. rewrite L1. log_eq.
    + eapply QueryUnconnected with (pre := rev pre) (lk := [Getconn c]); auto.
      * now rewrite forallb_rev.
      * constructor.
      * unfold added. rewrite L1. log_eq.
Qed.
End QueryRun.
(** ** Reading the log of a call *)

Lemma events_since_added w w' evs : added w w' evs -> events_since w w' = evs.
Proof.
  unfold added, events_since. intros ->.
  rewrite length_app, Nat.add_sub.
  rewrite firstn_app, Nat.sub_diag, firstn_all. cbn.
  rewrite app_nil_r. apply rev_involutive.
Qed.

Lemma count_nil f : count f [] = 0.
Proof. reflexivity. Qed.

Lemma count_cons f ev evs :
  count f (ev :: evs) = (if f ev then 1 else 0) + count f evs.
Proof. unfold count. cbn. now destruct (f ev). Qed.

Lemma count_app f a b : count f (a ++ b) = count f a + count f b.
Proof. unfold count. now rewrite filter_app, length_app. Qed.

Lemma count_none f evs :
  forallb (fun ev => negb (f ev)) evs = true -> count f evs = 0.
Proof.
  induction evs as [|ev evs IH]; [reflexivity|]. cbn [forallb].
  intros H. apply andb_prop in H as [H1 H2]. rewrite count_cons, IH by assumption.
  now destruct (f ev).
Qed.

Lemma count_setup f pre :
  (forall ev, is_setup ev = true -> f ev = false) ->
  forallb is_setup pre = true -> count f pre = 0.
Proof.
  intros Hf H. apply count_none. rewrite forallb_forall in *.
  intros ev Hin. now rewrite (Hf ev (H ev Hin)).
Qed.

Lemma count_ran f c q ps :
  (forall p, f (ran c q p) = false) -> count f (map (ran c q) ps) = 0.
Proof.
  intros Hf. apply count_none. rewrite forallb_forall.
  intros ev Hin. apply in_map_iff in Hin as (p & <- & _). now rewrite Hf.
Qed.

Lemma count_rollback f c e :
  f (Rollback c) = false -> count f (rollback_events c e) = 0.
Proof.
  intros Hf. unfold rollback_events.
  destruct (is_psycopg2_error e); [|reflexivity].
  now rewrite count_cons, Hf.
Qed.


Lemma count_query_steps f c q params e b steps :
  query_steps c q params e b steps ->
  (forall err, f (Executed c q params err) = false) ->
  (forall err, f (Commit c err) = false) ->
  count f steps = 0.
Proof.
  intros [] H1 H2; rewrite ?count_cons, ?H1, ?H2; reflexivity.
Qed.

Ltac count_events :=
  repeat (rewrite count_app || rewrite count_cons || rewrite count_nil);
  repeat match goal with
    | H : forallb is_setup ?pre = true |- context [count ?f ?pre] =>
        rewrite (count_setup f pre) by (try assumption; intros []; cbn; congruence)
    | |- context [count ?f (map (ran ?c ?q) ?ps)] =>
        rewrite (count_ran f c q ps) by reflexivity
    | |- context [count ?f (rollback_events ?c ?e)] =>
        rewrite (count_rollback f c e) by reflexivity
    end.

Section Balance.
Import PostgresManager.
Variable P : platform.

(** In every call of [execute_batch], a connection is put back as often
    as a cursor was opened on it, and that is at most once. *)
Lemma execute_batch_balance q ps s o s' c :
  execute_batch P q ps s = (o, s') ->
  let evs := events_since (wd s) (wd s') in
  released c evs = opened c evs /\ opened c evs <= taken c evs /\ taken c evs <= 1.
Proof.
  intros Hrun. pose proof (wp_run _ _ _ _ _ (execute_batch_run P q ps s) Hrun) as H.
  cbv zeta. unfold released, opened, taken.
  inversion H; subst;
    match goal with Ha : added _ _ _ |- _ =>
      rewrite (events_since_added _ _ _ Ha) end; count_events.
  - match goal with Hl : leak _ |- _ => destruct Hl end; count_events; cbn.
    + lia.
    + destruct (Nat.eqb c c0); cbn; lia.
  - assert (Hf : forall f, (forall x y z w, f (Executed x y z w) = false) ->
                 (forall x y, f (Commit x y) = false) -> f failing = false).
    { intros f F1 F2.
      match goal with Hx : _ \/ _ |- _ => destruct Hx as [(p & rest & _ & ->)|[_ ->]] end;
        auto. }
    rewrite (Hf (is_Putconn c)), (Hf (is_CursorOpened c)), (Hf (is_Getconn c))
      by reflexivity.
    cbn. destruct (Nat.eqb c c0); cbn; lia.
  - cbn. destruct (Nat.eqb c c0); cbn; lia.
  - assert (Hf : forall f, (forall x y z w, f (Executed x y z w) = false) ->
                 (forall x y, f (Commit x y) = false) -> f failing = false).
    { intros f F1 F2.
      match goal with Hx : _ \/ _ |- _ => destruct Hx as [(p & rest & _ & ->)|[_ ->]] end;
        auto. }
    rewrite (Hf (is_Putconn c)), (Hf (is_CursorOpened c)), (Hf (is_Getconn c))
      by reflexivity.
    cbn. destruct (Nat.eqb c c0); cbn; lia.
Qed.

Lemma execute_query_balance q params fetchone fetchall s o s' c :
  execute_query P q params fetchone fetchall s = (o, s') ->
  let evs := events_since (wd s) (wd s') in
  released c evs = opened c evs /\ opened c evs <= taken c evs /\ taken c evs <= 1.
Proof.
  intros Hrun.
  pose proof (wp_run _ _ _ _ _ (execute_query_run P q params fetchone fetchall s) Hrun) as H.
  cbv zeta. unfold released, opened, taken.
  inversion H; subst;
    match goal with Ha : added _ _ _ |- _ =>
      rewrite (events_since_added _ _ _ Ha) end; count_events.
  - match goal with Hl : leak _ |- _ => destruct Hl end; count_events; cbn.
    + lia.
    + destruct (Nat.eqb c c0); cbn; lia.
  - match goal with Hq : query_steps _ _ _ _ _ _ |- _ =>
      rewrite (count_query_steps (is_Putconn c) _ _ _ _ _ _ Hq),
        (count_query_steps (is_CursorOpened c) _ _ _ _ _ _ Hq),
        (count_query_steps (is_Getconn c) _ _ _ _ _ _ Hq) by reflexivity end.
    cbn. destruct (Nat.eqb c c0); cbn; lia.
  - cbn. destruct (Nat.eqb c c0); cbn; lia.
  - match goal with Hq : query_steps _ _ _ _ _ _ |- _ =>
      rewrite (count_query_steps (is_Putconn c) _ _ _ _ _ _ Hq),
        (count_query_steps (is_CursorOpened c) _ _ _ _ _ _ Hq),
        (count_query_steps (is_Getconn c) _ _ _ _ _ _ Hq) by reflexivity end.
    cbn. destruct (Nat.eqb c c0); cbn; lia.
Qed.

End Balance.
Lemma added_refl w : added w w [].
Proof. reflexivity. Qed.

Lemma added_trans w1 w2 w3 a b :
  added w1 w2 a -> added w2 w3 b -> added w1 w3 (a ++ b).
Proof. unfold added. intros H1 H2. rewrite H2, H1. log_eq. Qed.

Lemma evolves_added w w' evs : evolves w w' evs -> added w w' (rev evs).
Proof. unfold evolves, added. intros (_ & _ & ->). now rewrite rev_involutive. Qed.

Lemma wp_logger lvl msg w Q :
  Q (Return tt) (set_log (Log lvl msg :: w_log w) w) -> wp (logger lvl msg) w Q.
Proof. auto. Qed.

Lemma wp_for_each_process_item items rows w :
  wp (for_each items process_item) (rows, w)
     (fun o s' =>
        exists evs, snd s' = set_log (evs ++ w_log w) w /\ forallb is_Log evs = true /\
                    (o = Return tt -> fst s' = rows ++ valid_rows items)).
Proof.
  apply wp_intro. intros o [rows' w'] E. cbn [fst snd].
  exact (for_each_process_item_any items rows w o rows' w' E).
Qed.

Section ManagerScope.
Import PostgresManager.
Variable P : platform.

Lemma close_pool_spec s :
  wp close_pool s
     (fun o s' => o = Return tt /\ w_db (wd s') = w_db (wd s) /\
                  exists cl cs, closing cl /\ added (wd s) (wd s') cl /\
                    w_txn (wd s') = fold_right drop_txn (w_txn (wd s)) cs).
Proof.
  unfold close_pool. apply wp_bind, wp_get_self.
  destruct (connection_pool (self s)) as [p|].
  - apply wp_bind, wp_the_world. eapply wp_weaken; [apply closeall_spec|].
    cbv beta. intros o w1 (-> & D & T & L).
    apply wp_bind, wp_put_self, wp_the_world, wp_emit. cbn.
    repeat split; auto.
    exists [PoolClosed; Print [Lit "Connection pool closed"]], (Psycopg2.idle p ++ Psycopg2.used p).
    repeat split; auto using closed. unfold added. cbn. now rewrite L.
  - apply wp_ret. repeat split; auto. exists [], []. repeat split; auto using not_open.
Qed.

Lemma wp_with_manager {L A} (body : M (L * mstate) A) l w Q :
  match __init__ P None None None None None 1 10 with
  | Raise e => Q (Raise e) (l, w)
  | Return m =>
      wp (outer (__enter__ P) ;; try_finally body (outer __exit__)) (l, mkState m w)
         (fun o ls => Q o (fst ls, wd (snd ls)))
  end ->
  wp (with_manager P body) (l, w) Q.
Proof.
  intros H. apply wp_intro. intros o [l' w'] E. unfold with_manager in E.
  destruct (__init__ P None None None None None 1 10) as [m|e].
  - destruct ((outer (__enter__ P) ;; try_finally body (outer __exit__)) (l, mkState m w))
      as [o1 [l1 st]] eqn:E1.
    cbn [fst snd] in E. rewrite E1 in E. inversion E; subst.
    exact (wp_run _ _ _ _ _ H E1).
  - inversion E; subst. exact H.
Qed.

End ManagerScope.
Section Ingest.
Import PostgresManager.
Variable P : platform.

Lemma is_Log_rev evs : forallb is_Log evs = true -> forallb is_Log (rev evs) = true.
Proof. intros H. now rewrite forallb_rev. Qed.

Lemma insert_crypto_data_run api w :
  wp (insert_crypto_data P api) w (fun o w' => ingest_run P api w w' o).
Proof.
  unfold insert_crypto_data.
  apply wp_with_locals, wp_bind, wp_outer, wp_logger.
  set (line := Log INFO [Lit "Processing cryptocurrency data for database insertion"]).
  set (w0 := set_log (line :: w_log w) w).
  apply wp_bind, wp_lift.
  destruct (py_get api "data" (PyList [])) as [data|e] eqn:Hdata.
  2:{ cbn [snd]. apply IngestRejected with (logs := [line]); auto. reflexivity. }
  apply wp_bind, wp_lift.
  destruct (py_iter data) as [items|e] eqn:Hiter.
  2:{ cbn [snd]. apply IngestRejected with (logs := [line]); auto. reflexivity. }
  assert (Hitems : payload_items api = Return items).
  { unfold payload_items. now rewrite Hdata. }
  apply wp_bind. eapply wp_weaken; [apply wp_for_each_process_item|]. cbv beta.
  intros [[]|e] [rows w1] (evs & Hw & Fevs & Hrows); cbn [fst snd] in *.
  2:{ subst w1. apply IngestRejected with (logs := line :: rev evs); auto.
      - cbn. now apply is_Log_rev.
      - unfold added. cbn. log_eq. }
  specialize (Hrows eq_refl). cbn [app] in Hrows. subst rows w1.
  apply wp_bind, wp_get_local.
  destruct (valid_rows items) as [|r rest] eqn:Hvalid.
  - apply wp_bind, wp_outer, wp_logger, wp_ret. cbn [snd].
    apply IngestEmpty with (items := items)
      (logs := line :: rev evs ++ [Log INFO [Lit "No valid data to insert."]]); auto.
    + cbn. rewrite forallb_app, forallb_rev, Fevs. reflexivity.
    + unfold added. cbn. log_eq.
  - rewrite <- Hvalid. assert (Hne : valid_rows items <> []) by (rewrite Hvalid; discriminate).
    clear Hvalid.
    set (w1 := set_log (evs ++ w_log w0) w0).
    assert (A1 : added w w1 (line :: rev evs)) by (unfold added; cbn; log_eq).
    (* the handler of the try, from any state reached with the database as it was *)
    assert (Hfail : forall e w2,
       w_db w2 = w_db w -> w_txn w2 = w_txn w ->
       added w w2 (line :: rev evs) ->
       if is_database_error e
       then wp (outer (logger ERROR [Lit "Database insertion failed: "; Lit (exn_msg e)]) ;;
                raise e) (valid_rows items, w2)
               (fun o ls => ingest_run P api w (snd ls) o)
       else ingest_run P api w w2 (Raise e)).
    { intros e w2 D T A.
      destruct (is_database_error e).
      - apply wp_bind, wp_outer, wp_logger, wp_raise. cbn [snd].
        eapply IngestUnopened with (items := items)
          (logs := (line :: rev evs)
                   ++ [Log ERROR [Lit "Database insertion failed: "; Lit (exn_msg e)]]);
          auto.
        + cbn. rewrite forallb_app, forallb_rev, Fevs. reflexivity.
        + unfold added in *. cbn [w_log set_log]. rewrite A. log_eq.
      - eapply IngestUnopened with (items := items) (logs := line :: rev evs); auto.
        cbn. now apply is_Log_rev. }
    apply wp_try_except, wp_bind, wp_with_manager.
    destruct (__init__ P None None None None None 1 10) as [m|e] eqn:Hinit.
    2:{ apply (Hfail e w1); auto. }
    apply wp_bind, wp_outer. unfold __enter__.
    eapply wp_weaken; [apply initialize_pool_spec|]. cbv beta. cbn [wd self].
    intros [[]|e] s2 (pre & (D2 & T2 & L2) & Fpre & H2).
    2:{ cbn [fst snd]. destruct H2 as (_ & _ & ->).
        apply (Hfail e (wd s2)); auto.
        unfold added in *. rewrite L2. unfold w1, w0. cbn. log_eq. }
    apply wp_try_finally, wp_outer.
    eapply wp_weaken; [apply execute_batch_run|]. cbv beta.
    intros ob s3 Hbatch.
    apply wp_outer. unfold __exit__.
    eapply wp_weaken; [apply close_pool_spec|]. cbv beta.
    intros oc s4 (-> & D4 & cl & cs & Hcl & A4 & T4).
    cbn [fst snd].
    assert (A2 : added w (wd s2) ((line :: rev evs) ++ rev pre)).
    { unfold added. rewrite L2. unfold w1, w0. cbn. log_eq. }
    destruct ob as [[]|e].
    + apply wp_bind, wp_outer, wp_logger, wp_ret. cbn [snd].
      eapply IngestBatch with (items := items) (w1 := wd s2) (w2 := wd s3)
        (ob := Return tt) (pre := rev pre) (cl := cl) (cs := cs)
        (logs := line :: rev evs)
        (tail := [Log INFO [Lit "Successfully inserted/updated ";
                            Count (length (valid_rows items));
                            Lit " records into the database."]]); auto.
      * cbn. now apply is_Log_rev.
      * now rewrite forallb_rev.
      * unfold added in *. cbn [w_log set_log]. rewrite A4. log_eq.
    + destruct (is_database_error e).
      * apply wp_bind, wp_outer, wp_logger, wp_raise. cbn [snd].
        eapply IngestBatch with (items := items) (w1 := wd s2) (w2 := wd s3)
          (ob := Raise e) (pre := rev pre) (cl := cl) (cs := cs)
          (logs := line :: rev evs)
          (tail := [Log ERROR [Lit "Database insertion failed: "; Lit (exn_msg e)]]);
          auto.
        -- cbn. now apply is_Log_rev.
        -- now rewrite forallb_rev.
        -- unfold added in *. cbn [w_log set_log]. rewrite A4. log_eq.
      * eapply IngestBatch with (items := items) (w1 := wd s2) (w2 := wd s3)
          (ob := Raise e) (pre := rev pre) (cl := cl) (cs := cs)
          (logs := line :: rev evs) (tail := []); auto.
        -- cbn. now apply is_Log_rev.
        -- now rewrite forallb_rev.
        -- now rewrite app_nil_r.
Qed.
End Ingest.

(** ** The claims about one entry *)

Lemma value_of_field item path v : field item path = Some v -> value_of item path = v.
Proof. unfold value_of. now intros ->. Qed.

Lemma value_of_missing item path : missing item path -> value_of item path = PyNone.
Proof. unfold value_of, missing. now intros ->. Qed.

Lemma field_quote_well_nested item k v :
  field item ["quote"; "USD"; k] = Some v -> well_nested item = true.
Proof.
  unfold well_nested. cbn. destruct item; try discriminate.
  destruct (assoc "quote" d) as [q|]; [|discriminate].
  destruct q; try discriminate. cbn.
  destruct (assoc "USD" d0) as [u|]; [|discriminate].
  destruct u; try discriminate. reflexivity.
Qed.

(** An entry with a required field that is not true yields no row. *)
Lemma row_of_falsy item :
  py_all [value_of item NAME; value_of item SYMBOL;
          value_of item PRICE; value_of item LAST_UPDATED] = false ->
  row_of item = None.
Proof. unfold row_of. intros ->. now rewrite andb_false_r. Qed.

Lemma skip_event_falsy item :
  py_all [value_of item NAME; value_of item SYMBOL;
          value_of item PRICE; value_of item LAST_UPDATED] = false ->
  exists lvl msg, skip_event item = Log lvl msg /\
                  lvl = if well_nested item then WARNING else ERROR.
Proof.
  unfold skip_event. intros ->. destruct (well_nested item); eauto.
Qed.

Lemma falsy_skipped d rows w :
  py_all [value_of (PyDict d) NAME; value_of (PyDict d) SYMBOL;
          value_of (PyDict d) PRICE; value_of (PyDict d) LAST_UPDATED] = false ->
  skipped (PyDict d) rows w.
Proof.
  intros H. destruct (skip_event_falsy _ H) as (lvl & msg & Hev & Hlvl).
  exists lvl, msg. split; [exact Hlvl|].
  assert (Hp : process_item (PyDict d) (rows, w)
               = (Return tt, (rows, set_log (Log lvl msg :: w_log w) w))).
  { rewrite process_item_dict, (row_of_falsy _ H), Hev. reflexivity. }
  split; [exact Hp|].
  intros rest. cbn [for_each]. unfold bind at 1. now rewrite Hp.
Qed.

(** C6 (amended). An entry that is an object and lacks one of name,
    symbol, price or last_updated is left out of the batch without
    raising, and the loop goes on with the remaining entries; the line
    logged for it is a warning when its [quote] and [quote.USD] are
    objects or absent, and an error otherwise. *)
Theorem incomplete_entry_is_skipped d rows w :
  missing (PyDict d) NAME \/ missing (PyDict d) SYMBOL \/
  missing (PyDict d) PRICE \/ missing (PyDict d) LAST_UPDATED ->
  skipped (PyDict d) rows w.
Proof.
  intros H. apply falsy_skipped. cbn [py_all forallb].
  destruct H as [H|[H|[H|H]]]; rewrite (value_of_missing _ _ H); cbn [truthy];
    now rewrite ?andb_false_r.
Qed.

(** C6 as stated fails on an entry whose [quote] is null: the entry has
    no price, and the line logged for it is an error, not a warning. *)
Lemma null_quote_logs_no_warning :
  missing bitcoin_null_quote PRICE /\
  exists w', process_item bitcoin_null_quote ([], empty_world) = (Return tt, ([], w')) /\
             trace w' = [Log ERROR [Lit "Error processing item: "; Val (PyStr "Bitcoin");
                                    Lit " - ";
                                    Lit "'NoneType' object has no attribute 'get'"]] /\
             forall msg, ~ In (Log WARNING msg) (trace w').
Proof.
  split; [reflexivity|]. eexists. split; [reflexivity|]. split; [reflexivity|].
  cbn. intros msg [H|[]]. discriminate.
Qed.

Lemma incomplete_entry_is_skipped_witness :
  missing (PyDict [("name", PyStr "Bitcoin")]) SYMBOL /\
  skipped (PyDict [("name", PyStr "Bitcoin")]) [] empty_world.
Proof.
  split; [reflexivity|].
  apply incomplete_entry_is_skipped. right. left. reflexivity.
Defined.
(** C9. Presence is decided by truth value: an entry (an object) whose
    price is 0 or 0.0, or whose name or symbol is the empty string, is
    skipped although the field is there; an entry without rank,
    volume_24h or market_cap is not skipped for that, and the three
    columns of its row are NULL. *)
Theorem presence_is_truthiness d rows w :
  let item := PyDict d in
  ((field item PRICE = Some (PyInt 0) \/
    (exists den, field item PRICE = Some (PyFloat 0 den)) \/
    field item NAME = Some (PyStr "") \/
    field item SYMBOL = Some (PyStr "")) ->
   skipped item rows w) /\
  (forall ts,
     truthy (value_of item NAME) = true ->
     truthy (value_of item SYMBOL) = true ->
     truthy (value_of item PRICE) = true ->
     field item LAST_UPDATED = Some (PyStr ts) -> ts <> "" ->
     missing item CMC_RANK -> missing item VOLUME_24H -> missing item MARKET_CAP ->
     process_item item (rows, w)
     = (Return tt,
        (rows ++ [[value_of item NAME; value_of item SYMBOL; PyNone;
                   value_of item PRICE; PyNone; PyNone;
                   PyStr (str_replace "Z" "" (str_replace "T" " " ts))]], w))).
Proof.
  intros item. split.
  - intros H. apply falsy_skipped. fold item. cbn [py_all forallb].
    destruct H as [H|[[den H]|[H|H]]]; rewrite (value_of_field _ _ _ H); cbn [truthy];
      now rewrite ?andb_false_r.
  - intros ts Hn Hs Hp Hlu Hts Hr Hv Hm.
    unfold item. rewrite process_item_dict. fold item. unfold row_of.
    rewrite (field_quote_well_nested _ _ _ Hlu). cbn [is_dict item andb py_all forallb].
    fold item. rewrite Hn, Hs, Hp, (value_of_field _ _ _ Hlu).
    cbn [truthy andb]. destruct (String.eqb_spec ts ""); [contradiction|].
    cbn [negb]. rewrite normalize_timestamp_str.
    now rewrite (value_of_missing _ _ Hr), (value_of_missing _ _ Hv),
      (value_of_missing _ _ Hm).
Qed.

Lemma presence_is_truthiness_witness :
  (let item := zero_price_entry in
   field item PRICE = Some (PyInt 0) /\ skipped item [] empty_world) /\
  (let item := bare_entry in
   missing item CMC_RANK /\ missing item VOLUME_24H /\ missing item MARKET_CAP /\
   process_item item ([], empty_world)
   = (Return tt,
      ([[PyStr "Bitcoin"; PyStr "BTC"; PyNone; PyFloat 42000 1; PyNone; PyNone;
         PyStr "2024-01-15 10:30:00.000"]], empty_world))).
Proof.
  split.
  - split; [reflexivity|].
    apply (proj1 (presence_is_truthiness zero_price_fields [] empty_world)).
    left. reflexivity.
  - repeat (split; [reflexivity|]).
    refine (proj2 (presence_is_truthiness bare_fields [] empty_world)
                  "2024-01-15T10:30:00.000Z" eq_refl eq_refl eq_refl eq_refl _
                  eq_refl eq_refl eq_refl).
    discriminate.
Defined.

(** C5. Every row that a turn of the loop adds to the batch carries, as
    its last_updated, the timestamp string of the entry with each 'T'
    replaced by a space and each 'Z' removed; on a timestamp written as
    date, 'T', time, 'Z' that is the date, a space and the time, and
    "2024-01-15T10:30:00.000Z" becomes "2024-01-15 10:30:00.000". *)
Theorem stored_timestamp_is_normalized :
  (forall item rows w o rows' w',
     process_item item (rows, w) = (o, (rows', w')) ->
     rows' = rows \/
     exists ts r, field item LAST_UPDATED = Some (PyStr ts) /\
                  rows' = rows ++ [r] /\
                  col 6 r = PyStr (str_replace "Z" "" (str_replace "T" " " ts))) /\
  (forall date time,
     free_of "T" date = true -> free_of "Z" date = true ->
     free_of "T" time = true -> free_of "Z" time = true ->
     str_replace "Z" "" (str_replace "T" " " (date ++ "T" ++ time ++ "Z"))
     = (date ++ " " ++ time)%string) /\
  str_replace "Z" "" (str_replace "T" " " "2024-01-15T10:30:00.000Z")
  = "2024-01-15 10:30:00.000".
Proof.
  split; [|split; [|reflexivity]].
  - intros item rows w o rows' w' H.
    destruct (is_dict item) eqn:Hd.
    + destruct item; try discriminate. rewrite process_item_dict in H.
      destruct (row_of (PyDict d)) as [r|] eqn:Hrow.
      * right. inversion H; subst. unfold row_of in Hrow.
        destruct (is_dict (PyDict d) && well_nested (PyDict d) && py_all _) eqn:Hok;
          [|discriminate].
        apply andb_prop in Hok as [_ Hall]. cbn [py_all forallb] in Hall.
        apply andb_prop in Hall as [_ Hall]. apply andb_prop in Hall as [_ Hall].
        apply andb_prop in Hall as [_ Hall]. apply andb_prop in Hall as [Hlu _].
        unfold value_of in Hrow, Hlu.
        destruct (field (PyDict d) LAST_UPDATED) as [v|] eqn:Hf; [|discriminate].
        destruct v; try discriminate. rewrite normalize_timestamp_str in Hrow.
        inversion Hrow; subst. exists s. eexists. repeat split; reflexivity.
      * left. now inversion H.
    + rewrite process_item_not_dict in H by assumption. left. now inversion H.
  - intros date time H1 H2 H3 H4.
    pose proof (normalize_iso8601 date time H1 H2 H3 H4) as H.
    rewrite normalize_timestamp_str in H. now inversion H.
Qed.

Lemma stored_timestamp_is_normalized_witness :
  process_item bare_entry ([], empty_world)
  = (Return tt,
     ([[PyStr "Bitcoin"; PyStr "BTC"; PyNone; PyFloat 42000 1; PyNone; PyNone;
        PyStr "2024-01-15 10:30:00.000"]], empty_world)) /\
  (free_of "T" "2024-01-15" = true /\ free_of "Z" "2024-01-15" = true /\
   free_of "T" "10:30:00.000" = true /\ free_of "Z" "10:30:00.000" = true) /\
  ([[PyStr "Bitcoin"; PyStr "BTC"; PyNone; PyFloat 42000 1; PyNone; PyNone;
     PyStr "2024-01-15 10:30:00.000"]] = ([] : list row) \/
   exists ts r, field bare_entry LAST_UPDATED = Some (PyStr ts) /\
                [[PyStr "Bitcoin"; PyStr "BTC"; PyNone; PyFloat 42000 1; PyNone; PyNone;
                  PyStr "2024-01-15 10:30:00.000"]] = [] ++ [r] /\
                col 6 r = PyStr (str_replace "Z" "" (str_replace "T" " " ts))) /\
  str_replace "Z" "" (str_replace "T" " " ("2024-01-15" ++ "T" ++ "10:30:00.000" ++ "Z"))
  = ("2024-01-15" ++ " " ++ "10:30:00.000")%string.
Proof.
  split; [reflexivity|]. split; [repeat split; reflexivity|]. split.
  - apply (proj1 stored_timestamp_is_normalized bare_entry [] empty_world
                 (Return tt) _ empty_world). reflexivity.
  - apply (proj1 (proj2 stored_timestamp_is_normalized)); reflexivity.
Defined.
(** ** The client *)

(** C8. When the request fails at the level of transport,
    [get_latest_listings] returns the dictionary [{"error": message}]
    and raises nothing. *)
Theorem transport_failure_is_returned P self start limit convert w msg :
  transport_failure
    (http P listings_url (CoinMarketCapAPI.headers self)
          (listings_params start limit convert)) msg ->
  CoinMarketCapAPI.get_latest_listings P self start limit convert w
  = (Return (PyDict [("error", PyStr msg)]),
     set_log (HttpGet listings_url (listings_params start limit convert) :: w_log w) w).
Proof.
  intros H.
  unfold CoinMarketCapAPI.get_latest_listings, CoinMarketCapAPI._make_request,
    try_except, bind, emit, raise, ret.
  change (CoinMarketCapAPI.BASE_URL ++ "/cryptocurrency/listings/latest")%string
    with listings_url.
  fold (listings_params start limit convert).
  inversion H as [m Hn|m Hn|m Hn|r Hs Hn]; subst; cbn; try reflexivity.
  unfold CoinMarketCapAPI.raise_for_status, raise.
  destruct Hs as [H1 H2].
  apply Z.leb_le in H1. apply Z.ltb_lt in H2. rewrite H1, H2. reflexivity.
Qed.

Lemma transport_failure_is_returned_witness :
  let P := pg_platform full_env dead_net (fun _ => true) no_fault in
  let self := CoinMarketCapAPI.__init__ "key" in
  transport_failure
    (http P listings_url (CoinMarketCapAPI.headers self) (listings_params 1 200 "USD"))
    "Read timed out." /\
  CoinMarketCapAPI.get_latest_listings P self 1 200 "USD" empty_world
  = (Return (PyDict [("error", PyStr "Read timed out.")]),
     set_log [HttpGet listings_url (listings_params 1 200 "USD")] empty_world).
Proof.
  cbv zeta. split; [apply timed_out|].
  apply (transport_failure_is_returned
           (pg_platform full_env dead_net (fun _ => true) no_fault)
           (CoinMarketCapAPI.__init__ "key") 1 200 "USD" empty_world).
  apply timed_out.
Defined.
(** ** The manager's two executing methods *)

Section Gate.
Import PostgresManager.

Lemma In_added_events w w' evs ev :
  added w w' evs -> In ev evs -> In ev (events_since w w').
Proof. intros H. now rewrite (events_since_added _ _ _ H). Qed.

(** C10. Only a query whose text, stripped and upper-cased, starts with
    SELECT can return rows; any other statement, among them one with a
    RETURNING clause and one that starts with WITH, returns [None] after
    its commit, whatever the fetch flags are. *)
Theorem select_gate P params s :
  (forall q fetchone fetchall r s',
     execute_query P q params fetchone fetchall s = (Return r, s') ->
     r <> QNone -> startswith (upper (strip q)) "SELECT" = true) /\
  (forall q,
     startswith (upper (strip q)) "SELECT" = false ->
     forall fetchone fetchall,
       execute_query P q params fetchone fetchall s
       = execute_query P q params false false s /\
       forall r s',
         execute_query P q params fetchone fetchall s = (Return r, s') ->
         r = QNone /\
         exists c, In (Commit c None) (events_since (wd s) (wd s'))) /\
  startswith (upper (strip returning_query)) "SELECT" = false /\
  startswith (upper (strip cte_query)) "SELECT" = false.
Proof.
  assert (Hnone : forall q fetchone fetchall r s',
     execute_query P q params fetchone fetchall s = (Return r, s') ->
     is_select q = false ->
     r = QNone /\ exists c, In (Commit c None) (events_since (wd s) (wd s'))).
  { intros q fo fa r s' Hrun Hsel.
    pose proof (wp_run _ _ _ _ _ (execute_query_run P q params fo fa s) Hrun) as H.
    inversion H as [| |c pre d rows r0 F Hsql D T Hr A|]; subst.
    rewrite Hsel in Hr. split; [exact Hr|].
    exists c. apply (In_added_events _ _ _ _ A).
    right. apply in_or_app. right. cbn. auto. }
  split; [|split; [|split; reflexivity]].
  - intros q fo fa r s' Hrun Hr.
    change (is_select q = true). destruct (is_select q) eqn:Hsel; [reflexivity|].
    destruct (Hnone q fo fa r s' Hrun Hsel) as [-> _]. contradiction.
  - intros q Hsel fo fa. split.
    + unfold execute_query. change (is_select q = false) in Hsel.
      rewrite Hsel. reflexivity.
    + intros r s' Hrun. now apply (Hnone q fo fa r s' Hrun).
Qed.

Lemma select_gate_witness :
  let s := fresh_state in
  let run q fetchone fetchall := execute_query one_row_platform q None fetchone fetchall s in
  (fst (run "  select 1" true false) = Return (QRow [PyInt 1]) /\
   startswith (upper (strip "  select 1")) "SELECT" = true) /\
  (startswith (upper (strip returning_query)) "SELECT" = false /\
   run returning_query true true = run returning_query false false /\
   fst (run returning_query true true) = Return QNone /\
   exists c, In (Commit c None)
                (events_since (wd s) (wd (snd (run returning_query true true))))).
Proof.
  cbv zeta.
  destruct (select_gate one_row_platform None fresh_state) as (Hsel & Hother & _ & _).
  split.
  - split; [reflexivity|].
    apply (Hsel "  select 1" true false (QRow [PyInt 1])
                (snd (execute_query one_row_platform "  select 1" None true false
                                    fresh_state))).
    + reflexivity.
    + discriminate.
  - split; [reflexivity|].
    destruct (Hother returning_query eq_refl true true) as [Hsame Hret].
    split; [exact Hsame|]. split; [reflexivity|].
    apply (Hret QNone (snd (execute_query one_row_platform returning_query None true true
                                          fresh_state))).
    reflexivity.
Defined.

End Gate.
Ltac in_cases H :=
  repeat (cbn [app] in H;
          first [ apply in_app_or in H as [H|H] | destruct H as [H|H] ]).

Section Atomic.
Import PostgresManager.

Lemma not_in_setup pre ev :
  forallb is_setup pre = true -> is_setup ev = false -> ~ In ev pre.
Proof.
  intros F Hev Hin. rewrite forallb_forall in F. specialize (F ev Hin). congruence.
Qed.

Lemma in_ran c q ps ev : In ev (map (ran c q) ps) -> exists p, ev = ran c q p.
Proof. intros H. apply in_map_iff in H as (p & <- & _). eauto. Qed.

Lemma in_rollback_events c e ev : In ev (rollback_events c e) -> ev = Rollback c.
Proof.
  unfold rollback_events. destruct (is_psycopg2_error e); cbn; intuition.
Qed.

Ltac in_absurd H F :=
  try first [ discriminate H
            | now apply (not_in_setup _ _ F) in H
            | (apply in_ran in H as [? H]; discriminate H)
            | (apply in_rollback_events in H; discriminate H)
            | contradiction ].

(** C2 (amended). A call of [execute_batch] that returns has run the
    statement once per tuple, in order, on one connection, and has
    committed once, after the last of them.  A call that raises has
    committed nothing: the data on the server are what they were.  When
    the statement fails on a tuple, the call raises, nothing is
    committed and the data are unchanged; an exception that is no
    [psycopg2.Error] leaves the call as it is, without a rollback by
    the handler; on a [psycopg2.Error] the handler rolls back, and then
    either the rollback is made and a [DatabaseError] is raised, or the
    rollback itself raises and its exception leaves the call. *)
Theorem batch_is_one_transaction P q ps s o s' :
  execute_batch P q ps s = (o, s') ->
  let evs := events_since (wd s) (wd s') in
  (o = Return tt ->
   exists c pre,
     forallb is_setup pre = true /\
     evs = BatchCall q ps :: pre ++ [Getconn c; CursorOpened c]
             ++ map (ran c q) ps ++ [Commit c None; Putconn c]) /\
  (forall e, o = Raise e ->
     w_db (wd s') = w_db (wd s) /\ forall c, ~ In (Commit c None) evs) /\
  (forall c p e,
     In (Executed c q (Some p) (Some e)) evs ->
     (exists e', o = Raise e') /\
     (forall c', ~ In (Commit c' None) evs) /\
     w_db (wd s') = w_db (wd s) /\
     (is_psycopg2_error e = false -> o = Raise e /\ ~ In (Rollback c) evs) /\
     (is_psycopg2_error e = true ->
      (In (Rollback c) evs /\
       o = Raise (mkExn DatabaseError
                    ("Batch execution failed: " ++ exn_msg e)%string)) \/
      (~ In (Rollback c) evs /\
       exists n e', fault P n = Some e' /\ o = Raise e'))).
Proof.
  intros Hrun. pose proof (wp_run _ _ _ _ _ (execute_batch_run P q ps s) Hrun) as H.
  cbv zeta.
  inversion H as [e pre lk He F Hlk D T A | c pre done failing e F Hf D T A
                  | c pre F Happ T A
                  | c pre done failing e n e' F He Hn Hf D T A];
    subst; rewrite (events_since_added _ _ _ A).
  - (* no connection *)
    split; [discriminate|]. split.
    + intros e0 _. split; [exact D|]. intros c Hc.
      destruct Hlk; in_cases Hc; in_absurd Hc F.
    + intros c p e0 Hc. destruct Hlk; in_cases Hc; in_absurd Hc F.
  - (* a statement or the commit raised *)
    assert (Hno : forall c', ~ In (Commit c' None)
              (BatchCall q ps :: pre ++ [Getconn c; CursorOpened c]
                 ++ map (ran c q) done ++ [failing] ++ rollback_events c e ++ [Putconn c])).
    { intros c' Hc. in_cases Hc; in_absurd Hc F.
      destruct Hf as [(p & rest & _ & ->)|[_ ->]]; discriminate. }
    split; [discriminate|]. split; [intros e0 _; split; [exact D | exact Hno]|].
    intros c1 p1 e1 Hin.
    assert (Hfail : failing = Executed c1 q (Some p1) (Some e1)).
    { in_cases Hin; in_absurd Hin F. exact Hin. }
    destruct Hf as [(p & rest & _ & Hf)|[_ Hf]]; rewrite Hf in Hfail; inversion Hfail; subst.
    split; [eauto|]. split; [exact Hno|]. split; [exact D|].
    unfold raised_as, rollback_events. split; intros Hpg; rewrite Hpg.
    + split; [reflexivity|]. cbn [app]. intros Hr. in_cases Hr; in_absurd Hr F.
    + left. split; [|reflexivity]. cbn [app].
      right. apply in_or_app. right. right. right. apply in_or_app. right.
      right. left. reflexivity.
  - (* committed *)
    split; [intros _; eauto|]. split; [discriminate|].
    intros c1 p1 e1 Hin. exfalso. in_cases Hin; in_absurd Hin F.
  - (* the rollback raised *)
    assert (Hno : forall c', ~ In (Commit c' None)
              (BatchCall q ps :: pre ++ [Getconn c; CursorOpened c]
                 ++ map (ran c q) done ++ [failing] ++ [Putconn c])).
    { intros c' Hc. in_cases Hc; in_absurd Hc F.
      destruct Hf as [(p & rest & _ & ->)|[_ ->]]; discriminate. }
    split; [discriminate|]. split; [intros e0 _; split; [exact D | exact Hno]|].
    intros c1 p1 e1 Hin.
    assert (Hfail : failing = Executed c1 q (Some p1) (Some e1)).
    { in_cases Hin; in_absurd Hin F. exact Hin. }
    destruct Hf as [(p & rest & _ & Hf)|[_ Hf]]; rewrite Hf in Hfail; inversion Hfail; subst.
    split; [eauto|]. split; [exact Hno|]. split; [exact D|].
    split; intros Hpg; [congruence|].
    right. split; [|eauto].
    intros Hr. in_cases Hr; in_absurd Hr F.
Qed.

(** C2 as stated fails.  When the fifth of ten statements raises an
    exception that is no [psycopg2.Error] (a parameter tuple that does
    not fit the statement), that exception leaves [execute_batch]: no
    [DatabaseError], and no rollback by the handler.  When the
    connection is lost during the fifth statement, the rollback of the
    handler raises as well, and again no [DatabaseError] is raised.  In
    both runs nothing is committed. *)
Lemma batch_failure_without_database_error :
  let run1 := execute_batch bad_params_platform insert_query ten_rows fresh_state in
  let run2 := execute_batch lost_platform insert_query ten_rows fresh_state in
  let evs1 := events_since (wd fresh_state) (wd (snd run1)) in
  let evs2 := events_since (wd fresh_state) (wd (snd run2)) in
  (nth_error evs1 9
   = Some (Executed 0 insert_query (Some (sample_row "coin5")) (Some bad_params)) /\
   fst run1 = Raise bad_params /\
   existsb is_Rollback evs1 = false /\
   w_db (wd (snd run1)) = w_db (wd fresh_state)) /\
  (nth_error evs2 9
   = Some (Executed 0 insert_query (Some (sample_row "coin5")) (Some connection_lost)) /\
   fst run2 = Raise closed_connection /\
   existsb is_Rollback evs2 = false /\
   w_db (wd (snd run2)) = w_db (wd fresh_state)).
Proof. vm_compute. repeat split. Qed.

Lemma batch_is_one_transaction_witness :
  let run := execute_batch strict_platform insert_query ten_rows fresh_state in
  let evs := events_since (wd fresh_state) (wd (snd run)) in
  In (Executed 0 insert_query (Some (sample_row "coin5")) (Some constraint_violation)) evs /\
  fst run = Raise (mkExn DatabaseError
                     "Batch execution failed: new row violates a constraint of the table") /\
  (forall c', ~ In (Commit c' None) evs) /\
  w_db (wd (snd run)) = [(TABLE, [])] /\
  (is_psycopg2_error constraint_violation = true ->
   (In (Rollback 0) evs /\
    fst run = Raise (mkExn DatabaseError
                       ("Batch execution failed: " ++ exn_msg constraint_violation)%string)) \/
   (~ In (Rollback 0) evs /\
    exists n e', fault strict_platform n = Some e' /\ fst run = Raise e')).
Proof.
  set (run := execute_batch strict_platform insert_query ten_rows fresh_state).
  cbv zeta.
  assert (Hin : In (Executed 0 insert_query (Some (sample_row "coin5"))
                             (Some constraint_violation))
                   (events_since (wd fresh_state) (wd (snd run)))).
  { vm_compute. do 9 right. left. reflexivity. }
  destruct (proj2 (proj2 (batch_is_one_transaction strict_platform insert_query ten_rows
                            fresh_state (fst run) (snd run) (surjective_pairing run)))
                  0 (sample_row "coin5") constraint_violation Hin)
    as (_ & Hno & Hdb & _ & Hpg).
  split; [exact Hin|]. split; [vm_compute; reflexivity|].
  split; [exact Hno|]. split; [exact Hdb|]. exact Hpg.
Defined.

End Atomic.
Section Leak.
Import PostgresManager.

(** C1 fails on the code.  The pool hands out connection 0, creating
    its cursor raises, and [get_connection] turns that into a
    [ConnectionError] without putting the connection back; neither
    [execute_query] nor [execute_batch] has the connection in its local
    variable, so their [finally] releases nothing: connection 0 stays
    among the used connections of the pool. *)
Theorem cursor_failure_leaks_connection :
  let q := execute_query leaky_platform create_table_query None false true fresh_state in
  let b := execute_batch leaky_platform insert_query ten_rows fresh_state in
  let leaked_error :=
    mkExn ConnectionError
          "Failed to get connection from pool: connection already closed" in
  (fst q = Raise leaked_error /\
   taken 0 (events_since (wd fresh_state) (wd (snd q))) = 1 /\
   released 0 (events_since (wd fresh_state) (wd (snd q))) = 0 /\
   option_map Psycopg2.used (connection_pool (self (snd q))) = Some [0]) /\
  (fst b = Raise leaked_error /\
   taken 0 (events_since (wd fresh_state) (wd (snd b))) = 1 /\
   released 0 (events_since (wd fresh_state) (wd (snd b))) = 0 /\
   option_map Psycopg2.used (connection_pool (self (snd b))) = Some [0]).
Proof. vm_compute. repeat split. Qed.

End Leak.
(** ** The ingestion *)

Lemma batch_calls_app a b : batch_calls (a ++ b) = batch_calls a ++ batch_calls b.
Proof. apply filter_app. Qed.

Lemma batch_calls_none evs :
  forallb (fun ev => negb (is_BatchCall ev)) evs = true -> batch_calls evs = [].
Proof.
  induction evs as [|ev evs IH]; [reflexivity|]. cbn [forallb].
  intros H. apply andb_prop in H as [H1 H2]. unfold batch_calls in *. cbn.
  destruct (is_BatchCall ev); [discriminate|]. auto.
Qed.

Lemma forallb_impl {A} (f g : A -> bool) l :
  (forall x, f x = true -> g x = true) -> forallb f l = true -> forallb g l = true.
Proof.
  intros H. induction l as [|x l IH]; [reflexivity|]. cbn.
  intros Hf. apply andb_prop in Hf as [H1 H2]. now rewrite (H x H1), IH.
Qed.

Lemma batch_calls_logs evs : forallb is_Log evs = true -> batch_calls evs = [].
Proof.
  intros H. apply batch_calls_none. revert H. apply forallb_impl. now intros [].
Qed.

Lemma batch_calls_setup evs : forallb is_setup evs = true -> batch_calls evs = [].
Proof.
  intros H. apply batch_calls_none. revert H. apply forallb_impl. now intros [].
Qed.

Lemma batch_calls_closing cl : closing cl -> batch_calls cl = [].
Proof. now intros []. Qed.

Lemma batch_calls_ran c q ps : batch_calls (map (ran c q) ps) = [].
Proof. induction ps; cbn; auto. Qed.

Lemma batch_calls_rollback c e : batch_calls (rollback_events c e) = [].
Proof. unfold rollback_events. now destruct (is_psycopg2_error e). Qed.

(** A call of [execute_batch] shows in the log as one [BatchCall]. *)
Lemma batch_run_calls P q ps w w' ob :
  batch_run P q ps w w' ob ->
  exists evs, added w w' evs /\ batch_calls evs = [BatchCall q ps].
Proof.
  intros H.
  inversion H as [e pre lk He F Hlk D T A | c pre done failing e F Hf D T A
                  | c pre F Happ T A
                  | c pre done failing e n e' F He Hn Hf D T A];
    subst; eexists; (split; [exact A|]);
    change (batch_calls (BatchCall q ps :: ?l)) with (BatchCall q ps :: batch_calls l);
    f_equal; rewrite ?batch_calls_app, ?batch_calls_ran, ?batch_calls_rollback,
               (batch_calls_setup _ F); cbn [app].
  - now destruct Hlk.
  - destruct Hf as [(p & rest & _ & ->)|[_ ->]]; reflexivity.
  - reflexivity.
  - destruct Hf as [(p & rest & _ & ->)|[_ ->]]; reflexivity.
Qed.

Lemma not_in_logs evs ev : forallb is_Log evs = true -> is_Log ev = false -> ~ In ev evs.
Proof.
  intros F Hev Hin. rewrite forallb_forall in F. specialize (F ev Hin). congruence.
Qed.

(** C7 (amended). The ingestion makes no call of [execute_batch] when
    no entry of the payload is valid, and never more than one; the one
    call carries the insert statement and all the valid rows, and it is
    made whenever there is a valid row and the pool of the manager has
    been opened, in particular whenever the ingestion returns. *)
Theorem batch_call_per_ingestion P api w o w' items :
  insert_crypto_data P api w = (o, w') ->
  payload_items api = Return items ->
  let evs := events_since w w' in
  let the_call := BatchCall insert_query (valid_rows items) in
  (valid_rows items = [] -> batch_calls evs = []) /\
  (batch_calls evs = [] \/ batch_calls evs = [the_call]) /\
  (valid_rows items <> [] -> (exists a b, In (PoolCreated a b) evs) ->
   batch_calls evs = [the_call]) /\
  (forall n, o = Return n -> valid_rows items <> [] ->
             batch_calls evs = [the_call] /\ n = length (valid_rows items)).
Proof.
  intros Hrun Hitems.
  pose proof (wp_run _ _ _ _ _ (insert_crypto_data_run P api w) Hrun) as H.
  cbv zeta.
  inversion H as [e logs F D T A | items0 logs Hi Hv F D T A
                  | items0 e logs Hi Hv F D T A
                  | items0 w1 w2 ob logs pre cl tail cs o0 Hi Hv F Fp D1 T1 A1 Hb Hcl Ft
                      D2 T2 A2 Ho]; subst.
  - rewrite (events_since_added _ _ _ A), (batch_calls_logs _ F).
    repeat split; auto.
    + intros _ (a & b & Hin). now apply (not_in_logs _ _ F) in Hin.
    + discriminate.
    + discriminate.
  - rewrite Hitems in Hi. inversion Hi; subst items0.
    rewrite (events_since_added _ _ _ A), (batch_calls_logs _ F).
    repeat split; auto; congruence.
  - rewrite (events_since_added _ _ _ A), (batch_calls_logs _ F).
    repeat split; auto.
    + intros _ (a & b & Hin). now apply (not_in_logs _ _ F) in Hin.
    + discriminate.
    + discriminate.
  - rewrite Hitems in Hi. inversion Hi; subst items0.
    destruct (batch_run_calls _ _ _ _ _ _ Hb) as (bevs & Ab & Hcalls).
    pose proof (added_trans _ _ _ _ _ (added_trans _ _ _ _ _ A1 Ab) A2) as A.
    rewrite (events_since_added _ _ _ A).
    rewrite !batch_calls_app, Hcalls, (batch_calls_logs _ F), (batch_calls_setup _ Fp),
      (batch_calls_closing _ Hcl), (batch_calls_logs _ Ft). cbn [app].
    repeat split; auto; try congruence.
    match goal with
    | Hx : match ob with _ => _ end = Return _ |- _ => destruct ob; inversion Hx
    end. reflexivity.
Qed.

(** C7 as stated fails on a payload without a valid entry: the
    ingestion returns 0 and has made no call of [execute_batch]. *)
Lemma empty_payload_makes_no_batch_call :
  let run := insert_crypto_data plain_platform empty_payload ready_world in
  payload_items empty_payload = Return [] /\
  fst run = Return 0 /\
  batch_calls (events_since ready_world (snd run)) = [] /\
  length (batch_calls (events_since ready_world (snd run))) <> 1.
Proof. vm_compute. repeat split. discriminate. Qed.

Lemma batch_call_per_ingestion_witness :
  let run := insert_crypto_data plain_platform one_entry_payload ready_world in
  let evs := events_since ready_world (snd run) in
  (payload_items one_entry_payload = Return [bare_entry] /\
   fst run = Return 1 /\ valid_rows [bare_entry] <> []) /\
  batch_calls evs = [BatchCall insert_query (valid_rows [bare_entry])] /\
  1 = length (valid_rows [bare_entry]).
Proof.
  set (run := insert_crypto_data plain_platform one_entry_payload ready_world).
  cbv zeta.
  assert (Hne : valid_rows [bare_entry] <> []) by (vm_compute; discriminate).
  assert (Ho : fst run = Return 1) by (vm_compute; reflexivity).
  split; [split; [reflexivity | split; [exact Ho | exact Hne]]|].
  exact (proj2 (proj2 (proj2
           (batch_call_per_ingestion plain_platform one_entry_payload ready_world
              (fst run) (snd run) [bare_entry] (surjective_pairing run) eq_refl)))
           1 Ho Hne).
Defined.
(** ** The insert statement on the server *)





Section Insert.
Variable accepts : row -> bool.

Lemma pg_insert r d :
  pg_sql accepts insert_query (Some r) d =
  match lookup_table TABLE d with
  | Some t =>
      if negb (accepts r) then
        StmtError (mkExn Psycopg2Error "new row violates a constraint of the table")
      else if conflicts r t then StmtOk d None
      else StmtOk (update_table TABLE (t ++ [r]) d) None
  | None =>
      StmtError (mkExn Psycopg2Error "relation 'cryptocurrency_data' does not exist")
  end.
Proof.
  unfold pg_sql.
  replace (String.eqb insert_query create_table_query) with false
    by (vm_compute; reflexivity).
  rewrite String.eqb_refl. reflexivity.
Qed.







End Insert.



(** ** Running the ingestion twice *)

Lemma drop_txn_nil c : drop_txn c [] = [].
Proof. reflexivity. Qed.

Lemma fold_drop_txn_nil cs : fold_right drop_txn [] cs = [].
Proof. induction cs as [|c cs IH]; cbn; [reflexivity|]. now rewrite IH. Qed.

Lemma view_no_txn c w : w_txn w = [] -> view c w = w_db w.
Proof. unfold view. now intros ->. Qed.

(** What a call of [execute_batch] does to the data, from a world with
    no open transaction: nothing, or the whole batch. *)
Lemma batch_run_data P q ps w w' ob :
  batch_run P q ps w w' ob -> w_txn w = [] ->
  w_txn w' = [] /\
  (w_db w' = w_db w \/ apply_all (sql P q) ps (w_db w) = Some (w_db w')) /\
  (ob = Return tt -> apply_all (sql P q) ps (w_db w) = Some (w_db w')).
Proof.
  intros H Hw.
  inversion H as [e pre lk He F Hlk D T A | c pre done failing e F Hf D T A
                  | c pre F Happ T A
                  | c pre done failing e n e' F He Hn Hf D T A]; subst.
  - repeat split; auto; congruence.
  - rewrite Hw in T. repeat split; auto; congruence.
  - rewrite Hw in T. rewrite (view_no_txn _ _ Hw) in Happ. auto.
  - rewrite Hw in T. repeat split; auto; congruence.
Qed.

(** The same for a call of [insert_crypto_data]. *)
Lemma ingest_run_data P api w w' o :
  ingest_run P api w w' o -> w_txn w = [] ->
  w_txn w' = [] /\
  (w_db w' = w_db w \/
   exists items, payload_items api = Return items /\
     apply_all (sql P insert_query) (valid_rows items) (w_db w) = Some (w_db w')) /\
  (forall n, o = Return n ->
     exists items, payload_items api = Return items /\
       apply_all (sql P insert_query) (valid_rows items) (w_db w) = Some (w_db w')).
Proof.
  intros H Hw.
  inversion H as [e logs F D T A | items0 logs Hi Hv F D T A
                  | items0 e logs Hi Hv F D T A
                  | items0 w1 w2 ob logs pre cl tail cs o0 Hi Hv F Fp D1 T1 A1 Hb Hcl Ft
                      D2 T2 A2 Ho]; subst.
  - repeat split; auto; congruence.
  - repeat split; auto; try congruence.
    intros n _. exists items0. split; [exact Hi|]. rewrite Hv, D. reflexivity.
  - repeat split; auto; congruence.
  - assert (Hw1 : w_txn w1 = []) by congruence.
    destruct (batch_run_data _ _ _ _ _ _ Hb Hw1) as (T3 & Hd & Hret).
    rewrite T3, fold_drop_txn_nil in T2. rewrite D1 in Hd, Hret.
    split; [exact T2|]. split.
    + destruct Hd as [Hd|Hd]; [left; congruence|].
      right. exists items0. split; [exact Hi|]. now rewrite D2.
    + intros n Hn. exists items0. split; [exact Hi|]. rewrite D2. apply Hret.
      destruct ob as [[]|e]; [reflexivity|discriminate].
Qed.


(** ** The job *)

Lemma neutral_before ev : is_neutral ev = true -> before_fetch ev = true.
Proof. now destruct ev. Qed.

Lemma neutral_after ev : is_neutral ev = true -> after_fetch ev = true.
Proof. now destruct ev. Qed.

Lemma setup_neutral ev : is_setup ev = true -> is_neutral ev = true.
Proof. now destruct ev. Qed.

Lemma log_neutral ev : is_Log ev = true -> is_neutral ev = true.
Proof. now destruct ev. Qed.

Lemma closing_neutral cl : closing cl -> forallb is_neutral cl = true.
Proof. now intros []. Qed.

Lemma steps_nil : steps_in_order [].
Proof.
  exists [], [], []. repeat split; auto; try contradiction; try (intros q ps []).
Qed.

Lemma steps_before evs : forallb before_fetch evs = true -> steps_in_order evs.
Proof.
  intros H. exists evs, [], []. rewrite app_nil_r.
  repeat split; auto; try contradiction; try (intros q ps []).
Qed.

Lemma steps_app_neutral evs tail :
  steps_in_order evs -> forallb is_neutral tail = true -> steps_in_order (evs ++ tail).
Proof.
  intros (s1 & s2 & s3 & -> & F1 & H2 & F3 & Hpre & Hb) Ft.
  exists s1, s2, (s3 ++ tail). rewrite <- !app_assoc. repeat split; auto.
  - rewrite forallb_app, F3. cbn. revert Ft. apply forallb_impl, neutral_after.
  - intros q ps Hin. apply in_app_or in Hin as [Hin|Hin]; [eauto|].
    rewrite forallb_forall in Ft. specialize (Ft _ Hin). discriminate.
Qed.

Lemma steps_neutral_app head evs :
  forallb is_neutral head = true -> steps_in_order evs -> steps_in_order (head ++ evs).
Proof.
  intros Fh (s1 & s2 & s3 & -> & F1 & H2 & F3 & Hpre & Hb).
  exists (head ++ s1), s2, s3. rewrite <- !app_assoc. repeat split; auto.
  - rewrite forallb_app, F1, andb_true_r. revert Fh. apply forallb_impl, neutral_before.
  - intros Hne. destruct (Hpre Hne) as (c & H1 & H3).
    exists c. split; apply in_or_app; auto.
Qed.

Lemma forallb_ran f c q ps :
  (forall p, f (ran c q p) = true) -> forallb f (map (ran c q) ps) = true.
Proof. intros H. induction ps; cbn; [reflexivity|]. now rewrite H. Qed.

Lemma forallb_rollback f c e :
  f (Rollback c) = true -> forallb f (rollback_events c e) = true.
Proof.
  intros H. unfold rollback_events. destruct (is_psycopg2_error e); cbn; [|reflexivity].
  now rewrite H.
Qed.

Lemma forallb_leak f lk : (forall c, f (Getconn c) = true) -> leak lk -> forallb f lk = true.
Proof. intros H []; cbn; [reflexivity|]. now rewrite H. Qed.

Lemma insert_is_not_ensure : String.eqb insert_query create_table_query = false.
Proof. vm_compute. reflexivity. Qed.

Lemma ensure_is_not_insert : String.eqb create_table_query insert_query = false.
Proof. vm_compute. reflexivity. Qed.

(** The events of a call of [execute_batch] with the insert statement
    are no table-ensure and no fetch. *)
Lemma batch_run_after_fetch P ps w w' ob :
  batch_run P insert_query ps w w' ob ->
  exists evs, added w w' evs /\ forallb after_fetch evs = true.
Proof.
  intros H.
  inversion H as [e pre lk He F Hlk D T A | c pre done failing e F Hf D T A
                  | c pre F Happ T A
                  | c pre done failing e n e' F He Hn Hf D T A];
    subst; eexists; (split; [exact A|]);
    cbn [forallb]; rewrite ?forallb_app; cbn [forallb];
    rewrite (forallb_impl _ after_fetch pre
               (fun ev Hev => neutral_after ev (setup_neutral ev Hev)) F).
  - now rewrite (forallb_leak after_fetch lk).
  - rewrite forallb_ran, forallb_rollback
      by (try intros p; unfold after_fetch, ran; cbn;
          now rewrite ?insert_is_not_ensure).
    destruct Hf as [(p & rest & _ & ->)|[_ ->]]; unfold after_fetch; cbn;
      now rewrite ?insert_is_not_ensure.
  - rewrite forallb_ran; [reflexivity|].
    intros p. unfold after_fetch, ran. cbn. now rewrite ?insert_is_not_ensure.
  - rewrite forallb_ran
      by (try intros p; unfold after_fetch, ran; cbn;
          now rewrite ?insert_is_not_ensure).
    destruct Hf as [(p & rest & _ & ->)|[_ ->]]; unfold after_fetch; cbn;
      now rewrite ?insert_is_not_ensure.
Qed.

Lemma ingest_run_after_fetch P api w w' o :
  ingest_run P api w w' o ->
  exists evs, added w w' evs /\ forallb after_fetch evs = true.
Proof.
  intros H.
  assert (Hlogs : forall l, forallb is_Log l = true -> forallb after_fetch l = true).
  { intros l. apply forallb_impl. intros ev Hev. now apply neutral_after, log_neutral. }
  inversion H as [e logs F D T A | items0 logs Hi Hv F D T A
                  | items0 e logs Hi Hv F D T A
                  | items0 w1 w2 ob logs pre cl tail cs o0 Hi Hv F Fp D1 T1 A1 Hb Hcl Ft
                      D2 T2 A2 Ho]; subst; try (eexists; split; [exact A|]; auto).
  destruct (batch_run_after_fetch _ _ _ _ _ Hb) as (bevs & Ab & Fb).
  eexists. split; [exact (added_trans _ _ _ _ _ (added_trans _ _ _ _ _ A1 Ab) A2)|].
  rewrite !forallb_app, Fb, (Hlogs _ F), (Hlogs _ Ft).
  rewrite (forallb_impl _ after_fetch pre
             (fun ev Hev => neutral_after ev (setup_neutral ev Hev)) Fp).
  rewrite (forallb_impl _ after_fetch cl neutral_after (closing_neutral _ Hcl)).
  reflexivity.
Qed.

(** The events of the table-ensure call are no fetch and no insert; when
    the call returns, the statement has run and has been committed. *)
Lemma ensure_run_before_fetch P fetchone fetchall w w' o :
  query_run P create_table_query None fetchone fetchall w w' o ->
  exists evs, added w w' evs /\ forallb before_fetch evs = true /\
    (forall r, o = Return r ->
       exists c, In (Executed c create_table_query None None) evs /\
                 In (Commit c None) evs).
Proof.
  intros H.
  inversion H as [e pre lk He F Hlk D T A | c pre steps e F Hs D T A
                  | c pre d rows r F Hsql D T Hr A
                  | c pre steps e n e' F He Hn Hs D T A]; subst; eexists;
    (split; [exact A|]); (split; [|]).
  - cbn [forallb]. rewrite forallb_app.
    rewrite (forallb_impl _ before_fetch pre
               (fun ev Hev => neutral_before ev (setup_neutral ev Hev)) F).
    now rewrite (forallb_leak before_fetch lk).
  - discriminate.
  - cbn [forallb]. rewrite !forallb_app.
    rewrite (forallb_impl _ before_fetch pre
               (fun ev Hev => neutral_before ev (setup_neutral ev Hev)) F).
    rewrite forallb_rollback by reflexivity.
    destruct Hs; unfold before_fetch; cbn; now rewrite ?ensure_is_not_insert.
  - discriminate.
  - cbn [forallb]. rewrite !forallb_app.
    rewrite (forallb_impl _ before_fetch pre
               (fun ev Hev => neutral_before ev (setup_neutral ev Hev)) F).
    unfold before_fetch. cbn. now rewrite ?ensure_is_not_insert.
  - intros r0 _. exists c. split.
    + right. apply in_or_app. right. cbn. auto.
    + right. apply in_or_app. right. cbn. auto.
  - cbn [forallb]. rewrite !forallb_app.
    rewrite (forallb_impl _ before_fetch pre
               (fun ev Hev => neutral_before ev (setup_neutral ev Hev)) F).
    destruct Hs; unfold before_fetch; cbn; now rewrite ?ensure_is_not_insert.
  - discriminate.
Qed.
Section Job.
Import PostgresManager.
Variable P : platform.

Lemma wp_from_block {L A} (m : M world A) (l : L) s Q :
  wp m (wd s) (fun o w' => Q o (l, mkState (self s) w')) ->
  wp (from_block m) (l, s) Q.
Proof. intros H. unfold from_block. apply wp_outer, wp_the_world. exact H. Qed.

Lemma get_latest_listings_events client w :
  wp (CoinMarketCapAPI.get_latest_listings P client 1 200 "USD") w
     (fun o w' => added w w' [the_fetch]).
Proof.
  unfold CoinMarketCapAPI.get_latest_listings, CoinMarketCapAPI._make_request.
  change (CoinMarketCapAPI.BASE_URL ++ "/cryptocurrency/listings/latest")%string
    with listings_url.
  fold (listings_params 1 200 "USD"). fold the_fetch.
  apply wp_try_except, wp_bind, wp_emit.
  destruct (http P listings_url (CoinMarketCapAPI.headers client)
                 (listings_params 1 200 "USD")) as [r|e].
  - apply wp_bind. unfold CoinMarketCapAPI.raise_for_status.
    destruct (_ && _).
    + apply wp_raise. destruct (is_request_exception _); [apply wp_ret|]; reflexivity.
    + apply wp_ret. apply wp_intro. intros o s' E. inversion E; subst.
      destruct (json_body r) as [v|e]; [reflexivity|].
      destruct (is_request_exception e); [apply wp_ret|]; reflexivity.
  - apply wp_raise. destruct (is_request_exception e); [apply wp_ret|]; reflexivity.
Qed.

Lemma steps_with_fetch s1 s3 c :
  forallb before_fetch s1 = true ->
  In (Executed c create_table_query None None) s1 -> In (Commit c None) s1 ->
  forallb after_fetch s3 = true ->
  steps_in_order (s1 ++ [the_fetch] ++ s3).
Proof.
  intros F1 H1 H2 F3. exists s1, [the_fetch], s3. repeat split; eauto; discriminate.
Qed.

(** The block of the job under its manager: the order of the steps. *)
Lemma job_block_steps client l s :
  wp (job_block P client) (l, s)
     (fun o ls => exists evs, added (wd s) (wd (snd ls)) evs /\ steps_in_order evs).
Proof.
  unfold job_block.
  apply wp_bind, wp_outer.
  eapply wp_weaken; [apply initialize_pool_spec|]. cbv beta.
  intros [[]|e] s1 (pre & E1 & Fpre & _).
  2:{ cbn [snd]. exists (rev pre). split; [now apply evolves_added|].
      apply steps_before. rewrite forallb_rev. revert Fpre.
      apply forallb_impl. intros ev Hev. now apply neutral_before, setup_neutral. }
  apply evolves_added in E1.
  assert (Fp : forallb before_fetch (rev pre) = true).
  { rewrite forallb_rev. revert Fpre.
    apply forallb_impl. intros ev Hev. now apply neutral_before, setup_neutral. }
  apply wp_bind, wp_from_block, wp_logger. cbn [wd self].
  set (l1 := Log INFO [Lit "Successfully connected to PostgreSQL"]).
  apply wp_bind, wp_outer.
  eapply wp_weaken; [apply execute_query_run|]. cbv beta. cbn [wd self].
  intros oq s2 Hq.
  destruct (ensure_run_before_fetch _ _ _ _ _ _ Hq) as (qevs & Aq & Fq & Hdone).
  assert (A2 : added (wd s) (wd s2) (rev pre ++ [l1] ++ qevs)).
  { unfold added in *. rewrite Aq. cbn [w_log set_log]. rewrite E1. log_eq. }
  assert (F2 : forallb before_fetch (rev pre ++ [l1] ++ qevs) = true).
  { rewrite !forallb_app, Fp, Fq. reflexivity. }
  destruct oq as [r|e].
  2:{ cbn [snd]. eexists. split; [exact A2|]. now apply steps_before. }
  destruct (Hdone r eq_refl) as (c & Hexec & Hcommit).
  apply wp_bind, wp_from_block, wp_logger. cbn [wd self].
  apply wp_bind, wp_from_block, wp_logger. cbn [wd self].
  set (l2 := Log INFO [Lit "Database table 'cryptocurrency_data' ensured."]).
  set (l3 := Log INFO [Lit "Fetching data from CoinMarketCap API"]).
  set (s1evs := rev pre ++ [l1] ++ qevs ++ [l2; l3]).
  assert (F1 : forallb before_fetch s1evs = true).
  { unfold s1evs. rewrite !forallb_app, Fp, Fq. reflexivity. }
  assert (Hex : In (Executed c create_table_query None None) s1evs).
  { unfold s1evs. apply in_or_app. right. apply in_or_app. right.
    apply in_or_app. now left. }
  assert (Hco : In (Commit c None) s1evs).
  { unfold s1evs. apply in_or_app. right. apply in_or_app. right.
    apply in_or_app. now left. }
  apply wp_bind, wp_from_block.
  eapply wp_weaken; [apply get_latest_listings_events|]. cbv beta. cbn [wd self].
  intros oa w3 A3.
  assert (A3' : added (wd s) w3 (s1evs ++ [the_fetch])).
  { unfold added in *. rewrite A3. cbn [w_log set_log]. rewrite A2.
    unfold s1evs. log_eq. }
  (* from here on the events are those of the third part *)
  assert (Hrest : forall w4 tail,
            added w3 w4 tail -> forallb after_fetch tail = true ->
            exists evs, added (wd s) w4 evs /\ steps_in_order evs).
  { intros w4 tail A4 F4. exists ((s1evs ++ [the_fetch]) ++ tail).
    split; [exact (added_trans _ _ _ _ _ A3' A4)|].
    rewrite <- app_assoc. now apply steps_with_fetch with (c := c). }
  destruct oa as [api|e].
  2:{ cbn [snd wd]. apply (Hrest w3 []); [reflexivity|reflexivity]. }
  apply wp_bind, wp_lift.
  destruct (py_in "error" api) as [[|]|e].
  3:{ cbn [snd wd]. apply (Hrest w3 []); reflexivity. }
  - apply wp_bind, wp_lift.
    destruct (py_item api "error") as [err|e].
    2:{ cbn [snd wd]. apply (Hrest w3 []); reflexivity. }
    apply wp_bind, wp_from_block, wp_logger. cbn [wd self].
    apply wp_bind, wp_set_local, wp_bind, wp_lift, wp_ret. cbn [snd wd].
    eapply Hrest; [|]; [unfold added; cbn [w_log set_log];
                        instantiate (1 := [Log ERROR [Lit "API Error: "; Val err]]);
                        reflexivity | reflexivity].
  - apply wp_bind, wp_from_block.
    eapply wp_weaken; [apply insert_crypto_data_run|]. cbv beta. cbn [wd self].
    intros oi w4 Hi.
    destruct (ingest_run_after_fetch _ _ _ _ _ Hi) as (ievs & Ai & Fi).
    destruct oi as [n|e].
    2:{ cbn [snd wd]. now apply (Hrest w4 ievs). }
    apply wp_bind, wp_from_block, wp_logger. cbn [wd self].
    apply wp_bind, wp_set_local, wp_ret. cbn [snd wd].
    apply (Hrest _ (ievs ++ [Log INFO [Lit "Job completed successfully"]])).
    + unfold added in *. cbn [w_log set_log]. rewrite Ai. log_eq.
    + rewrite forallb_app, Fi. reflexivity.
Qed.

End Job.
Section JobRun.
Import PostgresManager.
Variable P : platform.

Lemma closing_summary_spec j w :
  wp closing_summary (j, w)
     (fun o s' => o = Return tt /\
                  exists tail, added w (snd s') tail /\ forallb is_neutral tail = true).
Proof.
  unfold closing_summary.
  apply wp_bind, wp_get_local, wp_bind, wp_outer, wp_logger, wp_bind, wp_outer, wp_logger,
    wp_bind, wp_outer, wp_logger, wp_outer, wp_logger.
  cbn [snd]. split; [reflexivity|].
  eexists [_; _; _; _]. split; reflexivity.
Qed.

(** The job's [with] block, with the manager opened before it and closed
    after it. *)
Lemma managed_block_steps client j w :
  wp (with_manager P (job_block P client)) (j, w)
     (fun o s' => exists evs, added w (snd s') evs /\ steps_in_order evs).
Proof.
  apply wp_with_manager.
  destruct (__init__ P None None None None None 1 10) as [m|e].
  2:{ exists []. split; [reflexivity | apply steps_nil]. }
  apply wp_bind, wp_outer. unfold __enter__.
  eapply wp_weaken; [apply initialize_pool_spec|]. cbv beta. cbn [wd self].
  intros [[]|e] s1 (pre & E1 & Fpre & H1).
  2:{ cbn [fst snd]. exists (rev pre). split; [now apply evolves_added|].
      destruct H1 as (_ & _ & ->). apply steps_nil. }
  apply evolves_added in E1.
  apply wp_try_finally.
  eapply wp_weaken; [apply job_block_steps|]. cbv beta.
  intros o [j2 s2] (evs & A2 & Hsteps). cbn [snd] in A2.
  apply wp_outer. unfold __exit__.
  eapply wp_weaken; [apply close_pool_spec|]. cbv beta.
  intros oc s3 (-> & _ & cl & cs & Hcl & A3 & _). cbn [fst snd].
  exists ((rev pre ++ evs) ++ cl).
  split; [exact (added_trans _ _ _ _ _ (added_trans _ _ _ _ _ E1 A2) A3)|].
  apply steps_app_neutral; [|now apply closing_neutral].
  apply steps_neutral_app; [|exact Hsteps].
  rewrite forallb_rev. revert Fpre. apply forallb_impl, setup_neutral.
Qed.

Lemma job_steps w :
  wp (run_data_collection_job P) w
     (fun o w' => exists evs, added w w' evs /\ steps_in_order evs).
Proof.
  unfold run_data_collection_job.
  apply wp_with_locals, wp_bind, wp_outer, wp_logger, wp_bind, wp_outer, wp_logger,
    wp_bind, wp_outer, wp_logger.
  set (b1 := Log INFO [Lit "top banner"]).
  set (b2 := Log INFO [Lit "Starting Cryptocurrency Data Collection Job"]).
  set (b3 := Log INFO [Lit "bottom banner"]).
  set (w0 := set_log _ _).
  assert (A0 : added w w0 [b1; b2; b3]) by reflexivity.
  apply wp_bind, wp_try_finally, wp_try_except2.
  eapply wp_weaken with
    (Q := fun o s' => exists evs, added w0 (snd s') evs /\ steps_in_order evs).
  - cbv zeta. apply wp_bind.
    destruct (negb (present (environ P "COINMARKETCAP_API_KEY"))).
    + apply wp_bind, wp_outer, wp_logger, wp_raise. cbn [snd].
      eexists [_]. split; [reflexivity|]. now apply steps_before.
    + apply wp_ret, wp_bind, wp_outer, wp_logger.
      eapply wp_weaken; [apply managed_block_steps|]. cbv beta.
      intros o s' (evs & A & Hs).
      exists (Log INFO [Lit "Connecting to PostgreSQL database..."] :: evs).
      split.
      * unfold added in *. rewrite A. cbn [w_log set_log]. log_eq.
      * now apply (steps_neutral_app [_]).
  - cbv beta. intros o [j w1] (evs & A1 & Hs). cbn [snd] in A1.
    (* the handlers, the summary and the return add lines of the log only *)
    assert (Hdone : forall j' w2 tail,
      added w1 w2 tail -> forallb is_neutral tail = true ->
      wp closing_summary (j', w2)
        (fun (oc : outcome unit) s'' =>
           exists evs', added w (snd s'') evs' /\ steps_in_order evs')).
    { intros j' w2 tail A2 F2.
      eapply wp_weaken; [apply closing_summary_spec|]. cbv beta.
      intros oc s'' (-> & tail' & At & Ft).
      exists ((([b1; b2; b3] ++ evs) ++ tail) ++ tail').
      split; [exact (added_trans _ _ _ _ _
                       (added_trans _ _ _ _ _ (added_trans _ _ _ _ _ A0 A1) A2) At)|].
      apply steps_app_neutral; [|exact Ft].
      apply steps_app_neutral; [|exact F2].
      apply steps_neutral_app; [reflexivity | exact Hs]. }
    destruct o as [early|e].
    + eapply wp_weaken; [apply (Hdone j w1 []); reflexivity|]. cbv beta.
      intros [u|e] s'' H; [|exact H]. destruct early; apply wp_ret; exact H.
    + destruct (is_import_error e).
      * apply wp_bind, wp_outer, wp_logger, wp_bind, wp_set_local, wp_ret.
        eapply wp_weaken; [eapply (Hdone FAILED _ [_]); reflexivity|]. cbv beta.
        intros [u|e'] s'' H; [apply wp_ret|]; exact H.
      * destruct (is_Exception e).
        -- apply wp_bind, wp_outer, wp_logger, wp_bind, wp_set_local, wp_ret.
           eapply wp_weaken; [eapply (Hdone FAILED _ [_]); reflexivity|]. cbv beta.
           intros [u|e'] s'' H; [apply wp_ret|]; exact H.
        -- eapply wp_weaken; [apply (Hdone j w1 []); reflexivity|]. cbv beta.
           intros [u|e'] s'' H; exact H.
Qed.

End JobRun.
(** C4 (amended). In every job run the steps come in the order
    table-ensure, fetch, insert: the events of the run split into a
    part without fetch and insert, the fetch, and a part without
    table-ensure and fetch; the fetch is made only after the
    table-ensure statement has run and has been committed, and
    [execute_batch] is called only after the fetch. *)
Theorem job_steps_in_order P w o w' :
  run_data_collection_job P w = (o, w') ->
  steps_in_order (events_since w w').
Proof.
  intros Hrun.
  destruct (wp_run _ _ _ _ _ (job_steps P w) Hrun) as (evs & A & Hs).
  now rewrite (events_since_added _ _ _ A).
Qed.

(** C4 as stated fails: in a run that succeeds, the table-ensure
    statement is executed at position 10 of the log and the fetch is
    made at position 15, with no fetch before the table-ensure. *)
Lemma table_is_ensured_before_fetch :
  let run := run_data_collection_job live_platform empty_world in
  let evs := events_since empty_world (snd run) in
  fst run = Return (mkResult "success"
                      (PyStr "Data collection job completed successfully") 200) /\
  nth_error evs 10 = Some (Executed 0 create_table_query None None) /\
  nth_error evs 15 = Some the_fetch /\
  existsb is_fetch (firstn 10 evs) = false /\
  existsb is_table_ensure (skipn 15 evs) = false.
Proof. vm_compute. repeat split. Qed.

Lemma job_steps_in_order_witness :
  let run := run_data_collection_job live_platform empty_world in
  run = (fst run, snd run) /\
  steps_in_order (events_since empty_world (snd run)).
Proof.
  set (run := run_data_collection_job live_platform empty_world).
  cbv zeta. split; [apply surjective_pairing|].
  exact (job_steps_in_order live_platform empty_world (fst run) (snd run)
           (surjective_pairing run)).
Defined.
(** * Further properties of the code *)

(** ** The manager's executing methods *)

Section MoreManager.
Import PostgresManager.












(** X4. In every call of [execute_query] and of [execute_batch], a
    connection on which a cursor was opened is put back into the pool
    exactly once, and no connection is taken out more than once. *)
Theorem connection_released_as_opened P s c :
  (forall q params fetchone fetchall o s',
     execute_query P q params fetchone fetchall s = (o, s') ->
     let evs := events_since (wd s) (wd s') in
     released c evs = opened c evs /\ opened c evs <= taken c evs /\ taken c evs <= 1) /\
  (forall q ps o s',
     execute_batch P q ps s = (o, s') ->
     let evs := events_since (wd s) (wd s') in
     released c evs = opened c evs /\ opened c evs <= taken c evs /\ taken c evs <= 1).
Proof.
  split.
  - intros q params fo fa o s'. apply execute_query_balance.
  - intros q ps o s'. apply execute_batch_balance.
Qed.

Lemma connection_released_as_opened_witness :
  let run := execute_batch strict_platform insert_query ten_rows fresh_state in
  let evs := events_since (wd fresh_state) (wd (snd run)) in
  run = (fst run, snd run) /\
  (released 0 evs = opened 0 evs /\ opened 0 evs <= taken 0 evs /\ taken 0 evs <= 1) /\
  opened 0 evs = 1.
Proof.
  set (run := execute_batch strict_platform insert_query ten_rows fresh_state).
  cbv zeta. split; [apply surjective_pairing|]. split.
  - exact (proj2 (connection_released_as_opened strict_platform fresh_state 0)
                 insert_query ten_rows _ _ (surjective_pairing run)).
  - vm_compute. reflexivity.
Defined.

End MoreManager.
(** ** The ingestion, further *)

(** X5. The loop of [insert_crypto_data] over entries that are all
    objects never raises: it ends with the rows of the valid entries, in
    the order of the payload, after the rows it started with, and with
    one log line for each entry it left out; nothing else in the world
    changes. *)
Theorem loop_collects_valid_rows_in_order items rows w :
  forallb is_dict items = true ->
  for_each items process_item (rows, w)
  = (Return tt, (rows ++ valid_rows items,
                 set_log (rev (skip_log items) ++ w_log w) w)).
Proof. apply for_each_process_item. Qed.

Lemma loop_collects_valid_rows_in_order_witness :
  forallb is_dict mixed_items = true /\
  for_each mixed_items process_item ([], empty_world)
  = (Return tt,
     ([[PyStr "Bitcoin"; PyStr "BTC"; PyNone; PyFloat 42000 1; PyNone; PyNone;
        PyStr "2024-01-15 10:30:00.000"]],
      set_log [Log ERROR [Lit "Error processing item: "; Val (PyStr "Ether"); Lit " - ";
                          Lit "'int' object has no attribute 'replace'"];
               Log WARNING [Lit "Skipping incomplete record: "; Val (PyStr "Bitcoin")]]
              empty_world)).
Proof.
  split; [reflexivity|].
  exact (loop_collects_valid_rows_in_order mixed_items [] empty_world eq_refl).
Defined.

(** X6. An entry (an object) whose four required fields are all true
    but whose last_updated is not a string is left out of the batch:
    [.replace] raises AttributeError, the handler logs an error that
    names the type, and the loop goes on. *)
Theorem non_string_timestamp_is_skipped d rows w v :
  field (PyDict d) LAST_UPDATED = Some v ->
  (forall s, v <> PyStr s) ->
  py_all [value_of (PyDict d) NAME; value_of (PyDict d) SYMBOL;
          value_of (PyDict d) PRICE; v] = true ->
  process_item (PyDict d) (rows, w)
  = (Return tt,
     (rows, set_log (Log ERROR [Lit "Error processing item: "; Val (shown_name (PyDict d));
                                Lit " - ";
                                Lit ("'" ++ type_name v
                                         ++ "' object has no attribute 'replace'")%string]
                       :: w_log w) w)).
Proof.
  intros Hf Hv Hall. rewrite process_item_dict.
  unfold row_of, skip_event. rewrite (field_quote_well_nested _ _ _ Hf).
  rewrite (value_of_field _ _ _ Hf), Hall. cbn [is_dict andb].
  rewrite (normalize_timestamp_not_str v Hv). reflexivity.
Qed.

Lemma non_string_timestamp_is_skipped_witness :
  (field numeric_timestamp_entry LAST_UPDATED = Some (PyInt 1705314600) /\
   (forall s, PyInt 1705314600 <> PyStr s) /\
   py_all [value_of numeric_timestamp_entry NAME; value_of numeric_timestamp_entry SYMBOL;
           value_of numeric_timestamp_entry PRICE; PyInt 1705314600] = true) /\
  process_item numeric_timestamp_entry ([], empty_world)
  = (Return tt,
     ([], set_log [Log ERROR [Lit "Error processing item: "; Val (PyStr "Ether");
                              Lit " - ";
                              Lit "'int' object has no attribute 'replace'"]]
                  empty_world)).
Proof.
  assert (Hv : forall s, PyInt 1705314600 <> PyStr s) by discriminate.
  split; [split; [reflexivity | split; [exact Hv | reflexivity]]|].
  exact (non_string_timestamp_is_skipped numeric_timestamp_fields [] empty_world
           (PyInt 1705314600) eq_refl Hv eq_refl).
Defined.



Lemma ingest_run_count P api w n w' :
  ingest_run P api w w' (Return n) ->
  exists items, payload_items api = Return items /\ n = length (valid_rows items).
Proof.
  intros H.
  inversion H as [ | items0 logs Hi Hv F D T A |
                  | items0 w1 w2 ob logs pre cl tail cs o0 Hi Hv F Fp D1 T1 A1 Hb Hcl Ft
                      D2 T2 A2 Ho]; subst.
  - exists items0. now rewrite Hv.
  - exists items0. split; [exact Hi|]. destruct ob; now inversion Ho.
Qed.

(** X8. The number [insert_crypto_data] returns is the number of valid
    entries of the payload, the rows it attempted, whether or not the
    server stored any of them. *)
Theorem ingestion_returns_attempted_count P api w n w' :
  insert_crypto_data P api w = (Return n, w') ->
  exists items, payload_items api = Return items /\ n = length (valid_rows items).
Proof.
  intros Hrun. apply (ingest_run_count P api w n w').
  exact (wp_run _ _ _ _ _ (insert_crypto_data_run P api w) Hrun).
Qed.

Lemma ingestion_returns_attempted_count_witness :
  let first := insert_crypto_data plain_platform mixed_payload ready_world in
  let second := insert_crypto_data plain_platform mixed_payload (snd first) in
  second = (Return 1, snd second) /\
  w_db (snd second) = w_db (snd first) /\
  exists items, payload_items mixed_payload = Return items /\
                1 = length (valid_rows items).
Proof.
  set (first := insert_crypto_data plain_platform mixed_payload ready_world).
  set (second := insert_crypto_data plain_platform mixed_payload (snd first)).
  cbv zeta.
  assert (Hrun : second = (Return 1, snd second)) by (vm_compute; reflexivity).
  split; [exact Hrun|]. split; [vm_compute; reflexivity|].
  exact (ingestion_returns_attempted_count plain_platform mixed_payload (snd first) 1
           (snd second) Hrun).
Defined.

(** X9. On PostgreSQL, [insert_crypto_data] cannot store anything while
    the table is missing: started with no transaction open on a
    database without the table, it returns only when the payload has no
    valid entry, and in every case the table is still missing. *)
Theorem ingestion_needs_the_table env net accepts flt api w o w' :
  let P := pg_platform env net accepts flt in
  insert_crypto_data P api w = (o, w') ->
  w_txn w = [] -> lookup_table TABLE (w_db w) = None ->
  w_db w' = w_db w /\ (forall n, o = Return n -> n = 0).
Proof.
  intros P Hrun Hw Ht.
  pose proof (wp_run _ _ _ _ _ (insert_crypto_data_run P api w) Hrun) as H.
  destruct (ingest_run_data _ _ _ _ _ H Hw) as (_ & Hd & Hret).
  change (sql P insert_query) with (pg_sql accepts insert_query) in *.
  assert (Hnil : forall rows d,
            apply_all (pg_sql accepts insert_query) rows (w_db w) = Some d ->
            rows = [] /\ d = w_db w).
  { intros [|r rows] d Ha; cbn [apply_all] in Ha.
    - inversion Ha. auto.
    - rewrite pg_insert, Ht in Ha. discriminate. }
  split.
  - destruct Hd as [Hd|(items & _ & Ha)]; [exact Hd|].
    destruct (Hnil _ _ Ha) as [_ Hdb]. exact Hdb.
  - intros n Hn. destruct (Hret n Hn) as (items & Hi & Ha).
    destruct (Hnil _ _ Ha) as [Hrows _].
    subst o. destruct (ingest_run_count P api w n w' H) as (items' & Hi' & ->).
    rewrite Hi in Hi'. inversion Hi'; subst. now rewrite Hrows.
Qed.

Lemma ingestion_needs_the_table_witness :
  let run := insert_crypto_data plain_platform one_entry_payload empty_world in
  (run = (fst run, snd run) /\ w_txn empty_world = [] /\
   lookup_table TABLE (w_db empty_world) = None) /\
  w_db (snd run) = w_db empty_world /\
  fst run = Raise (mkExn DatabaseError
    "Batch execution failed: relation 'cryptocurrency_data' does not exist").
Proof.
  set (run := insert_crypto_data plain_platform one_entry_payload empty_world).
  cbv zeta.
  split; [split; [apply surjective_pairing | split; reflexivity]|].
  split; [|vm_compute; reflexivity].
  exact (proj1 (ingestion_needs_the_table full_env dead_net (fun _ => true) no_fault
                  one_entry_payload empty_world (fst run) (snd run)
                  (surjective_pairing run) eq_refl eq_refl)).
Defined.
(** ** The manager's life cycle *)

Section LifeCycle.
Import PostgresManager.
Variable P : platform.

Lemma present_or_else x y : present x = true -> or_else x y = x.
Proof. unfold or_else. now intros ->. Qed.

Lemma absent_or_else x y : present x = false -> or_else x y = y.
Proof. unfold or_else. now intros ->. Qed.

(** X10. A manager that [__init__] returns has a database name, a user
    and a password, each not empty, and no pool yet; an argument that
    is given and not empty is taken as it is, before the environment.
    When the database name is neither given nor in the environment,
    [__init__] raises ValueError. *)
Theorem constructed_manager_has_credentials h p d u pw minc maxc :
  (forall m, __init__ P h p d u pw minc maxc = Return m ->
     present (database m) = true /\ present (user m) = true /\
     present (password m) = true /\ connection_pool m = None /\
     min_connections m = minc /\ max_connections m = maxc /\
     (present h = true -> host m = h) /\ (present p = true -> port m = p) /\
     (present d = true -> database m = d) /\ (present u = true -> user m = u) /\
     (present pw = true -> password m = pw)) /\
  (present d = false -> present (environ P "DB_NAME") = false ->
   __init__ P h p d u pw minc maxc
   = Raise (mkExn ValueError "Database name, user, and password must be provided.")).
Proof.
  split.
  - intros m H. unfold __init__ in H.
    destruct (present (or_else d (environ P "DB_NAME"))) eqn:Hd;
      [|cbn in H; discriminate].
    destruct (present (or_else u (environ P "DB_USER"))) eqn:Hu;
      [|cbn in H; discriminate].
    destruct (present (or_else pw (environ P "DB_PASSWORD"))) eqn:Hpw;
      [|cbn in H; discriminate].
    cbn in H. inversion H; subst; cbn.
    repeat split; auto using present_or_else.
  - intros Hd He. unfold __init__.
    rewrite (absent_or_else d _ Hd), He. reflexivity.
Qed.

(** X11. Opening the pool is idempotent: once [initialize_pool] has
    returned, a further call returns at once and changes neither the
    manager nor the world. *)
Theorem initialize_pool_is_idempotent s s1 :
  initialize_pool P s = (Return tt, s1) ->
  initialize_pool P s1 = (Return tt, s1).
Proof.
  intros Hrun.
  destruct (wp_run _ _ _ _ _ (initialize_pool_spec P s) Hrun) as (pre & _ & _ & Hp).
  unfold has_pool in Hp. unfold initialize_pool, bind, get_self.
  destruct (connection_pool (self s1)); [reflexivity | discriminate].
Qed.

(** X12. When the pool cannot be created because the driver raises a
    [psycopg2.Error], [initialize_pool] raises a ConnectionError that
    carries the driver's message; the manager still has no pool and
    nothing is logged. *)
Theorem pool_creation_failure_is_connection_error s e :
  connection_pool (self s) = None ->
  fault P (w_clock (wd s)) = Some e -> is_psycopg2_error e = true ->
  initialize_pool P s
  = (Raise (mkExn ConnectionError
              ("Failed to initialize connection pool: " ++ exn_msg e)%string),
     mkState (self s) (set_clock (S (w_clock (wd s))) (wd s))).
Proof.
  intros Hp Hf He.
  unfold initialize_pool, bind, get_self, try_except, the_world, zoom,
    Psycopg2.new_pool, Psycopg2.tick, raise.
  rewrite Hp. cbn. rewrite Hf. cbn. rewrite He. reflexivity.
Qed.

Lemma close_pool_leaves_no_pool s o s1 :
  close_pool s = (o, s1) -> o = Return tt /\ connection_pool (self s1) = None.
Proof.
  unfold close_pool, bind, get_self, put_self, the_world, zoom, Psycopg2.closeall, emit.
  destruct (connection_pool (self s)) as [p|] eqn:Hp; cbn; intros H;
    inversion H; subst; cbn; rewrite ?Hp; auto.
Qed.

(** X13. Closing the pool is idempotent, and leaves the manager without
    a pool: after any call of [close_pool], a further call returns at
    once and changes nothing. *)
Theorem close_pool_is_idempotent s o s1 :
  close_pool s = (o, s1) ->
  o = Return tt /\ connection_pool (self s1) = None /\
  close_pool s1 = (Return tt, s1).
Proof.
  intros H. destruct (close_pool_leaves_no_pool s o s1 H) as (Ho & Hp).
  repeat split; auto.
  unfold close_pool, bind, get_self. rewrite Hp. reflexivity.
Qed.

(** X14. The pool does not outlive the [with] block: for a manager
    that comes without a pool, however the block ends (by returning, by
    raising, or because entering already failed), the manager has no
    pool afterwards. *)
Theorem pool_does_not_outlive_with_block {L A} (body : M (L * mstate) A) l s o ls :
  connection_pool (self s) = None ->
  (outer (__enter__ P) ;; try_finally body (outer __exit__)) (l, s) = (o, ls) ->
  connection_pool (self (snd ls)) = None.
Proof.
  intros Hp Hrun.
  assert (H : wp (outer (__enter__ P) ;; try_finally body (outer __exit__)) (l, s)
                 (fun _ ls => connection_pool (self (snd ls)) = None)).
  { apply wp_bind, wp_outer. unfold __enter__.
    eapply wp_weaken; [apply initialize_pool_spec|]. cbv beta.
    intros [[]|e] s1 (pre & _ & _ & H1).
    - apply wp_try_finally, wp_intro. intros ob [l2 s2] _.
      apply wp_outer, wp_intro. intros oc s3 Hc. unfold __exit__ in Hc.
      destruct (close_pool_leaves_no_pool _ _ _ Hc) as (-> & Hnone). exact Hnone.
    - destruct H1 as (_ & H1 & _). cbn. rewrite H1. exact Hp. }
  exact (wp_run _ _ _ _ _ H Hrun).
Qed.

End LifeCycle.

Lemma constructed_manager_has_credentials_witness :
  (PostgresManager.__init__ plain_platform None None (Some "warehouse") None None 1 10
   = Return (PostgresManager.mk (Some "localhost") (Some "5432") (Some "warehouse") (Some "job")
                (Some "secret") None 1 10) /\
   present (Some "warehouse") = true) /\
  PostgresManager.database (PostgresManager.mk (Some "localhost") (Some "5432") (Some "warehouse") (Some "job")
               (Some "secret") None 1 10) = Some "warehouse".
Proof.
  split; [split; reflexivity|].
  exact (proj1 (proj2 (proj2 (proj2 (proj2 (proj2 (proj2 (proj2 (proj2
           (proj1 (constructed_manager_has_credentials plain_platform None None
                     (Some "warehouse") None None 1 10) _ eq_refl)))))))))
           eq_refl).
Defined.


Lemma initialize_pool_is_idempotent_witness :
  let first := PostgresManager.initialize_pool plain_platform fresh_state in
  first = (Return tt, snd first) /\
  PostgresManager.initialize_pool plain_platform (snd first) = (Return tt, snd first).
Proof.
  set (first := PostgresManager.initialize_pool plain_platform fresh_state).
  cbv zeta.
  assert (H : first = (Return tt, snd first)) by (vm_compute; reflexivity).
  split; [exact H|].
  exact (initialize_pool_is_idempotent plain_platform fresh_state (snd first) H).
Defined.

Lemma pool_creation_failure_is_connection_error_witness :
  (PostgresManager.connection_pool (PostgresManager.self bare_state) = None /\
   fault down_platform (w_clock (PostgresManager.wd bare_state)) = Some server_down /\
   is_psycopg2_error server_down = true) /\
  PostgresManager.initialize_pool down_platform bare_state
  = (Raise (mkExn ConnectionError
              "Failed to initialize connection pool: could not connect to server"),
     PostgresManager.mkState fresh_manager (set_clock 1 empty_world)).
Proof.
  split; [repeat split|].
  exact (pool_creation_failure_is_connection_error down_platform bare_state server_down
           eq_refl eq_refl eq_refl).
Defined.

Lemma close_pool_is_idempotent_witness :
  let opened := snd (PostgresManager.initialize_pool plain_platform fresh_state) in
  let closed := PostgresManager.close_pool opened in
  closed = (fst closed, snd closed) /\
  has_pool (PostgresManager.self opened) = true /\
  fst closed = Return tt /\
  PostgresManager.connection_pool (PostgresManager.self (snd closed)) = None /\
  PostgresManager.close_pool (snd closed) = (Return tt, snd closed).
Proof.
  set (opened := snd (PostgresManager.initialize_pool plain_platform fresh_state)).
  set (closed := PostgresManager.close_pool opened).
  cbv zeta. split; [apply surjective_pairing|]. split; [vm_compute; reflexivity|].
  exact (close_pool_is_idempotent opened (fst closed) (snd closed)
           (surjective_pairing closed)).
Defined.

Lemma pool_does_not_outlive_with_block_witness :
  let block : M (unit * PostgresManager.mstate) unit :=
    outer (PostgresManager.execute_batch strict_platform insert_query ten_rows) in
  let run := (outer (PostgresManager.__enter__ strict_platform) ;;
              try_finally block (outer PostgresManager.__exit__)) (tt, fresh_state) in
  (PostgresManager.connection_pool (PostgresManager.self fresh_state) = None /\
   run = (fst run, snd run)) /\
  returned (fst run) = false /\
  PostgresManager.connection_pool (PostgresManager.self (snd (snd run))) = None.
Proof.
  set (block := outer (PostgresManager.execute_batch strict_platform insert_query ten_rows)
                : M (unit * PostgresManager.mstate) unit).
  set (run := (outer (PostgresManager.__enter__ strict_platform) ;;
               try_finally block (outer PostgresManager.__exit__)) (tt, fresh_state)).
  cbv zeta. split; [split; [reflexivity | apply surjective_pairing]|].
  split; [vm_compute; reflexivity|].
  exact (pool_does_not_outlive_with_block strict_platform block tt fresh_state
           (fst run) (snd run) eq_refl (surjective_pairing run)).
Defined.
(** ** Handing out a connection *)

Section OnDemand.
Import PostgresManager.
Variable P : platform.

Lemma initialize_pool_opening s :
  wp (initialize_pool P) s
     (fun o s' => match o with
                  | Return _ => has_pool (self s') = true /\
                                added (wd s) (wd s') (pool_opening (self s))
                  | Raise _ => True
                  end).
Proof.
  unfold initialize_pool. apply wp_bind, wp_get_self.
  unfold pool_opening, has_pool.
  destruct (connection_pool (self s)) eqn:Hp.
  - apply wp_ret. rewrite Hp. split; reflexivity.
  - apply wp_try_except, wp_bind, wp_the_world.
    eapply wp_weaken; [apply new_pool_spec|]. cbv beta.
    intros [p|e] w' H.
    + apply wp_bind, wp_put_self, wp_the_world, wp_emit. cbn.
      split; [reflexivity|]. destruct H as (_ & _ & L). unfold added. cbn.
      now rewrite L.
    + destruct (is_psycopg2_error e); [apply wp_raise|]; exact I.
Qed.

(** X15. [get_connection] opens the pool on demand.  When it returns a
    connection, what it did is: open the pool with the manager's two
    sizes if the manager had none (and nothing of the kind if it had
    one), take one connection from the pool, and open one cursor on
    that connection; the manager has a pool afterwards and the cursor
    holds no result. *)
Theorem get_connection_opens_pool_on_demand s c cur s' :
  get_connection P s = (Return (c, cur), s') ->
  events_since (wd s) (wd s')
  = pool_opening (self s) ++ [Getconn c; CursorOpened c] /\
  has_pool (self s') = true /\ cur = Psycopg2.mkCursor c None.
Proof.
  intros Hrun.
  assert (H : wp (get_connection P) s
                 (fun o s' => match o with
                              | Return cc =>
                                  added (wd s) (wd s')
                                    (pool_opening (self s)
                                     ++ [Getconn (fst cc); CursorOpened (fst cc)]) /\
                                  has_pool (self s') = true /\
                                  snd cc = Psycopg2.mkCursor (fst cc) None
                              | Raise _ => True
                              end)).
  { unfold get_connection. apply wp_bind, wp_get_self, wp_bind, wp_when.
    assert (Hstep : forall s1, has_pool (self s1) = true ->
              added (wd s) (wd s1) (pool_opening (self s)) ->
              wp (try_except
                    (m <- get_self;;
                     match connection_pool m with
                     | Some p =>
                         cp <- the_world (Psycopg2.getconn P p);;
                         put_self (set_connection_pool (Some (snd cp)) m);;
                         cursor <- the_world (Psycopg2.open_cursor P (fst cp));;
                         ret (fst cp, cursor)
                     | None => raise (attr_error PyNone "getconn")
                     end) is_psycopg2_error
                    (fun e : exn =>
                       raise (mkExn ConnectionError
                                ("Failed to get connection from pool: " ++ exn_msg e)%string)))
                 s1
                 (fun o s' => match o with
                              | Return cc =>
                                  added (wd s) (wd s')
                                    (pool_opening (self s)
                                     ++ [Getconn (fst cc); CursorOpened (fst cc)]) /\
                                  has_pool (self s') = true /\
                                  snd cc = Psycopg2.mkCursor (fst cc) None
                              | Raise _ => True
                              end)).
    { intros s1 Hs1 A1.
      apply wp_try_except, wp_bind, wp_get_self.
      unfold has_pool in Hs1.
      destruct (connection_pool (self s1)) as [p|]; [|discriminate].
      apply wp_bind, wp_the_world. eapply wp_weaken; [apply getconn_spec|].
      cbv beta. intros [[c0 p']|e] w2 H2.
      - destruct H2 as (_ & _ & L2).
        apply wp_bind, wp_put_self, wp_bind, wp_the_world.
        eapply wp_weaken; [apply open_cursor_spec|]. cbv beta. cbn [wd self fst snd].
        intros [cur0|e] w3 H3.
        + destruct H3 as (-> & _ & _ & L3). apply wp_ret. cbn [fst snd wd self].
          split; [|split; reflexivity].
          unfold added in *. rewrite L3, L2, A1. cbn [fst app].
          rewrite rev_app_distr. reflexivity.
        + destruct (is_psycopg2_error e); [apply wp_raise|]; exact I.
      - destruct (is_psycopg2_error e); [apply wp_raise|]; exact I. }
    destruct (connection_pool (self s)) eqn:Hp.
    - apply Hstep.
      + unfold has_pool. now rewrite Hp.
      + unfold pool_opening, has_pool. rewrite Hp. reflexivity.
    - eapply wp_weaken; [apply initialize_pool_opening|]. cbv beta.
      intros [[]|e] s1 H1; [|exact I]. destruct H1 as (Hs1 & A1).
      now apply Hstep. }
  apply (wp_run _ _ _ _ _ H) in Hrun. cbn [fst snd] in Hrun.
  destruct Hrun as (A & Hp & Hc). repeat split; auto.
  now apply events_since_added.
Qed.

End OnDemand.

Lemma get_connection_opens_pool_on_demand_witness :
  let run := PostgresManager.get_connection plain_platform fresh_state in
  run = (Return (0, Psycopg2.mkCursor 0 None), snd run) /\
  events_since (PostgresManager.wd fresh_state) (PostgresManager.wd (snd run))
  = [PoolCreated 1 10;
     Print [Lit "Connection pool initialized with "; Count 1; Lit "-"; Count 10;
            Lit " connections"];
     Getconn 0; CursorOpened 0].
Proof.
  set (run := PostgresManager.get_connection plain_platform fresh_state).
  cbv zeta.
  assert (H : run = (Return (0, Psycopg2.mkCursor 0 None), snd run))
    by (vm_compute; reflexivity).
  split; [exact H|].
  exact (proj1 (get_connection_opens_pool_on_demand plain_platform fresh_state 0
                  (Psycopg2.mkCursor 0 None) (snd run) H)).
Defined.

(** ** The client of the listing service *)

Section ClientMore.
Variable P : platform.
Variable client : CoinMarketCapAPI.t.

Lemma make_request_world endpoint params w :
  snd (CoinMarketCapAPI._make_request P client endpoint params w)
  = set_log (HttpGet endpoint params :: w_log w) w.
Proof.
  unfold CoinMarketCapAPI._make_request, try_except, bind, emit,
    CoinMarketCapAPI.raise_for_status, raise, ret.
  cbn [fst snd].
  destruct (http P endpoint (CoinMarketCapAPI.headers client) params) as [r|e]; cbn.
  - destruct ((400 <=? status_code r)%Z && (status_code r <? 600)%Z); cbn.
    + reflexivity.
    + destruct (json_body r) as [v|e]; cbn; [reflexivity|].
      destruct (is_request_exception e); reflexivity.
  - destruct (is_request_exception e); reflexivity.
Qed.

(** X16. A call of [get_latest_listings] makes one GET request, to the
    listings endpoint with the parameters start, limit and convert,
    and does nothing else to the world, whether the request succeeds,
    fails or raises: the data, the open transactions and the pool's
    connections are as before. *)
Theorem listing_call_makes_one_request start limit convert w :
  snd (CoinMarketCapAPI.get_latest_listings P client start limit convert w)
  = set_log (HttpGet listings_url (listings_params start limit convert) :: w_log w) w.
Proof.
  unfold CoinMarketCapAPI.get_latest_listings. cbv zeta.
  rewrite make_request_world. reflexivity.
Qed.

(** X17. When the service answers with a status outside 400..599 and
    the body can be decoded, the decoded body is what the call
    returns, whatever it is. *)
Theorem successful_response_is_returned endpoint params r v w :
  http P endpoint (CoinMarketCapAPI.headers client) params = NetResponse r ->
  (status_code r < 400 \/ 600 <= status_code r)%Z ->
  json_body r = Return v ->
  fst (CoinMarketCapAPI._make_request P client endpoint params w) = Return v.
Proof.
  intros Hh Hs Hj.
  unfold CoinMarketCapAPI._make_request, try_except, bind, emit,
    CoinMarketCapAPI.raise_for_status, raise, ret.
  cbn [fst snd]. rewrite Hh.
  replace ((400 <=? status_code r)%Z && (status_code r <? 600)%Z) with false.
  - cbn. rewrite Hj. reflexivity.
  - symmetry. apply andb_false_iff.
    destruct Hs; [left; apply Z.leb_gt | right; apply Z.ltb_ge]; lia.
Qed.

(** X18. Only a [RequestException] is turned into an error object: an
    exception of another class, raised by the transport or while the
    body of an accepted response is decoded, is raised to the
    caller. *)
Theorem foreign_exception_passes_through endpoint params e w :
  is_request_exception e = false ->
  http P endpoint (CoinMarketCapAPI.headers client) params = NetRaises e \/
  (exists r, http P endpoint (CoinMarketCapAPI.headers client) params = NetResponse r /\
             (status_code r < 400 \/ 600 <= status_code r)%Z /\
             json_body r = Raise e) ->
  fst (CoinMarketCapAPI._make_request P client endpoint params w) = Raise e.
Proof.
  intros He H.
  unfold CoinMarketCapAPI._make_request, try_except, bind, emit,
    CoinMarketCapAPI.raise_for_status, raise, ret.
  cbn [fst snd].
  destruct H as [Hh | (r & Hh & Hs & Hj)]; rewrite Hh.
  - cbn. rewrite He. reflexivity.
  - replace ((400 <=? status_code r)%Z && (status_code r <? 600)%Z) with false.
    + cbn. rewrite Hj. cbn. rewrite He. reflexivity.
    + symmetry. apply andb_false_iff.
      destruct Hs; [left; apply Z.leb_gt | right; apply Z.ltb_ge]; lia.
Qed.

End ClientMore.

Lemma successful_response_is_returned_witness :
  (http (answering_platform empty_listing) listings_url
        (CoinMarketCapAPI.headers (CoinMarketCapAPI.__init__ "key"))
        (listings_params 1 200 "USD") = NetResponse empty_listing /\
   (status_code empty_listing < 400 \/ 600 <= status_code empty_listing)%Z /\
   json_body empty_listing = Return empty_payload) /\
  fst (CoinMarketCapAPI._make_request (answering_platform empty_listing)
         (CoinMarketCapAPI.__init__ "key") listings_url (listings_params 1 200 "USD")
         empty_world)
  = Return empty_payload.
Proof.
  assert (Hs : (status_code empty_listing < 400 \/ 600 <= status_code empty_listing)%Z)
    by (left; reflexivity).
  split; [split; [reflexivity | split; [exact Hs | reflexivity]]|].
  exact (successful_response_is_returned (answering_platform empty_listing)
           (CoinMarketCapAPI.__init__ "key") listings_url (listings_params 1 200 "USD")
           empty_listing empty_payload empty_world eq_refl Hs eq_refl).
Defined.

Lemma foreign_exception_passes_through_witness :
  (is_request_exception not_json = false /\
   http (answering_platform undecodable) listings_url
        (CoinMarketCapAPI.headers (CoinMarketCapAPI.__init__ "key"))
        (listings_params 1 200 "USD") = NetResponse undecodable /\
   (status_code undecodable < 400 \/ 600 <= status_code undecodable)%Z /\
   json_body undecodable = Raise not_json) /\
  fst (CoinMarketCapAPI._make_request (answering_platform undecodable)
         (CoinMarketCapAPI.__init__ "key") listings_url (listings_params 1 200 "USD")
         empty_world)
  = Raise not_json.
Proof.
  assert (Hs : (status_code undecodable < 400 \/ 600 <= status_code undecodable)%Z)
    by (left; reflexivity).
  split; [split; [reflexivity | split; [reflexivity | split; [exact Hs | reflexivity]]]|].
  refine (foreign_exception_passes_through (answering_platform undecodable)
            (CoinMarketCapAPI.__init__ "key") listings_url (listings_params 1 200 "USD")
            not_json empty_world eq_refl _).
  right. exists undecodable. split; [reflexivity | split; [exact Hs | reflexivity]].
Defined.
(** ** How a job run ends *)

Section JobOutcome.
Import PostgresManager.
Variable P : platform.

Lemma wp_conj {S A} (m : M S A) s (Q1 Q2 : outcome A -> S -> Prop) :
  wp m s Q1 -> wp m s Q2 -> wp m s (fun o s' => Q1 o s' /\ Q2 o s').
Proof.
  intros H1 H2. apply wp_intro. intros o s' E.
  split; [exact (wp_run _ _ _ _ _ H1 E) | exact (wp_run _ _ _ _ _ H2 E)].
Qed.

Lemma job_block_outcome client s :
  wp (job_block P client) (SUCCESS, s) (fun o ls => status_agrees o (fst ls)).
Proof.
  unfold job_block.
  apply wp_bind, wp_outer. apply wp_intro. intros [[]|e] s1 _; [|reflexivity].
  apply wp_bind, wp_from_block, wp_logger.
  apply wp_bind, wp_outer. apply wp_intro. intros [q|e] s2 _; [|reflexivity].
  apply wp_bind, wp_from_block, wp_logger.
  apply wp_bind, wp_from_block, wp_logger.
  apply wp_bind, wp_from_block. apply wp_intro. intros [api|e] w3 _; [|reflexivity].
  apply wp_bind, wp_lift.
  destruct (py_in "error" api) as [[|]|e]; [| |reflexivity].
  - apply wp_bind, wp_lift.
    destruct (py_item api "error") as [err|e]; [|reflexivity].
    apply wp_bind, wp_from_block, wp_logger, wp_bind, wp_set_local, wp_bind, wp_lift.
    apply wp_ret. cbn. auto.
  - apply wp_bind, wp_from_block. apply wp_intro. intros [n|e] w4 _; [|reflexivity].
    apply wp_bind, wp_from_block, wp_logger, wp_bind, wp_set_local, wp_ret.
    reflexivity.
Qed.

Lemma managed_block_outcome client w :
  wp (with_manager P (job_block P client)) (SUCCESS, w)
     (fun o s' => status_agrees o (fst s')).
Proof.
  apply wp_with_manager.
  destruct (__init__ P None None None None None 1 10) as [m|e]; [|reflexivity].
  apply wp_bind, wp_outer. apply wp_intro. intros [[]|e] s1 _; [|reflexivity].
  apply wp_try_finally.
  eapply wp_weaken; [apply job_block_outcome|]. cbv beta.
  intros o [j s2] Hj. apply wp_outer. unfold __exit__.
  eapply wp_weaken; [apply close_pool_spec|]. cbv beta.
  intros oc s3 (-> & _). exact Hj.
Qed.

Lemma closing_summary_lines j w :
  wp closing_summary (j, w)
     (fun o s' => o = Return tt /\ fst s' = j /\ added w (snd s') (summary_lines j)).
Proof.
  unfold closing_summary.
  apply wp_bind, wp_get_local, wp_bind, wp_outer, wp_logger, wp_bind, wp_outer, wp_logger,
    wp_bind, wp_outer, wp_logger, wp_outer, wp_logger.
  cbn [fst snd]. repeat split.
Qed.

Lemma job_outcome_spec w :
  wp (run_data_collection_job P) w
     (fun o w' => exists j earlier,
        added w w' (earlier ++ summary_lines j) /\ job_ends o j).
Proof.
  unfold run_data_collection_job.
  apply wp_with_locals, wp_bind, wp_outer, wp_logger, wp_bind, wp_outer, wp_logger,
    wp_bind, wp_outer, wp_logger.
  set (b1 := Log INFO [Lit "top banner"]).
  set (b2 := Log INFO [Lit "Starting Cryptocurrency Data Collection Job"]).
  set (b3 := Log INFO [Lit "bottom banner"]).
  set (w0 := set_log _ _).
  assert (A0 : added w w0 [b1; b2; b3]) by reflexivity.
  apply wp_bind, wp_try_finally, wp_try_except2.
  eapply wp_weaken with
    (Q := fun o s' => (exists evs, added w0 (snd s') evs) /\ status_agrees o (fst s')).
  - cbv zeta. apply wp_bind.
    destruct (negb (present (environ P "COINMARKETCAP_API_KEY"))).
    + apply wp_bind, wp_outer, wp_logger, wp_raise. cbn [fst snd].
      split; [eexists [_]|]; reflexivity.
    + apply wp_ret, wp_bind, wp_outer, wp_logger.
      eapply wp_weaken;
        [apply wp_conj; [apply managed_block_steps | apply managed_block_outcome]|].
      cbv beta. intros o s' ((evs & A & _) & Hj). split; [|exact Hj].
      exists (Log INFO [Lit "Connecting to PostgreSQL database..."] :: evs).
      unfold added in *. rewrite A. cbn [w_log set_log]. log_eq.
  - cbv beta. intros o [j w1] ((evs & A1) & Hj). cbn [fst snd] in A1, Hj.
    assert (Hdone : forall j' w2 tail,
      added w1 w2 tail ->
      wp closing_summary (j', w2)
        (fun (oc : outcome unit) s'' =>
           oc = Return tt /\ fst s'' = j' /\
           added w (snd s'') ((([b1; b2; b3] ++ evs) ++ tail) ++ summary_lines j'))).
    { intros j' w2 tail A2.
      eapply wp_weaken; [apply closing_summary_lines|]. cbv beta.
      intros oc s'' (-> & Hj' & At). repeat split; auto.
      exact (added_trans _ _ _ _ _
               (added_trans _ _ _ _ _ (added_trans _ _ _ _ _ A0 A1) A2) At). }
    destruct o as [early|e].
    + eapply wp_weaken; [apply (Hdone j w1 []); reflexivity|]. cbv beta.
      intros oc s'' (-> & Hj' & A). cbn [status_agrees] in Hj.
      destruct early as [r|]; apply wp_ret; cbn [snd];
        exists j, (([b1; b2; b3] ++ evs) ++ []); (split; [exact A|]); cbn [job_ends].
      * right. exact Hj.
      * left. split; [exact Hj | reflexivity].
    + cbn [status_agrees] in Hj. destruct (is_import_error e).
      * apply wp_bind, wp_outer, wp_logger, wp_bind, wp_set_local, wp_ret.
        eapply wp_weaken; [eapply (Hdone FAILED _ [_]); reflexivity|]. cbv beta.
        intros oc s'' (-> & Hj' & A). apply wp_ret. cbn [snd].
        eexists FAILED, _. split; [exact A|]. right. repeat split.
      * destruct (is_Exception e) eqn:He.
        -- apply wp_bind, wp_outer, wp_logger, wp_bind, wp_set_local, wp_ret.
           eapply wp_weaken; [eapply (Hdone FAILED _ [_]); reflexivity|]. cbv beta.
           intros oc s'' (-> & Hj' & A). apply wp_ret. cbn [snd].
           eexists FAILED, _. split; [exact A|]. right. repeat split.
        -- eapply wp_weaken; [apply (Hdone j w1 []); reflexivity|]. cbv beta.
           intros oc s'' (-> & Hj' & A). cbn [snd].
           eexists j, _. split; [exact A|]. split; assumption.
Qed.

(** X19. What the endpoint answers.  [index] returns the pair of the
    job: either the success body with status 200, or a body whose
    status field is the string error with status 500.  It raises no
    exception of class [Exception]: the only exceptions that leave it
    are those outside that class, such as the SystemExit of a missing
    API key. *)
Theorem endpoint_answers_200_or_500 w o w' :
  index P w = (o, w') ->
  match o with
  | Return r => r = success_result \/ (status r = "error" /\ code r = 500%Z)
  | Raise e => is_Exception e = false
  end.
Proof.
  intros Hrun.
  assert (H : wp (index P) w (fun o _ => exists j, job_ends o j)).
  { unfold index. apply wp_bind, wp_logger.
    eapply wp_weaken; [apply job_outcome_spec|]. cbv beta.
    intros o1 w1 (j & _ & _ & H). now exists j. }
  destruct (wp_run _ _ _ _ _ H Hrun) as (j & Hj).
  destruct o as [r|e]; cbn in Hj.
  - destruct Hj as [(_ & ->) | (_ & Hr)]; auto.
  - apply Hj.
Qed.

(** X20. Every run of the job ends with the closing summary: its four
    lines are the last events of the run, on every path, also when the
    job returns early or an exception leaves it.  The summary reads
    FAILED exactly when the job returns status 500; in every other
    case, including an exception that leaves the job, such as the
    SystemExit of a missing API key, it reads SUCCESS. *)
Theorem summary_closes_every_run w o w' :
  run_data_collection_job P w = (o, w') ->
  exists j earlier,
    events_since w w' = earlier ++ summary_lines j /\
    (j = FAILED <-> exists r, o = Return r /\ code r = 500%Z).
Proof.
  intros Hrun.
  destruct (wp_run _ _ _ _ _ (job_outcome_spec w) Hrun) as (j & earlier & A & Hj).
  exists j, earlier. split; [now apply events_since_added|].
  destruct o as [r|e]; cbn in Hj.
  - destruct Hj as [(-> & ->) | (-> & _ & Hc)].
    + split; [discriminate|]. intros (r & Hr & Hc). inversion Hr; subst. discriminate.
    + split; [|reflexivity]. intros _. now exists r.
  - destruct Hj as (-> & _). split; [discriminate|].
    intros (r & Hr & _). discriminate.
Qed.

(** X21. Without an API key the job exits before it touches the
    database or the network: it raises SystemExit with code 1, and all
    it does is log the three opening lines, the CRITICAL line, and the
    closing summary, which reads SUCCESS. *)
Theorem missing_api_key_exits w :
  present (environ P "COINMARKETCAP_API_KEY") = false ->
  run_data_collection_job P w
  = (Raise (mkExn SystemExit "1"),
     set_log (rev ([Log INFO [Lit "top banner"];
                    Log INFO [Lit "Starting Cryptocurrency Data Collection Job"];
                    Log INFO [Lit "bottom banner"];
                    Log CRITICAL
                      [Lit "COINMARKETCAP_API_KEY environment variable not set. Exiting."]]
                   ++ summary_lines SUCCESS) ++ w_log w) w).
Proof.
  intros Hkey.
  unfold run_data_collection_job, with_locals, bind, try_finally, try_except2,
    closing_summary, outer, zoom, logger, emit, raise, ret, get_local.
  rewrite Hkey. reflexivity.
Qed.

End JobOutcome.

Lemma endpoint_answers_200_or_500_witness :
  let run := index live_platform empty_world in
  run = (Return success_result, snd run) /\
  (success_result = success_result \/
   (status success_result = "error" /\ code success_result = 500%Z)).
Proof.
  set (run := index live_platform empty_world). cbv zeta.
  assert (H : run = (Return success_result, snd run)) by (vm_compute; reflexivity).
  split; [exact H|].
  exact (endpoint_answers_200_or_500 live_platform empty_world
           (Return success_result) (snd run) H).
Defined.

Lemma summary_closes_every_run_witness :
  let run := run_data_collection_job keyless_platform empty_world in
  run = (fst run, snd run) /\
  exists j earlier,
    events_since empty_world (snd run) = earlier ++ summary_lines j /\
    (j = FAILED <-> exists r, fst run = Return r /\ code r = 500%Z).
Proof.
  set (run := run_data_collection_job keyless_platform empty_world). cbv zeta.
  split; [apply surjective_pairing|].
  exact (summary_closes_every_run keyless_platform empty_world (fst run) (snd run)
           (surjective_pairing run)).
Defined.

Lemma missing_api_key_exits_witness :
  present (environ keyless_platform "COINMARKETCAP_API_KEY") = false /\
  fst (run_data_collection_job keyless_platform ready_world)
  = Raise (mkExn SystemExit "1").
Proof.
  split; [reflexivity|].
  exact (f_equal fst (missing_api_key_exits keyless_platform ready_world eq_refl)).
Defined.
(** ** Payloads that yield no batch *)

Section PayloadEdges.
Variable P : platform.

Lemma for_each_app {S A} (body : A -> M S unit) (a b : list A) : forall s,
  for_each (a ++ b) body s
  = match for_each a body s with
    | (Return _, s') => for_each b body s'
    | (Raise e, s') => (Raise e, s')
    end.
Proof.
  induction a as [|x a IH]; intros s; cbn [app for_each].
  - reflexivity.
  - unfold bind. destruct (body x s) as [[u|e] s1]; [apply IH | reflexivity].
Qed.

(** X22. When no entry of the payload yields a row, [insert_crypto_data]
    returns 0 and goes nowhere near the database: no manager is built,
    no pool opened, no driver call made.  All it does is log its opening
    line, one line per entry, and the line that says that there is
    nothing to insert. *)
Theorem no_valid_entry_no_database_call api items w :
  payload_items api = Return items ->
  forallb is_dict items = true ->
  valid_rows items = [] ->
  insert_crypto_data P api w
  = (Return 0,
     set_log (rev ([Log INFO [Lit "Processing cryptocurrency data for database insertion"]]
                   ++ skip_log items
                   ++ [Log INFO [Lit "No valid data to insert."]])
              ++ w_log w) w).
Proof.
  intros Hp Hd Hv. unfold payload_items in Hp.
  destruct (py_get api "data" (PyList [])) as [data|e] eqn:Hg; [|discriminate].
  unfold insert_crypto_data, with_locals.
  unfold bind at 1. unfold outer at 1, zoom, logger, emit. cbn [fst snd].
  unfold bind at 1. unfold lift at 1. rewrite Hg.
  unfold bind at 1. unfold lift at 1. rewrite Hp.
  unfold bind at 1. rewrite for_each_process_item by assumption.
  rewrite Hv. cbn [app]. unfold bind at 1. unfold get_local. cbn [fst snd].
  unfold bind, outer, zoom, logger, emit, ret. cbn [fst snd w_log set_log].
  rewrite !set_log_set_log. f_equal. f_equal.
  cbn [rev app]. rewrite rev_app_distr. cbn [rev app]. rewrite <- app_assoc.
  reflexivity.
Qed.

(** X23. A payload that cannot be read, because it is not an object or
    because its data field cannot be iterated, makes
    [insert_crypto_data] raise that very exception after its opening
    log line, before anything else happens. *)
Theorem unreadable_payload_is_rejected api e w :
  payload_items api = Raise e ->
  insert_crypto_data P api w
  = (Raise e,
     set_log (Log INFO [Lit "Processing cryptocurrency data for database insertion"]
              :: w_log w) w).
Proof.
  intros Hp. unfold payload_items in Hp.
  unfold insert_crypto_data, with_locals.
  unfold bind at 1. unfold outer at 1, zoom, logger, emit. cbn [fst snd].
  unfold bind at 1. unfold lift at 1.
  destruct (py_get api "data" (PyList [])) as [data|e0] eqn:Hg.
  - unfold bind at 1. unfold lift at 1. rewrite Hp. reflexivity.
  - inversion Hp; subst. reflexivity.
Qed.

(** X24. An entry that is not an object aborts the ingestion.  The
    handler of the loop asks the entry for its name as well, so the
    AttributeError leaves the handler and the function: the entries
    after it are not looked at, the rows collected before it are
    dropped, and the database is not called. *)
Theorem non_object_entry_aborts_ingestion api before item rest w :
  payload_items api = Return (before ++ item :: rest) ->
  forallb is_dict before = true ->
  is_dict item = false ->
  insert_crypto_data P api w
  = (Raise (attr_error item "get"),
     set_log (rev ([Log INFO [Lit "Processing cryptocurrency data for database insertion"]]
                   ++ skip_log before)
              ++ w_log w) w).
Proof.
  intros Hp Hd Hi. unfold payload_items in Hp.
  destruct (py_get api "data" (PyList [])) as [data|e] eqn:Hg; [|discriminate].
  unfold insert_crypto_data, with_locals.
  unfold bind at 1. unfold outer at 1, zoom, logger, emit. cbn [fst snd].
  unfold bind at 1. unfold lift at 1. rewrite Hg.
  unfold bind at 1. unfold lift at 1. rewrite Hp.
  unfold bind at 1. rewrite for_each_app, for_each_process_item by assumption.
  cbn [for_each]. unfold bind at 1. rewrite process_item_not_dict by assumption.
  cbn [fst snd w_log set_log].
  rewrite !set_log_set_log. f_equal. f_equal.
  cbn [rev app]. rewrite <- app_assoc. reflexivity.
Qed.

End PayloadEdges.

Lemma no_valid_entry_no_database_call_witness :
  (payload_items useless_payload = Return useless_items /\
   forallb is_dict useless_items = true /\ valid_rows useless_items = []) /\
  fst (insert_crypto_data down_platform useless_payload empty_world) = Return 0.
Proof.
  split; [repeat split|].
  exact (f_equal fst (no_valid_entry_no_database_call down_platform useless_payload
                        useless_items empty_world eq_refl eq_refl eq_refl)).
Defined.

Lemma unreadable_payload_is_rejected_witness :
  payload_items (PyDict [("data", PyInt 5)]) = Raise (not_iterable (PyInt 5)) /\
  fst (insert_crypto_data plain_platform (PyDict [("data", PyInt 5)]) ready_world)
  = Raise (mkExn TypeError "'int' object is not iterable").
Proof.
  split; [reflexivity|].
  exact (f_equal fst (unreadable_payload_is_rejected plain_platform
                        (PyDict [("data", PyInt 5)]) (not_iterable (PyInt 5))
                        ready_world eq_refl)).
Defined.

Lemma non_object_entry_aborts_ingestion_witness :
  (payload_items broken_payload = Return ([bare_entry] ++ PyInt 7 :: [bare_entry]) /\
   forallb is_dict [bare_entry] = true /\ is_dict (PyInt 7) = false) /\
  insert_crypto_data plain_platform broken_payload ready_world
  = (Raise (mkExn AttributeError "'int' object has no attribute 'get'"),
     set_log [Log INFO [Lit "Processing cryptocurrency data for database insertion"]]
             ready_world).
Proof.
  split; [repeat split|].
  exact (non_object_entry_aborts_ingestion plain_platform broken_payload
           [bare_entry] (PyInt 7) [bare_entry] ready_world eq_refl eq_refl eq_refl).
Defined.

(** ** The formatter of the log *)

Section Formatter.
Import ColoredFormatter.
Variable super_format : log_record -> string.

Lemma colored_name_is_no_level c name :
  In c (map snd COLORS) ->
  color_of (c ++ name ++ Style_RESET_ALL)%string COLORS = None.
Proof.
  intros H. cbn in H.
  destruct H as [<-|[<-|[<-|[<-|[<-|[]]]]]]; reflexivity.
Qed.

Lemma color_of_in k c : color_of k COLORS = Some c -> In c (map snd COLORS).
Proof.
  unfold COLORS. cbn [color_of map snd].
  repeat (destruct (String.eqb k _);
          [intros H; inversion H; subst; cbn; tauto|]).
  discriminate.
Qed.

(** X25. A record is coloured once.  [format] writes the coloured
    level name and message back into the record; the coloured name is
    not one of the five level names, so formatting the same record
    again leaves it as it is and hands it unchanged to the parent's
    [format]. *)
Theorem record_is_coloured_once record :
  let coloured := snd (format super_format record) in
  format super_format coloured = (super_format coloured, coloured).
Proof.
  cbv zeta. unfold format at 2 3 4. cbn [snd].
  destruct (color_of (levelname record) COLORS) as [c|] eqn:Hc.
  - unfold format. cbn [levelname msg].
    rewrite (colored_name_is_no_level c (levelname record) (color_of_in _ _ Hc)).
    reflexivity.
  - unfold format. rewrite Hc. reflexivity.
Qed.

End Formatter.
(** ** What a job run keeps *)






Section JobData.
Import PostgresManager.
Variable env : string -> option string.
Variable net : string -> list (string * string) -> list (string * pyval) -> net_outcome.
Variable accepts : row -> bool.
Variable flt : nat -> option exn.








End JobData.


